(* Task planning and execution-state engine of backend/reasoning/meta_reasoning.js:
   a shallow embedding of the Dependency Resolver, the ReasoningStateManager,
   the Alternative-Approach Advisor and the Step Executor, with the properties
   the specification states about them. *)

From Stdlib Require Import ZArith QArith Ascii String.
From stdpp Require Import gmap strings list fin_maps pretty sorting.

Local Open Scope string_scope.
Local Open Scope Z_scope.

(* ===================================================================== *)
(** * JavaScript strings                                                  *)
(* ===================================================================== *)

(** [String.prototype.includes]: [sub] occurs somewhere in [s]. *)
Fixpoint includes (s sub : string) : bool :=
  String.prefix sub s ||
  match s with
  | EmptyString => false
  | String _ s' => includes s' sub
  end.

(** [toLowerCase] on the ASCII letters.  The texts searched for in a
    lower-cased message (github, my, i have) are ASCII, and no other character
    lower-cases to a text that completes one of them, so this is exact for
    every search made. *)
Definition lower_ascii (c : ascii) : ascii :=
  let n := nat_of_ascii c in
  if (Nat.leb 65 n && Nat.leb n 90)%bool then ascii_of_nat (n + 32) else c.

Fixpoint toLowerCase (s : string) : string :=
  match s with
  | EmptyString => EmptyString
  | String c s' => String (lower_ascii c) (toLowerCase s')
  end.

(** Truthiness of a string value: only the empty string is falsy. *)
Definition truthy_str (s : string) : bool := negb (String.eqb s "").

(** [a || b] where each side is a string or [undefined]. *)
Definition js_or (a b : option string) : option string :=
  match a with
  | Some s => if truthy_str s then a else b
  | None => b
  end.

(** A string or [undefined] inside a template literal. *)
Definition interpolate (v : option string) : string := default "undefined" v.

(** [new Map(entries)]: a later entry for a key replaces an earlier one. *)
Definition js_map_of {V : Type} (l : list (string * V)) : gmap string V :=
  foldl (fun m kv => <[kv.1 := kv.2]> m) ∅ l.

(* ===================================================================== *)
(** * Task model                                                          *)
(* ===================================================================== *)

(** TASK_STATES *)
Inductive TaskState := PENDING | IN_PROGRESS | COMPLETED | FAILED | SKIPPED.

#[global] Instance TaskState_eq_dec : EqDecision TaskState.
Proof. solve_decision. Defined.

(** A validated task descriptor, as [decomposeQuery] builds it from the
    decomposer's JSON (description, input and output are free text that no
    function inspects; they are left out). *)
Record Task := mkTask {
  t_id : string;
  t_type : string;
  t_dependencies : list string;
  t_priority : Z;
  t_optional : bool
}.

#[global] Instance Task_eq_dec : EqDecision Task.
Proof. solve_decision. Defined.

(* ===================================================================== *)
(** * Thrown errors                                                       *)
(* ===================================================================== *)

(** A thrown [Error], by its [message]. *)
Record Thrown := mkThrown { message : string }.

(** Outcome of a call: a returned value or a thrown error. *)
Inductive Res (A : Type) :=
  | Ok (a : A)
  | Throw (e : Thrown).
Arguments Ok {A} a.
Arguments Throw {A} e.

(** The [TypeError] the runtime throws; [msg] is its [message]. *)
Definition typeError (msg : string) : Thrown := mkThrown msg.

(** The two values without properties. *)
Inductive Nullish := JsUndefined | JsNull.

Definition nullishName (v : Nullish) : string :=
  match v with
  | JsUndefined => "undefined"
  | JsNull => "null"
  end.

(** Reading [v.name] of a value without properties. *)
Definition cannotRead (v : Nullish) (name : string) : Thrown :=
  typeError ("Cannot read properties of " ++ nullishName v
             ++ " (reading '" ++ name ++ "')").

(* ===================================================================== *)
(** * Dependency Resolver                                                 *)
(* ===================================================================== *)

Module Resolver.

(** [logicalOrder]: the predecessor types each task type requires. *)
Definition logicalOrder (ty : string) : list string :=
  if decide (ty = "TOOL_SELECTION") then ["INTENT_CLASSIFICATION"; "MEMORY_CHECK"]
  else if decide (ty = "INFORMATION_GATHERING") then ["TOOL_SELECTION"]
  else if decide (ty = "SYNTHESIS") then ["INFORMATION_GATHERING"]
  else if decide (ty = "VERIFICATION") then ["SYNTHESIS"]
  else [].

(** Property names every plain object inherits from [Object.prototype]:
    [tasksByType[task.type]] is already defined for them, and is not an array,
    so [push] on it throws a TypeError. *)
Definition inheritedKeys : list string :=
  ["constructor"; "__defineGetter__"; "__defineSetter__"; "hasOwnProperty";
   "__lookupGetter__"; "__lookupSetter__"; "isPrototypeOf";
   "propertyIsEnumerable"; "toString"; "valueOf"; "__proto__";
   "toLocaleString"].

(** [tasksByType[depType]] for a type of the table: the tasks of that type in
    input order. *)
Definition tasksByType (tasks : list Task) (depType : string) : list Task :=
  filter (fun t => t_type t = depType) tasks.

(** [taskMap.get(id)] of [new Map(tasks.map(task => [task.id, task]))]. *)
Definition taskMap (tasks : list Task) : gmap string Task :=
  js_map_of (map (fun t => (t_id t, t)) tasks).

(** First element of the stable [sort((a, b) => a.priority - b.priority)]:
    the earliest task among those of least priority number. *)
Fixpoint highestPriority (best : Task) (l : list Task) : Task :=
  match l with
  | [] => best
  | t :: l' =>
      if t_priority t <? t_priority best then highestPriority t l'
      else highestPriority best l'
  end.

Definition alreadyHasDep (tasks : list Task) (task : Task) (depType : string) : bool :=
  existsb (fun depId =>
    match taskMap tasks !! depId with
    | Some depTask => bool_decide (t_type depTask = depType)
    | None => false
    end) (t_dependencies task).

(** The ids pushed onto [newDependencies] for one task. *)
Definition injected (tasks : list Task) (task : Task) : list string :=
  flat_map (fun depType =>
    match tasksByType tasks depType with
    | [] => []
    | t0 :: rest =>
        if alreadyHasDep tasks task depType then []
        else [t_id (highestPriority t0 rest)]
    end) (logicalOrder (t_type task)).

(** [enforceLogicalDependencies]; [None] is the TypeError of the grouping
    loop on a type that names an inherited property. *)
Definition enforceLogicalDependencies (tasks : list Task) : option (list Task) :=
  if existsb (fun t => bool_decide (t_type t ∈ inheritedKeys)) tasks then None
  else Some (map (fun task =>
    mkTask (t_id task) (t_type task)
           (t_dependencies task ++ injected tasks task)
           (t_priority task) (t_optional task)) tasks).

(** State of the depth-first traversal: the closure variables [visited],
    [temp] and [result] of [sortTasksByDependencies]. *)
Record Dfs := mkDfs {
  visited : gset string;
  temp : gset string;
  result : list string
}.

(** [taskMap] of [sortTasksByDependencies]: id to index, the last task of an
    id winning; only its key set and the task it designates are used. *)
Definition indexMap (tasks : list Task) : gmap string nat :=
  js_map_of (imap (fun i t => (t_id t, i)) tasks).

(** [graph]: id to dependency list, the last task of an id winning. *)
Definition graph (tasks : list Task) : gmap string (list string) :=
  js_map_of (map (fun t => (t_id t, t_dependencies t)) tasks).

(** [visit(taskId)].  The recursion descends along dependency edges and is
    bounded by the number of ids that can sit in [temp]; [fuel] makes that
    bound explicit and [None] is returned only when it runs out. *)
Fixpoint visit (tasks : list Task) (fuel : nat) (taskId : string) (st : Dfs)
  : option Dfs :=
  match fuel with
  | O => None
  | S fuel' =>
      if decide (taskId ∈ temp st) then Some st
      else if decide (taskId ∈ visited st) then Some st
      else
        let st1 := mkDfs (visited st) ({[taskId]} ∪ temp st) (result st) in
        let dependencies := default [] (graph tasks !! taskId) in
        match
          foldl (fun acc depId =>
                   match acc with
                   | None => None
                   | Some s =>
                       if decide (is_Some (indexMap tasks !! depId))
                       then visit tasks fuel' depId s
                       else Some s
                   end) (Some st1) dependencies
        with
        | None => None
        | Some st2 =>
            Some (mkDfs ({[taskId]} ∪ visited st2) (temp st2 ∖ {[taskId]})
                        (result st2 ++ [taskId]))
        end
  end.

(** The loop [tasks.forEach(task => { if (!visited.has(task.id)) visit(task.id) })]. *)
Definition visitAll (tasks : list Task) (fuel : nat) : option Dfs :=
  foldl (fun acc task =>
           match acc with
           | None => None
           | Some s =>
               if decide (t_id task ∈ visited s) then Some s
               else visit tasks fuel (t_id task) s
           end) (Some (mkDfs ∅ ∅ [])) tasks.

(** [sortTasksByDependencies]: [result.reverse().map(id => tasks[taskMap.get(id)])].
    [None] stands for a traversal out of fuel or an id without a task; the
    function is shown total below. *)
Definition sortTasksByDependencies (tasks : list Task) : option (list Task) :=
  match visitAll tasks (S (length tasks)) with
  | None => None
  | Some st =>
      mapM (fun id => match indexMap tasks !! id with
                      | Some i => tasks !! i
                      | None => None
                      end) (reverse (result st))
  end.

(** [typeOrder] of [planQueryExecution] and the sort key [va]:
    [typeOrder.indexOf(type)], or [typeOrder.length] for a type not listed. *)
Definition typeOrder : list string :=
  ["MEMORY_CHECK"; "INTENT_CLASSIFICATION"; "TOOL_SELECTION";
   "INFORMATION_GATHERING"; "SYNTHESIS"; "VERIFICATION"].

Fixpoint indexOf (l : list string) (x : string) : option nat :=
  match l with
  | [] => None
  | y :: l' => if decide (y = x) then Some O else S <$> indexOf l' x
  end.

Definition typeRank (ty : string) : nat :=
  default (length typeOrder) (indexOf typeOrder ty).

(** [Array.prototype.sort] is stable; with the comparator [va - vb] it is the
    stable sort by [typeRank], written here as insertion from the right. *)
Fixpoint insertByRank {A : Type} (rank : A -> nat) (x : A) (l : list A) : list A :=
  match l with
  | [] => [x]
  | y :: l' =>
      if (rank x <=? rank y)%nat then x :: y :: l'
      else y :: insertByRank rank x l'
  end.

Definition stableSortBy {A : Type} (rank : A -> nat) (l : list A) : list A :=
  foldr (insertByRank rank) [] l.

(** [getDefaultTasks] *)
Definition getDefaultTasks : list Task :=
  [ mkTask "task-1" "MEMORY_CHECK" [] 1 false;
    mkTask "task-2" "INTENT_CLASSIFICATION" [] 1 false;
    mkTask "task-3" "TOOL_SELECTION" ["task-2"] 2 false;
    mkTask "task-4" "INFORMATION_GATHERING" ["task-3"] 3 false;
    mkTask "task-5" "SYNTHESIS" ["task-4"] 4 false ].

(** What the call to the language model came to: no parseable task array,
    or a thrown value that has properties ([NoTasks]); the validated tasks
    ([Parsed]); or a thrown value without properties, as a promise rejected
    with no reason ([Rejected]). *)
Inductive Decomposition :=
  | NoTasks
  | Parsed (tasks : list Task)
  | Rejected (reason : Nullish).

(** [decomposeQuery], after the call to the language model.  The [catch]
    logs [error.message] and returns the default tasks; on a thrown value
    without properties that read throws in its turn.  [None] is the sort
    out of fuel. *)
Definition decomposeQuery (d : Decomposition) : option (Res (list Task)) :=
  match d with
  | NoTasks => Some (Ok getDefaultTasks)
  | Parsed tasks =>
      match enforceLogicalDependencies tasks with
      | None => Some (Ok getDefaultTasks)
      | Some withDeps => Ok <$> sortTasksByDependencies withDeps
      end
  | Rejected reason => Some (Throw (cannotRead reason "message"))
  end.


End Resolver.

(* ===================================================================== *)
(** * Values exchanged with the collaborators                             *)
(* ===================================================================== *)

(** A hit of a search, by the fields [executeSynthesis] reads. *)
Record Hit := mkHit {
  h_title : option string;
  h_snippet : option string;
  h_url : option string
}.

(** The part of a tool's reply that [executeSynthesis] reads. *)
Record ToolResult := mkToolResult {
  tr_sections : string;            (* report lines for problemType, approach, steps, conclusion, confidence *)
  tr_results : option (list Hit);  (* [tr.results] when [Array.isArray(tr.results)] *)
  tr_content : string;             (* [tr.content], empty when absent *)
  tr_url : string
}.

(** A step result.  Only the fields the engine itself reads are kept:
    [success] by its truthiness, [response], [selectedTool], [toolResult] and
    [error]; whatever else a collaborator returns is carried untouched. *)
Record Result := mkResult {
  r_success : bool;
  r_response : option string;
  r_selectedTool : option string;
  r_toolResult : option ToolResult;
  r_error : option string
}.


(** The collaborator-backed functions of the executor. *)
Inductive Call :=
  | CMemoryCheck
  | CIntentClassification
  | CToolSelection
  | CInformationGathering
  | CDirectSynthesis
  | CSingleUrlProcessing
  | CTool (name : string).

(** The execution context: [context.userMsg]. *)
Record Context := mkContext { userMsg : option string }.

(* ===================================================================== *)
(** * Reasoning State Manager                                             *)
(* ===================================================================== *)

(** An element of [plan.steps].  [getDefaultSteps] and fixing steps leave
    some fields undefined. *)
Record Step := mkStep {
  s_id : option string;
  s_type : string;
  s_dependencies : option (list string);
  s_priority : option Z;
  s_optional : bool
}.

#[global] Instance Step_eq_dec : EqDecision Step.
Proof. solve_decision. Defined.

(** A task object of [this.tasks]: the spread step with [id], [state],
    [startTime], [endTime] and, once updated, [lastUpdated].  An object made
    by spreading a state string has no step fields and no id. *)
Record TaskRec := mkTaskRec {
  k_step : option Step;
  k_id : option string;
  k_state : TaskState;
  k_startTime : option Z;
  k_endTime : option Z;
  k_lastUpdated : option Z
}.

(** A value of a checkpoint's [taskStates]: [task.state], which is undefined
    when [task] is itself a state string. *)
Inductive StateVal :=
  | SVal (s : TaskState)
  | SUndefined.

#[global] Instance StateVal_eq_dec : EqDecision StateVal.
Proof. solve_decision. Defined.

(** A value of [this.tasks]: a task object, or, after [restoreCheckpoint],
    the bare value the checkpoint held. *)
Inductive Entry :=
  | EObj (r : TaskRec)
  | EPrim (v : StateVal).

(** The recorded [error.message || error]: the message text, or the error
    object itself when its message is empty. *)
Inductive ErrVal :=
  | ErrMsg (s : string)
  | ErrObj.

Record Failure := mkFailure {
  f_approach : string;
  f_error : ErrVal;
  f_timestamp : Z
}.

(** Failure histories are arrays, shared by reference between [approaches]
    and every snapshot that copied the map: a map holds the array's address. *)
Definition loc := nat.

Record Checkpoint := mkCheckpoint {
  cp_name : string;
  cp_timestamp : Z;
  taskStates : gmap string StateVal;
  resultsSnapshot : gmap string Result;
  approachesSnapshot : gmap string loc
}.

(** A [ReasoningStateManager] together with the store its arrays live in and
    the counters of the calls made so far to [Date.now] and to collaborators. *)
Record World := mkWorld {
  tasks : gmap string Entry;
  results : gmap string Result;
  approaches : gmap string loc;
  checkpoints : list Checkpoint;
  heap : gmap loc (list Failure);
  ticks : nat;
  calls : nat
}.

(** [new ReasoningStateManager()] *)
Definition newManager : World := mkWorld ∅ ∅ ∅ [] ∅ O O.

(** Computations over the world that may throw; the world keeps whatever
    was mutated before the throw. *)
Definition M (A : Type) : Type := World -> Res A * World.

Definition ret {A} (a : A) : M A := fun w => (Ok a, w).
Definition throw {A} (e : Thrown) : M A := fun w => (Throw e, w).
Definition bind {A B} (m : M A) (k : A -> M B) : M B :=
  fun w => match m w with
           | (Ok a, w') => k a w'
           | (Throw e, w') => (Throw e, w')
           end.
Definition tryCatch {A} (m : M A) (handler : Thrown -> M A) : M A :=
  fun w => match m w with
           | (Ok a, w') => (Ok a, w')
           | (Throw e, w') => handler e w'
           end.
Definition get : M World := fun w => (Ok w, w).
Definition modify (f : World -> World) : M unit := fun w => (Ok tt, f w).
Definition liftRes {A} (f : World -> Res A) : M A := fun w => (f w, w).

#[global] Instance M_ret : MRet M := @ret.
#[global] Instance M_bind : MBind M := fun A B k m => bind m k.
#[global] Instance M_fmap : FMap M := fun A B f m => bind m (fun a => ret (f a)).

Section Engine.

(** The environment: the value of the [n]-th call of [Date.now()], and the
    outcome of the [n]-th collaborator call. *)
Variable clock : nat -> Z.
Variable collab : nat -> Call -> Res Result.

(** [Date.now()] *)
Definition now : M Z :=
  fun w => (Ok (clock (ticks w)),
            mkWorld (tasks w) (results w) (approaches w) (checkpoints w)
                    (heap w) (S (ticks w)) (calls w)).

Definition setTasks (f : gmap string Entry -> gmap string Entry) : M unit :=
  modify (fun w => mkWorld (f (tasks w)) (results w) (approaches w)
                           (checkpoints w) (heap w) (ticks w) (calls w)).
Definition setResults (f : gmap string Result -> gmap string Result) : M unit :=
  modify (fun w => mkWorld (tasks w) (f (results w)) (approaches w)
                           (checkpoints w) (heap w) (ticks w) (calls w)).
Definition setApproaches (f : gmap string loc -> gmap string loc) : M unit :=
  modify (fun w => mkWorld (tasks w) (results w) (f (approaches w))
                           (checkpoints w) (heap w) (ticks w) (calls w)).
Definition setCheckpoints (f : list Checkpoint -> list Checkpoint) : M unit :=
  modify (fun w => mkWorld (tasks w) (results w) (approaches w)
                           (f (checkpoints w)) (heap w) (ticks w) (calls w)).
Definition setHeap (f : gmap loc (list Failure) -> gmap loc (list Failure)) : M unit :=
  modify (fun w => mkWorld (tasks w) (results w) (approaches w)
                           (checkpoints w) (f (heap w)) (ticks w) (calls w)).

(** [task.state] of a value of [this.tasks]; [None] is the TypeError of
    reading a property of undefined. *)
Definition stateOf (e : Entry) : option StateVal :=
  match e with
  | EObj r => Some (SVal (k_state r))
  | EPrim (SVal _) => Some SUndefined
  | EPrim SUndefined => None
  end.

(** Truthiness of a value of [this.tasks] ([!task]). *)
Definition truthyEntry (e : Entry) : bool :=
  match e with
  | EPrim SUndefined => false
  | _ => true
  end.

(** Truthiness of a time stamp ([!task.startTime]). *)
Definition truthyTime (t : option Z) : bool :=
  match t with
  | Some z => negb (z =? 0)
  | None => false
  end.

(** The checkpoint object [createCheckpoint] builds: the state of every
    task, and copies of the two maps (the arrays of [approaches] are not
    copied: the snapshot holds the same addresses). *)
Definition snapshot (name : string) (timestamp : Z) (w : World) : Checkpoint :=
  mkCheckpoint name timestamp (omap stateOf (tasks w)) (results w) (approaches w).

(** [push] followed by [if (length > 10) shift()]. *)
Definition pushEvict (cps : list Checkpoint) (cp : Checkpoint) : list Checkpoint :=
  let cps' := (cps ++ [cp])%list in
  if (10 <? length cps')%nat then tail cps' else cps'.

(** [createCheckpoint(name)] *)
Definition createCheckpoint (name : string) : M unit :=
  w ← get;
  timestamp ← now;
  if bool_decide (map_Forall (fun _ e => is_Some (stateOf e)) (tasks w))
  then setCheckpoints (fun cps => pushEvict cps (snapshot name timestamp w))
  else throw (typeError "Cannot read properties of undefined (reading 'state')").

(** The task id [initializePlan] and [executeNextStep] give the step at
    [index]: [step.id || `task-${index}`]. *)
Definition stepTaskId (step : Step) (index : nat) : string :=
  match s_id step with
  | Some i => if truthy_str i then i else "task-" ++ pretty index
  | None => "task-" ++ pretty index
  end.

(** [initializePlan(plan)] *)
Definition initializePlan (steps : list Step) : M unit :=
  setTasks (fun ts =>
    foldl (fun m '(index, step) =>
             let taskId := stepTaskId step index in
             <[taskId := EObj (mkTaskRec (Some step) (Some taskId) PENDING None None None)]> m)
          ts (imap pair steps));;
  createCheckpoint "plan_initialized".

(** [updateTaskState(taskId, newState)] *)
Definition updateTaskState (taskId : string) (newState : TaskState) : M bool :=
  w ← get;
  match tasks w !! taskId with
  | None => mret false
  | Some task =>
      if negb (truthyEntry task) then mret false
      else
        let old := match task with
                   | EObj r => r
                   | EPrim _ => mkTaskRec None None newState None None None
                   end in
        lastUpdated ← now;
        startTime ←
          (if bool_decide (newState = IN_PROGRESS) && negb (truthyTime (k_startTime old))
           then t ← now; mret (Some t)
           else mret (k_startTime old));
        endTime ←
          (if bool_decide (newState ∈ [COMPLETED; FAILED; SKIPPED])
              && negb (truthyTime (k_endTime old))
           then t ← now; mret (Some t)
           else mret (k_endTime old));
        setTasks (insert taskId
          (EObj (mkTaskRec (k_step old) (k_id old) newState startTime endTime
                           (Some lastUpdated))));;
        mret true
  end.

(** [recordSuccess(taskId, result)] *)
Definition recordSuccess (taskId : string) (r : Result) : M bool :=
  updateTaskState taskId COMPLETED;;
  setResults (insert taskId r);;
  createCheckpoint ("task_" ++ taskId ++ "_completed");;
  mret true.

(** [error.message || error] *)
Definition errorValue (e : Thrown) : ErrVal :=
  if truthy_str (message e) then ErrMsg (message e) else ErrObj.

(** [array.push(x)] on the array at address [l]. *)
Definition heapPush (l : loc) (x : Failure)
    (h : gmap loc (list Failure)) : gmap loc (list Failure) :=
  <[l := (default [] (h !! l) ++ [x])%list]> h.

(** [recordFailure(taskId, approach, error)] *)
Definition recordFailure (taskId approach : string) (error : Thrown) : M bool :=
  updateTaskState taskId FAILED;;
  w ← get;
  l ← match approaches w !! taskId with
      | Some l => mret l
      | None =>
          let l := fresh (dom (heap w)) in
          setHeap (insert l []);;
          setApproaches (insert taskId l);;
          mret l
      end;
  timestamp ← now;
  setHeap (heapPush l (mkFailure approach (errorValue error) timestamp));;
  createCheckpoint ("task_" ++ taskId ++ "_failed");;
  mret true.

(** [restoreCheckpoint(name)] *)
Definition restoreCheckpoint (name : string) : M bool :=
  w ← get;
  match List.find (fun cp => bool_decide (cp_name cp = name)) (checkpoints w) with
  | None => mret false
  | Some checkpoint =>
      setTasks (fun _ => EPrim <$> taskStates checkpoint);;
      setResults (fun _ => resultsSnapshot checkpoint);;
      setApproaches (fun _ => approachesSnapshot checkpoint);;
      mret true
  end.

(** The object [getTaskStatus()] returns. *)
Record Status := mkStatus {
  st_pending : nat;
  st_inProgress : nat;
  st_completed : nat;
  st_failed : nat;
  st_skipped : nat;
  st_total : nat
}.

Definition countState (s : TaskState) (m : gmap string Entry) : nat :=
  size (filter (fun kv => stateOf kv.2 = Some (SVal s)) m).

(** [getTaskStatus()]; reading the state of an undefined value throws. *)
Definition getTaskStatus : M Status :=
  w ← get;
  if bool_decide (map_Forall (fun _ e => is_Some (stateOf e)) (tasks w))
  then mret (mkStatus (countState PENDING (tasks w))
                      (countState IN_PROGRESS (tasks w))
                      (countState COMPLETED (tasks w))
                      (countState FAILED (tasks w))
                      (countState SKIPPED (tasks w))
                      (size (tasks w)))
  else throw (typeError "Cannot read properties of undefined (reading 'state')").

(** The failure history of a task: the array [this.approaches.get(taskId)]. *)
Definition failureHistory (w : World) (taskId : string) : option (list Failure) :=
  l ← approaches w !! taskId; heap w !! l.

(** The failure history a checkpoint shows for a task. *)
Definition checkpointHistory (w : World) (cp : Checkpoint) (taskId : string)
  : option (list Failure) :=
  l ← approachesSnapshot cp !! taskId; heap w !! l.

(* --------------------------------------------------------------------- *)
(** ** Alternative-Approach Advisor                                       *)
(* --------------------------------------------------------------------- *)

(** The object [suggestAlternativeApproach] returns. *)
Record Suggestion := mkSuggestion {
  approach : string;
  confidence : Q;
  responseType : option string;
  previousApproaches : option (list string)
}.

(** [errorPatterns.some(e => p(e))] where [p] calls [e.includes]: the scan
    stops at the first match, and throws on an error object, which has no
    [includes]. *)
Fixpoint someError (p : string -> bool) (l : list ErrVal) : Res bool :=
  match l with
  | [] => Ok false
  | ErrObj :: _ => Throw (typeError "e.includes is not a function")
  | ErrMsg e :: l' => if p e then Ok true else someError p l'
  end.

(** [suggestAlternativeInfoGathering(triedApproaches, context)] *)
Definition toolPriorities : list (string * Q) :=
  [("WEB_SEARCH", 9 # 10); ("READ_URL", 8 # 10);
   ("MEMORY_CHECK", 7 # 10); ("REASONING_TOOL", 6 # 10)]%Q.

Definition suggestAlternativeInfoGathering (triedApproaches : list string) : Suggestion :=
  match List.find (fun o => negb (bool_decide (o.1 ∈ triedApproaches))) toolPriorities with
  | Some toolOption =>
      mkSuggestion toolOption.1 toolOption.2 None (Some triedApproaches)
  | None =>
      if negb (bool_decide ("DIRECT_SYNTHESIS" ∈ triedApproaches))
      then mkSuggestion "DIRECT_SYNTHESIS" (7 # 10) None (Some triedApproaches)
      else mkSuggestion "ASK_CLARIFICATION" (5 # 10) None (Some triedApproaches)
  end.

(** [suggestAlternativeTool(triedApproaches, context)] *)
Definition suggestAlternativeTool (triedApproaches : list string) (context : Context)
  : Suggestion :=
  let query := default "" (userMsg context) in
  if includes (toLowerCase query) "github"
     && negb (bool_decide ("READ_URL" ∈ triedApproaches))
  then mkSuggestion "READ_URL" (8 # 10) None (Some triedApproaches)
  else if negb (bool_decide ("REASONING_TOOL" ∈ triedApproaches))
          && bool_decide ("WEB_SEARCH" ∈ triedApproaches)
  then mkSuggestion "REASONING_TOOL" (7 # 10) None (Some triedApproaches)
  else mkSuggestion "ASK_CLARIFICATION" (5 # 10) None (Some triedApproaches).

(** [task.type] of a value of [this.tasks]. *)
Definition typeOfEntry (e : Entry) : option string :=
  match e with
  | EObj r => s_type <$> k_step r
  | EPrim _ => None
  end.

(** [suggestAlternativeApproach(taskId, context)]; [Ok None] is [null]. *)
Definition suggestAlternativeApproach (taskId : string) (context : Context)
    (w : World) : Res (option Suggestion) :=
  match tasks w !! taskId with
  | None => Ok None
  | Some task =>
      if negb (truthyEntry task) then Ok None
      else
        let failedApproaches := default [] (failureHistory w taskId) in
        if (length failedApproaches =? 0)%nat
        then Ok (Some (mkSuggestion "default" (10 # 10) None None))
        else
          let triedApproaches := map f_approach failedApproaches in
          if (3 <=? length triedApproaches)%nat
          then Ok (Some (mkSuggestion "DIRECT_RESPONSE" (6 # 10) (Some "summary")
                                      (Some triedApproaches)))
          else
            let errorPatterns := map f_error failedApproaches in
            match someError (fun e => includes e "Invalid URL" || includes e "undefined")
                            errorPatterns with
            | Throw t => Throw t
            | Ok true =>
                Ok (Some (mkSuggestion "SINGLE_URL_PROCESSING" (8 # 10) None
                                       (Some triedApproaches)))
            | Ok false =>
                let ty := typeOfEntry task in
                let byType :=
                  if decide (ty = Some "INFORMATION_GATHERING")
                  then suggestAlternativeInfoGathering triedApproaches
                  else if decide (ty = Some "SYNTHESIS")
                  then (if negb (bool_decide ("DIRECT_SYNTHESIS" ∈ triedApproaches))
                        then mkSuggestion "DIRECT_SYNTHESIS" (8 # 10) None
                                          (Some triedApproaches)
                        else mkSuggestion "ASK_CLARIFICATION" (5 # 10) None
                                          (Some triedApproaches))
                  else if decide (ty = Some "TOOL_SELECTION")
                  then suggestAlternativeTool triedApproaches context
                  else mkSuggestion "ASK_CLARIFICATION" (5 # 10) None
                                    (Some triedApproaches) in
                match someError (fun e => includes e "Missing required parameter"
                                          || includes e "parameter") errorPatterns with
                | Throw t => Throw t
                | Ok false => Ok (Some byType)
                | Ok true =>
                    match someError (fun e => includes e "problem") errorPatterns with
                    | Throw t => Throw t
                    | Ok true =>
                        Ok (Some (mkSuggestion "WEB_SEARCH" (7 # 10) None
                                               (Some triedApproaches)))
                    | Ok false => Ok (Some byType)
                    end
                end
            end
  end.

(* --------------------------------------------------------------------- *)
(** ** Plans                                                              *)
(* --------------------------------------------------------------------- *)

(** An element of [plan.results]. *)
Record ResultEntry := mkResultEntry {
  e_step : Step;
  e_result : Result;
  e_alternative : option string
}.

(** A plan object.  Its [stateManager] is the world the computations run
    in; flags absent from the object read as [false] or [None]. *)
Record Plan := mkPlan {
  query : string;
  steps : list Step;
  currentStepIndex : nat;
  planResults : list ResultEntry;
  completed : bool;
  lastStepSuccessful : option bool;
  skippedStep : bool;
  usedAlternative : bool;
  planError : option string;
  startTime : Z
}.

(** The steps [planQueryExecution] builds from the decomposed tasks. *)
Definition stepOfTask (t : Task) : Step :=
  mkStep (Some (t_id t)) (t_type t) (Some (t_dependencies t))
         (Some (t_priority t)) (t_optional t).

Definition memoryBookend : Step :=
  mkStep (Some "task-memory") "MEMORY_CHECK" (Some []) (Some 0) false.

Definition verificationBookend : Step :=
  mkStep (Some "task-verification") "VERIFICATION" (Some [])
         (Some (Z.of_nat (length Resolver.typeOrder))) false.

(** The [plan.steps] of [planQueryExecution]: the canonical sort, then the
    two bookends where their type is missing. *)
Definition planSteps (decomposedTasks : list Task) : list Step :=
  let sorted := Resolver.stableSortBy (fun s => Resolver.typeRank (s_type s))
                                      (map stepOfTask decomposedTasks) in
  let existingTypes := map s_type sorted in
  let withMemory :=
    if bool_decide ("MEMORY_CHECK" ∈ existingTypes) then sorted
    else memoryBookend :: sorted in
  if bool_decide ("VERIFICATION" ∈ existingTypes) then withMemory
  else (withMemory ++ [verificationBookend])%list.

(** [new ReasoningStateManager()] for a plan: nothing of an earlier manager
    is reachable from it; the clock and the collaborators go on. *)
Definition newStateManager : M unit :=
  modify (fun w => mkWorld ∅ ∅ ∅ [] ∅ (ticks w) (calls w)).

(** The [try] block of [planQueryExecution], from the decomposed tasks on. *)
Definition planFromTasks (userQuery : string) (decomposedTasks : list Task)
  : M Plan :=
  newStateManager;;
  startTime ← now;
  let plan := mkPlan userQuery (planSteps decomposedTasks) O [] false None
                     false false None startTime in
  initializePlan (steps plan);;
  mret plan.

(** [getDefaultSteps]: five steps without [id], [dependencies] or
    [priority]. *)
Definition getDefaultSteps : list Step :=
  [ mkStep None "MEMORY_CHECK" None None false;
    mkStep None "INTENT_CLASSIFICATION" None None false;
    mkStep None "TOOL_SELECTION" None None false;
    mkStep None "INFORMATION_GATHERING" None None false;
    mkStep None "SYNTHESIS" None None false ].

(** The [catch] block of [planQueryExecution]. *)
Definition planFromDefaultSteps (userQuery : string) (error : Thrown) : M Plan :=
  let defaultSteps := getDefaultSteps in
  newStateManager;;
  startTime ← now;
  let plan := mkPlan userQuery defaultSteps O [] false None
                     false false (Some (message error)) startTime in
  initializePlan (steps plan);;
  mret plan.

(** [planQueryExecution], after the call to the language model.  [None] is
    the decomposition out of fuel. *)
Definition planQueryExecution (userQuery : string) (d : Resolver.Decomposition)
  : M (option Plan) :=
  match Resolver.decomposeQuery d with
  | None => mret None
  | Some decomposed =>
      Some <$> tryCatch (decomposedTasks ← liftRes (fun _ => decomposed);
                         planFromTasks userQuery decomposedTasks)
                        (planFromDefaultSteps userQuery)
  end.

(* --------------------------------------------------------------------- *)
(** ** Step functions                                                     *)
(* --------------------------------------------------------------------- *)

(** One call to a collaborator, with the reads the calling step function
    makes of the reply: a reply without properties ([undefined] or [null])
    makes the first of these reads throw, and the call is then [Throw] of
    that TypeError.  Nobody reads the reply of a tool called by name before
    it is stored as a result: that reply is taken to be an object. *)
Definition callCollab (c : Call) : M Result :=
  fun w => (collab (calls w) c,
            mkWorld (tasks w) (results w) (approaches w) (checkpoints w)
                    (heap w) (ticks w) (S (calls w))).

Definition failure (msg : string) : Result :=
  mkResult false None None None (Some msg).

(** A function whose whole body sits in [try { ... } catch (error)
    { return { success: false, error: error.message } }]. *)
Definition caught (m : M Result) : M Result :=
  tryCatch m (fun e => mret (failure (message e))).

Definition executeMemoryCheck : M Result := callCollab CMemoryCheck.

(** [executeIntentClassification] and [executeToolSelection] return
    [success: true] whenever their collaborator returns. *)
Definition executeIntentClassification : M Result :=
  r ← callCollab CIntentClassification;
  mret (mkResult true (r_response r) (r_selectedTool r) (r_toolResult r) (r_error r)).

Definition executeToolSelection : M Result :=
  r ← callCollab CToolSelection;
  mret (mkResult true (r_response r) (r_selectedTool r) (r_toolResult r) (r_error r)).

Definition executeInformationGathering : M Result :=
  caught (callCollab CInformationGathering).

Definition executeSingleUrlProcessing : M Result :=
  caught (callCollab CSingleUrlProcessing).

Definition executeDirectSynthesis : M Result :=
  caught (r ← callCollab CDirectSynthesis;
          mret (mkResult true (r_response r) None None None)).

(** [executeToolWithName(toolName, ...)] rethrows under its own message. *)
Definition executeToolWithName (toolName : string) : M Result :=
  tryCatch (callCollab (CTool toolName))
    (fun e => throw (mkThrown ("Error executing tool " ++ toolName ++ ": " ++ message e))).

(** [prioritizeTools(task, context)]: [userMsg.toLowerCase()] throws when the
    context has no user message. *)
Definition prioritizeTools (task : Step) (context : Context) : M (list (string * Q)) :=
  match userMsg context with
  | None => throw (typeError "Cannot read properties of undefined (reading 'toLowerCase')")
  | Some msg =>
      let m := toLowerCase msg in
      if includes m "github"
      then mret [("READ_URL", 9 # 10); ("WEB_SEARCH", 7 # 10)]%Q
      else if includes m "my" || includes m "i have"
      then mret [("MEMORY_CHECK", 9 # 10); ("RESPOND", 7 # 10)]%Q
      else if bool_decide (s_type task = "INFORMATION_GATHERING")
      then mret [("WEB_SEARCH", 9 # 10); ("READ_URL", 8 # 10);
                 ("REASONING_TOOL", 7 # 10)]%Q
      else mret [("WEB_SEARCH", 8 # 10); ("READ_URL", 7 # 10);
                 ("REASONING_TOOL", 6 # 10); ("RESPOND", 5 # 10)]%Q
  end.

Definition quote : string := String (ascii_of_nat 34) EmptyString.
Definition newline : string := String (ascii_of_nat 10) EmptyString.

(** The line [hits.map] builds for the hit at [idx]. *)
Definition summaryLine (idx : nat) (item : Hit) : string :=
  let title := js_or (h_title item) (js_or (h_snippet item) (h_url item)) in
  pretty (idx + 1)%nat ++ ". " ++ interpolate title
  ++ " (" ++ interpolate (h_url item) ++ ")".

(** [executeSynthesis(query, results, context)].  The hits of a search are
    taken to be objects, so that [hits.map] returns. *)
Definition executeSynthesis (query : string) (previous : list ResultEntry) : M Result :=
  let infoToolStep :=
    List.find (fun r => bool_decide (s_type (e_step r) = "INFORMATION_GATHERING")
                        && bool_decide (r_selectedTool (e_result r) = Some "REASONING_TOOL"))
              previous in
  match infoToolStep ≫= (fun r => r_toolResult (e_result r)) with
  | Some rt =>
      mret (mkResult true
              (Some ("Report for " ++ quote ++ query ++ quote ++ ":" ++ newline
                     ++ tr_sections rt)) None None None)
  | None =>
      let infoStep :=
        List.find (fun r => bool_decide (s_type (e_step r) = "INFORMATION_GATHERING")
                            && r_success (e_result r)) previous in
      match infoStep ≫= (fun r => r_toolResult (e_result r)) with
      | Some tr =>
          match tr_results tr with
          | Some hits =>
              let summaryLines := imap summaryLine hits in
              let summary := String.concat newline summaryLines in
              mret (mkResult true
                      (Some ("I found the following top results for " ++ quote ++ query
                             ++ quote ++ ":" ++ newline ++ summary)) None None None)
          | None =>
              if truthy_str (tr_content tr)
              then mret (mkResult true
                           (Some ("Here is the content from " ++ tr_url tr ++ ":"
                                  ++ newline ++ tr_content tr)) None None None)
              else executeDirectSynthesis
          end
      | None => executeDirectSynthesis
      end
  end.

(** Truthiness of [result.response]. *)
Definition truthyResponse (r : Result) : bool :=
  match r_response r with
  | Some s => truthy_str s
  | None => false
  end.

(** [executeVerification(query, results, context)] *)
Definition executeVerification (previous : list ResultEntry) : M Result :=
  match List.find (fun r => bool_decide (s_type (e_step r) = "SYNTHESIS")) previous with
  | Some synth =>
      if truthyResponse (e_result synth)
      then mret (mkResult true (r_response (e_result synth)) None None None)
      else mret (failure "No synthesis result available for verification")
  | None => mret (failure "No synthesis result available for verification")
  end.

(** What [validateStepInputs] returns: [{ valid: true }], or an object with
    [valid: false], [fixable] and [missingStep]. *)
Inductive Validation :=
  | Valid
  | Invalid (fixable : bool) (missingStep : string).

Definition hasSuccessful (ty : string) (previous : list ResultEntry) : bool :=
  negb ((length (List.filter
           (fun r => bool_decide (s_type (e_step r) = ty) && r_success (e_result r))
           previous) =? 0)%nat).

(** [validateStepInputs(step, plan)] *)
Definition validateStepInputs (step : Step) (plan : Plan) : Validation :=
  let previousResults := planResults plan in
  if decide (s_type step = "SYNTHESIS") then
    if hasSuccessful "INFORMATION_GATHERING" previousResults then Valid
    else Invalid true "INFORMATION_GATHERING"
  else if decide (s_type step = "VERIFICATION") then
    if hasSuccessful "SYNTHESIS" previousResults then Valid
    else Invalid true "SYNTHESIS"
  else if decide (s_type step = "INFORMATION_GATHERING") then
    if hasSuccessful "TOOL_SELECTION" previousResults then Valid
    else Invalid true "TOOL_SELECTION"
  else Valid.

(** [createFixingStep(originalStep, validation)] *)
Definition createFixingStep (originalStep : Step) (missingStep : string) : Step :=
  mkStep (Some ("fix-" ++ default "undefined" (s_id originalStep)))
         missingStep
         (Some (default [] (s_dependencies originalStep)))
         None false.

(** [logTaskExecution(plan, taskId)] only writes to the log, but it calls
    [getTaskStatus], which can throw. *)
Definition logTaskExecution (taskId : string) : M unit :=
  w ← get;
  match tasks w !! taskId with
  | None => mret tt
  | Some task =>
      if negb (truthyEntry task) then mret tt
      else getTaskStatus;; mret tt
  end.

(** [plan.steps.splice(index, 0, step)] *)
Definition splice {A} (index : nat) (x : A) (l : list A) : list A :=
  (take index l ++ x :: drop index l)%list.

(** The plan returned once a step has run: the cursor moves on and
    [completed] tells whether it passed the last step. *)
Definition advance (plan : Plan) (newResults : list ResultEntry)
    (successful skipped alternative : bool) (error : option string) : Plan :=
  mkPlan (query plan) (steps plan) (S (currentStepIndex plan)) newResults
         (length (steps plan) <=? S (currentStepIndex plan))%nat
         (Some successful)
         (skipped || skippedStep plan)
         (alternative || usedAlternative plan)
         (match error with Some e => Some e | None => planError plan end)
         (startTime plan).

(** The [switch (currentStep.type)] of the [try] block. *)
Definition dispatch (currentStep : Step) (plan : Plan) (context : Context) : M Result :=
  let ty := s_type currentStep in
  if decide (ty = "MEMORY_CHECK") then executeMemoryCheck
  else if decide (ty = "INTENT_CLASSIFICATION") then executeIntentClassification
  else if decide (ty = "TOOL_SELECTION") then
    prioritizeTools currentStep context;; executeToolSelection
  else if decide (ty = "INFORMATION_GATHERING") then executeInformationGathering
  else if decide (ty = "SYNTHESIS") then executeSynthesis (query plan) (planResults plan)
  else if decide (ty = "VERIFICATION") then executeVerification (planResults plan)
  else mret (failure ("Unknown step type: " ++ ty)).

(** The [switch (alternative.approach)] of the retry. *)
Definition dispatchAlternative (name : string) : M Result :=
  if decide (name = "WEB_SEARCH") then executeToolWithName "WEB_SEARCH"
  else if decide (name = "READ_URL") then executeToolWithName "READ_URL"
  else if decide (name = "REASONING_TOOL") then executeToolWithName "REASONING_TOOL"
  else if decide (name = "SINGLE_URL_PROCESSING") then executeSingleUrlProcessing
  else if decide (name = "DIRECT_SYNTHESIS") then executeDirectSynthesis
  else mret (failure ("Unknown alternative approach: " ++ name)).

(** The [catch (error)] block of [executeNextStep]. *)
Definition recover (currentStep : Step) (taskId : string) (plan : Plan)
    (context : Context) (error : Thrown) : M Plan :=
  recordFailure taskId (s_type currentStep) error;;
  alternative ← liftRes (suggestAlternativeApproach taskId context);
  retried ←
    match alternative with
    | Some alt =>
        if bool_decide (approach alt ≠ "ASK_CLARIFICATION") then
          tryCatch
            (retryResult ← dispatchAlternative (approach alt);
             recordSuccess taskId retryResult;;
             mret (Some (advance plan
                     (planResults plan ++
                        [mkResultEntry currentStep retryResult (Some (approach alt))])%list
                     true false true None)))
            (fun retryError =>
               recordFailure taskId (approach alt) retryError;; mret None)
        else mret None
    | None => mret None
    end;
  match retried with
  | Some plan' => mret plan'
  | None =>
      if s_optional currentStep then
        updateTaskState taskId SKIPPED;;
        mret (advance plan (planResults plan) false true false None)
      else
        mret (advance plan (planResults plan) false false false
                      (Some (message error)))
  end.

(** [executeNextStep(plan, context)].  A call recurses only after inserting
    a fixing step, whose type is the one its successor misses; [fuel] bounds
    that chain, and [None] is returned only when it runs out. *)
Fixpoint executeNextStep (fuel : nat) (plan : Plan) (context : Context)
  : M (option Plan) :=
  match fuel with
  | O => mret None
  | S fuel' =>
      match steps plan !! currentStepIndex plan with
      | None =>
          mret (Some (mkPlan (query plan) (steps plan) (currentStepIndex plan)
                             (planResults plan) true (lastStepSuccessful plan)
                             (skippedStep plan) (usedAlternative plan)
                             (planError plan) (startTime plan)))
      | Some currentStep =>
          let taskId := stepTaskId currentStep (currentStepIndex plan) in
          logTaskExecution taskId;;
          match validateStepInputs currentStep plan with
          | Invalid true missingStep =>
              let fixStep := createFixingStep currentStep missingStep in
              let plan' :=
                mkPlan (query plan)
                       (splice (currentStepIndex plan) fixStep (steps plan))
                       (currentStepIndex plan) (planResults plan) (completed plan)
                       (lastStepSuccessful plan) (skippedStep plan)
                       (usedAlternative plan) (planError plan) (startTime plan) in
              initializePlan (steps plan');;
              executeNextStep fuel' plan' context
          | Invalid false _ =>
              updateTaskState taskId SKIPPED;;
              mret (Some (mkPlan (query plan) (steps plan)
                                 (S (currentStepIndex plan)) (planResults plan)
                                 (completed plan) (Some false) true
                                 (usedAlternative plan) (planError plan) (startTime plan)))
          | Valid =>
              Some <$>
              tryCatch
                (updateTaskState taskId IN_PROGRESS;;
                 stepResult ← dispatch currentStep plan context;
                 recordSuccess taskId stepResult;;
                 mret (advance plan
                         (planResults plan ++
                            [mkResultEntry currentStep stepResult None])%list
                         true false false None))
                (recover currentStep taskId plan context)
          end
      end
  end.

(** The driver's loop: [n] successive calls of [executeNextStep], each on the
    plan the previous one returned.  The chain of fixing steps is at most
    three long, so four units of fuel serve every call. *)
Fixpoint runSteps (n : nat) (plan : Plan) (context : Context) : M (option Plan) :=
  match n with
  | O => mret (Some plan)
  | S n' =>
      r ← executeNextStep 4 plan context;
      match r with
      | Some plan' => runSteps n' plan' context
      | None => mret None
      end
  end.

End Engine.

(* ===================================================================== *)
(** * Sequences of State Manager operations                               *)
(* ===================================================================== *)

(** The operations a client of the State Manager can perform. *)
Inductive Op :=
  | InitializePlan (planSteps : list Step)
  | UpdateTaskState (taskId : string) (newState : TaskState)
  | RecordSuccess (taskId : string) (r : Result)
  | RecordFailure (taskId approach : string) (error : Thrown)
  | CreateCheckpoint (name : string)
  | RestoreCheckpoint (name : string).

Definition perform (clock : nat -> Z) (op : Op) : M unit :=
  match op with
  | InitializePlan planSteps => initializePlan clock planSteps
  | UpdateTaskState taskId newState => updateTaskState clock taskId newState;; mret tt
  | RecordSuccess taskId r => recordSuccess clock taskId r;; mret tt
  | RecordFailure taskId a error => recordFailure clock taskId a error;; mret tt
  | CreateCheckpoint name => createCheckpoint clock name
  | RestoreCheckpoint name => restoreCheckpoint name;; mret tt
  end.

(** The world after an operation, whether it returned or threw. *)
Definition after (clock : nat -> Z) (op : Op) (w : World) : World :=
  (perform clock op w).2.

Definition runOps (clock : nat -> Z) (ops : list Op) (w : World) : World :=
  foldl (fun w op => after clock op w) w ops.

(** Operations whose last action is [createCheckpoint]. *)
Definition checkpointing (op : Op) : bool :=
  match op with
  | UpdateTaskState _ _ | RestoreCheckpoint _ => false
  | _ => true
  end.

(** The name under which an operation creates its checkpoint. *)
Definition checkpointName (op : Op) : option string :=
  match op with
  | InitializePlan _ => Some "plan_initialized"
  | RecordSuccess taskId _ => Some ("task_" ++ taskId ++ "_completed")
  | RecordFailure taskId _ _ => Some ("task_" ++ taskId ++ "_failed")
  | CreateCheckpoint name => Some name
  | UpdateTaskState _ _ | RestoreCheckpoint _ => None
  end.

(** What a checkpoint created under [name] at [timestamp] records of the
    manager [w]: the state of every task, the results and the approaches. *)
Definition recorded (name : string) (timestamp : Z) (w : World) : Checkpoint :=
  {| cp_name := name;
     cp_timestamp := timestamp;
     taskStates := omap stateOf (tasks w);
     resultsSnapshot := results w;
     approachesSnapshot := approaches w |}.

(** The checkpoint an operation created, told without looking at the
    buffer.  An operation that creates a checkpoint does so as its last
    action, which reads the clock and touches neither tasks, results nor
    approaches: when the operation returns, the checkpoint it created
    carries its name, the last reading of the clock, and the manager as the
    operation left it.  An operation that throws has created none. *)
Definition createdByOp (clock : nat -> Z) (op : Op) (w : World) : list Checkpoint :=
  let rw := perform clock op w in
  match checkpointName op, rw.1 with
  | Some name, Ok _ => [recorded name (clock (pred (ticks rw.2))) rw.2]
  | _, _ => []
  end.

(** The checkpoints created along a sequence of operations, in creation
    order. *)
Fixpoint createdBy (clock : nat -> Z) (ops : list Op) (w : World) : list Checkpoint :=
  match ops with
  | [] => []
  | op :: ops' =>
      (createdByOp clock op w ++ createdBy clock ops' (after clock op w))%list
  end.

(** The [n] last elements of a list. *)
Definition lastN {A} (n : nat) (l : list A) : list A := drop (length l - n) l.

(** The array address [recordFailure] pushes to, and the store once the
    address exists. *)
Definition historyLoc (w : World) (taskId : string) : loc :=
  default (fresh (dom (heap w))) (approaches w !! taskId).

Definition withHistory (taskId : string) (w : World) : World :=
  match approaches w !! taskId with
  | Some _ => w
  | None =>
      let l := fresh (dom (heap w)) in
      mkWorld (tasks w) (results w) (<[taskId := l]> (approaches w))
              (checkpoints w) (<[l := []]> (heap w)) (ticks w) (calls w)
  end.

(** The world [restoreCheckpoint] leaves when it finds [checkpoint]: the three
    live maps are replaced by the checkpoint's, the task map now holding the
    bare state values. *)
Definition restoredFrom (checkpoint : Checkpoint) (w : World) : World :=
  mkWorld (EPrim <$> taskStates checkpoint) (resultsSnapshot checkpoint)
          (approachesSnapshot checkpoint) (checkpoints w) (heap w)
          (ticks w) (calls w).

(* ===================================================================== *)
(** * Scenarios                                                           *)
(* ===================================================================== *)

(** A clock that advances by one millisecond per reading. *)
Definition exampleClock (n : nat) : Z := 1700000000000 + Z.of_nat n.

Definition exampleStep : Step :=
  mkStep (Some "t1") "TOOL_SELECTION" (Some []) (Some 1) false.

(** A manager whose single task failed twice: its buffer holds
    plan_initialized and two checkpoints named task_t1_failed. *)
Definition twiceFailed : World :=
  runOps exampleClock
    [InitializePlan [exampleStep];
     RecordFailure "t1" "TOOL_SELECTION" (mkThrown "request timed out");
     RecordFailure "t1" "WEB_SEARCH" (mkThrown "request timed out")]
    newManager.

(** A manager with the single task [exampleStep] registered. *)
Definition plannedOnce : World :=
  runOps exampleClock [InitializePlan [exampleStep]] newManager.

(** The same task after three failures under three labels. *)
Definition thriceFailed : World :=
  runOps exampleClock
    [RecordFailure "t1" "TOOL_SELECTION" (mkThrown "request timed out");
     RecordFailure "t1" "WEB_SEARCH" (mkThrown "request timed out");
     RecordFailure "t1" "READ_URL" (mkThrown "request timed out")]
    plannedOnce.

Definition exampleContext : Context := mkContext (Some "compare the two libraries").

(** The plan [planQueryExecution] returns for an outcome of the decomposer. *)
Definition startPlan (clock : nat -> Z) (userQuery : string) (d : Resolver.Decomposition)
  : Res Plan * World :=
  match planQueryExecution clock userQuery d newManager with
  | (Ok (Some plan), w) => (Ok plan, w)
  | (Ok None, w) => (Throw (mkThrown "decomposition did not return"), w)
  | (Throw e, w) => (Throw e, w)
  end.

(** [n] calls of [executeNextStep] on that plan. *)
Definition runPlan (clock : nat -> Z) (collab : nat -> Call -> Res Result)
    (userQuery : string) (d : Resolver.Decomposition) (context : Context) (n : nat)
  : Res (option Plan) * World :=
  match startPlan clock userQuery d with
  | (Ok plan, w) => runSteps clock collab n plan context w
  | (Throw e, w) => (Throw e, w)
  end.

(** The state the State Manager holds for a task. *)
Definition stateOfTask (w : World) (taskId : string) : option StateVal :=
  tasks w !! taskId ≫= stateOf.

(** Collaborators that always answer, and collaborators that are down. *)
Definition alwaysAnswers (n : nat) (c : Call) : Res Result :=
  Ok (mkResult true (Some "answer") None None None).

Definition alwaysDown (n : nat) (c : Call) : Res Result :=
  Throw (mkThrown "service unavailable").

(** The decomposition of the specification's scenario: one SYNTHESIS task. *)
Definition synthesisOnly : Resolver.Decomposition :=
  Resolver.Parsed [mkTask "t1" "SYNTHESIS" [] 3 false].

(** The world with its count of collaborator calls set to [n]. *)
Definition withCalls (n : nat) (w : World) : World :=
  mkWorld (tasks w) (results w) (approaches w) (checkpoints w) (heap w) (ticks w) n.

(** Every collaborator call returns, with a truthy [success] and a
    non-empty [response]. *)
Definition allSucceed (collab : nat -> Call -> Res Result) : Prop :=
  forall n c, exists r,
    collab n c = Ok r /\ r_success r = true /\ truthyResponse r = true.

(** The outcome the specification's scenario describes for the plan built
    when decomposition fails: some run of [executeNextStep] calls ends with
    the plan completed, [k] result entries whose types are the first [k] of
    the canonical order, and a status of [k] completed, none failed, none
    pending. *)
Definition defaultPlanOutcome (clock : nat -> Z) (collab : nat -> Call -> Res Result)
    (context : Context) (k : nat) : Prop :=
  exists n plan w status,
    runPlan clock collab "q" Resolver.NoTasks context n = (Ok (Some plan), w) /\
    completed plan = true /\
    map (fun e => s_type (e_step e)) (planResults plan) = take k Resolver.typeOrder /\
    length (planResults plan) = k /\
    (getTaskStatus w).1 = Ok status /\
    st_completed status = k /\ st_failed status = O /\ st_pending status = O.

(* ===================================================================== *)
(** * The advisor as the specification words it                           *)
(* ===================================================================== *)



(** The two known failure signatures, over the recorded error messages. *)
Definition matchesUrlSignature (msgs : list string) : bool :=
  existsb (fun e => includes e "Invalid URL" || includes e "undefined") msgs.

Definition matchesParameterSignature (msgs : list string) : bool :=
  existsb (fun e => includes e "Missing required parameter" || includes e "parameter") msgs
  && existsb (fun e => includes e "problem") msgs.

(** The states [updateStates] writes one after the other to one task. *)
Definition updateStates (clock : nat -> Z) (taskId : string)
    (states : list TaskState) (w : World) : World :=
  runOps clock (map (UpdateTaskState taskId) states) w.

(** The task object registered under an id. *)
Definition taskObject (w : World) (taskId : string) : option TaskRec :=
  match tasks w !! taskId with
  | Some (EObj r) => Some r
  | _ => None
  end.

(** The entries of [this.tasks] that are bare state strings: they count in
    [total] but in none of the five states. *)
Definition bareEntries (w : World) : nat :=
  size (filter (fun kv => stateOf kv.2 = Some SUndefined) (tasks w)).

(** The task of [plannedOnce] once started and completed. *)
Definition startedAndEnded : World :=
  updateStates exampleClock "t1" [IN_PROGRESS; COMPLETED] plannedOnce.

(** [plannedOnce] after a failure whose message names a bad URL, and after
    one whose message names the missing problem parameter. *)
Definition urlFailed : World :=
  runOps exampleClock [RecordFailure "t1" "READ_URL" (mkThrown "Invalid URL")]
         plannedOnce.

Definition parameterFailed : World :=
  runOps exampleClock
    [RecordFailure "t1" "REASONING_TOOL"
       (mkThrown "Missing required parameter: problem")]
    plannedOnce.

(** The manager of [plannedOnce] after a first failure of its task. *)
Definition onceFailed : World :=
  runOps exampleClock
    [RecordFailure "t1" "TOOL_SELECTION" (mkThrown "request timed out")]
    plannedOnce.

(** The ids of a task list, as a set: the keys of the traversal's maps. *)
Definition idSet (tasks : list Task) : gset string := list_to_set (map t_id tasks).

(** What the traversal keeps true of [visited], [temp] and [result]. *)
Record DfsInv (tasks : list Task) (st : Resolver.Dfs) : Prop := mkDfsInv {
  inv_temp : Resolver.temp st ⊆ idSet tasks;
  inv_visited : Resolver.visited st ⊆ idSet tasks;
  inv_disjoint : Resolver.temp st ## Resolver.visited st;
  inv_nodup : NoDup (Resolver.result st);
  inv_result : forall x, x ∈ Resolver.result st <-> x ∈ Resolver.visited st
}.

(** The order the canonical sort establishes. *)
Definition byRank {A : Type} (rank : A -> nat) (a b : A) : Prop :=
  (rank a <= rank b)%nat.

(** The task [enforceLogicalDependencies] returns for [task]. *)
Definition enforcedTask (tasks : list Task) (task : Task) : Task :=
  mkTask (t_id task) (t_type task)
         (t_dependencies task ++ Resolver.injected tasks task)
         (t_priority task) (t_optional task).

(** How many fixing steps a step of a given type can still need in front:
    VERIFICATION misses SYNTHESIS, which misses INFORMATION_GATHERING, which
    misses TOOL_SELECTION, which misses nothing. *)
Definition fixNeed (ty : string) : nat :=
  if decide (ty = "VERIFICATION") then 3
  else if decide (ty = "SYNTHESIS") then 2
  else if decide (ty = "INFORMATION_GATHERING") then 1
  else 0.

(** What a call that ran the step at the cursor leaves of the plan: the
    cursor one further, the steps as they were, at most one more result, for
    that step, and [completed] telling whether the cursor passed the end. *)
Definition advancedFrom (plan plan' : Plan) (step : Step) : Prop :=
  currentStepIndex plan' = S (currentStepIndex plan) /\
  steps plan' = steps plan /\
  query plan' = query plan /\
  (planResults plan' = planResults plan \/
   exists r alt,
     planResults plan' = (planResults plan ++ [mkResultEntry step r alt])%list) /\
  completed plan' = (length (steps plan) <=? S (currentStepIndex plan))%nat.

(** A plan with a single VERIFICATION step, registered in a new manager. *)
Definition verificationAlone : Plan :=
  mkPlan "q" [mkStep (Some "t1") "VERIFICATION" (Some []) (Some 1) false]
         0 [] false None false false None 0.

Definition verificationAloneWorld : World :=
  (initializePlan exampleClock (steps verificationAlone) newManager).2.

(** The plan with [completed] set. *)
Definition markCompleted (plan : Plan) : Plan :=
  mkPlan (query plan) (steps plan) (currentStepIndex plan) (planResults plan)
         true (lastStepSuccessful plan) (skippedStep plan) (usedAlternative plan)
         (planError plan) (startTime plan).

(** The entries [initializePlan] and [updateTaskState] write are task
    objects; the errors [recordFailure] keeps are messages unless the error
    thrown had an empty one. *)
Definition isObject (e : Entry) : bool :=
  match e with EObj _ => true | EPrim _ => false end.

Definition isMessage (e : ErrVal) : bool :=
  match e with ErrMsg _ => true | ErrObj => false end.

(** A State Manager into which no checkpoint was restored and in which no
    error without a message was recorded. *)
Definition intact (w : World) : Prop :=
  map_Forall (fun _ e => isObject e = true) (tasks w) /\
  map_Forall (fun _ h => Forall (fun f => isMessage (f_error f) = true) h) (heap w).

(** Collaborators whose errors all carry a message. *)
Definition speaking (collab : nat -> Call -> Res Result) : Prop :=
  forall n c e, collab n c = Throw e -> truthy_str (message e) = true.


(** On an intact manager the computation returns, and leaves it intact. *)
Definition returns {A} (m : M A) : Prop :=
  forall w, intact w -> exists a w', m w = (Ok a, w') /\ intact w'.

(** On an intact manager the computation leaves it intact, and what it
    throws carries a message. *)
Definition throwsMessages {A} (m : M A) : Prop :=
  forall w, intact w ->
    intact (m w).2 /\
    match (m w).1 with
    | Throw e => truthy_str (message e) = true
    | Ok _ => True
    end.

(** The tasks [initializePlan] registers in a new manager: a pending task
    object under the id of every step. *)
Definition registered (planSteps : list Step) : gmap string Entry :=
  foldl (fun m '(index, step) =>
           let taskId := stepTaskId step index in
           <[taskId := EObj (mkTaskRec (Some step) (Some taskId) PENDING
                                       None None None)]> m)
        ∅ (imap pair planSteps).

(** The plan built when decomposition fails, and the manager it comes with. *)
Definition defaultPlan : Plan :=
  mkPlan "q" (planSteps Resolver.getDefaultTasks) O [] false None false false None
         (exampleClock 0).

Definition defaultPlanWorld : World :=
  (planFromTasks exampleClock "q" Resolver.getDefaultTasks newManager).2.

(** Collaborators that are all down: every call throws, with a message. *)
Definition allDown (collab : nat -> Call -> Res Result) : Prop :=
  forall n c, exists e, collab n c = Throw e /\ truthy_str (message e) = true.

(** The step types [validateStepInputs] checks the earlier results for. *)
Definition needsInput (ty : string) : bool :=
  bool_decide (ty ∈ ["INFORMATION_GATHERING"; "SYNTHESIS"; "VERIFICATION"]).

(** A step of such a type lies at or after the cursor. *)
Definition awaitsInput (plan : Plan) : Prop :=
  exists j step,
    (currentStepIndex plan <= j)%nat /\ steps plan !! j = Some step /\
    needsInput (s_type step) = true.

(** Every result so far is a failure object, [{ success: false, error }]. *)
Definition allFailed (previous : list ResultEntry) : Prop :=
  Forall (fun e => exists msg, e_result e = failure msg) previous.

(** What a missing successful result of a type costs the executor at most:
    the fixing steps it will have to insert and run. *)
Definition weight (ty : string) : nat :=
  if decide (ty = "TOOL_SELECTION") then 3
  else if decide (ty = "INFORMATION_GATHERING") then 2
  else if decide (ty = "SYNTHESIS") then 1
  else 0.

Definition owed (previous : list ResultEntry) (ty : string) : nat :=
  if hasSuccessful ty previous then 0 else weight ty.

(** A bound on the calls a plan still needs when every step succeeds: the
    steps from the cursor on, and what is owed for the three types a later
    step may miss. *)
Definition potential (plan : Plan) : nat :=
  length (steps plan) - currentStepIndex plan
  + owed (planResults plan) "TOOL_SELECTION"
  + owed (planResults plan) "INFORMATION_GATHERING"
  + owed (planResults plan) "SYNTHESIS".

(** The step type whose successful result [validateStepInputs] requires
    before a step of a type. *)
Definition prerequisite (ty : string) : option string :=
  if decide (ty = "SYNTHESIS") then Some "INFORMATION_GATHERING"
  else if decide (ty = "VERIFICATION") then Some "SYNTHESIS"
  else if decide (ty = "INFORMATION_GATHERING") then Some "TOOL_SELECTION"
  else None.

(** Every step from the cursor on finds what it requires: a successful result
    among those the plan has, or a step of the required type between the
    cursor and itself. *)
Definition supplied (plan : Plan) : Prop :=
  forall i step missing,
    (currentStepIndex plan <= i)%nat ->
    steps plan !! i = Some step ->
    prerequisite (s_type step) = Some missing ->
    hasSuccessful missing (planResults plan) = true \/
    exists j step',
      (currentStepIndex plan <= j < i)%nat /\ steps plan !! j = Some step' /\
      s_type step' = missing.

(** The task object of a completed task is registered under the id. *)
Definition completedTask (w : World) (taskId : string) : Prop :=
  exists o, tasks w !! taskId = Some (EObj o) /\ k_state o = COMPLETED.

(** A manager with one registered MEMORY_CHECK task, and collaborators that
    throw an error without a message. *)
Definition memoryStep : Step :=
  mkStep (Some "t1") "MEMORY_CHECK" (Some []) (Some 1) false.

Definition memoryAlone : Plan :=
  mkPlan "q" [memoryStep] 0 [] false None false false None 0.

Definition memoryAloneWorld : World :=
  (initializePlan exampleClock (steps memoryAlone) newManager).2.

Definition throwsNothing (n : nat) (c : Call) : Res Result := Throw (mkThrown "").





(** The dependencies the traversal follows from an id: [graph.get(taskId) || []]. *)
Definition depsOf (tasks : list Task) (taskId : string) : list string :=
  default [] (Resolver.graph tasks !! taskId).

(** Every id of the list stands after the known ids it depends on. *)
Definition depsFirst (tasks : list Task) (l : list string) : Prop :=
  forall p a b,
    l !! p = Some a -> b ∈ depsOf tasks a -> is_Some (Resolver.indexMap tasks !! b) ->
    exists q, (q < p)%nat /\ l !! q = Some b.

(* --------------------------------------------------------------------- *)
(** ** The advisor's claim for information gathering                      *)
(* --------------------------------------------------------------------- *)






(* ===================================================================== *)
(** * Properties                                                          *)
(* ===================================================================== *)

Ltac munfold :=
  unfold mbind, M_bind, mret, M_ret, fmap, M_fmap, bind, ret, throw, get,
         modify, liftRes, tryCatch in *.

Section Checkpoints.

Variable clock : nat -> Z.

(** What [createCheckpoint] does to the world. *)
Lemma createCheckpoint_spec name w :
  let rw := createCheckpoint clock name w in
  tasks rw.2 = tasks w /\ results rw.2 = results w /\
  approaches rw.2 = approaches w /\ heap rw.2 = heap w /\
  calls rw.2 = calls w /\ ticks rw.2 = S (ticks w) /\
  ((rw.1 = Ok tt /\
    map_Forall (fun _ e => is_Some (stateOf e)) (tasks w) /\
    checkpoints rw.2 = pushEvict (checkpoints w) (snapshot name (clock (ticks w)) w))
   \/ ((exists e, rw.1 = Throw e) /\
       ~ map_Forall (fun _ e => is_Some (stateOf e)) (tasks w) /\
       checkpoints rw.2 = checkpoints w)).
Proof.
  unfold createCheckpoint, now, setCheckpoints. munfold. simpl.
  case_bool_decide as Hall; simpl; repeat split; auto.
  right. eauto.
Qed.

End Checkpoints.

(** Case analysis on the [createCheckpoint] call of the goal: it pushed
    (hypothesis [Hcp] gives the new buffer) or it threw. *)
Ltac cp_cases :=
  match goal with
  | |- context [createCheckpoint ?clock ?n ?v] =>
      let Hs := fresh "Hs" in
      pose proof (createCheckpoint_spec clock n v) as Hs;
      destruct (createCheckpoint clock n v) as [?res ?w'];
      simpl in Hs;
      destruct Hs as (Htk & Hrs & Hap & Hhp & Hcl & Hti &
                      [(-> & Hall & Hcp) | ([?e ->] & Hall & Hcp)])
  end.

Section StateManager.

Variable clock : nat -> Z.

Lemma pushEvict_last cps cp : last (pushEvict cps cp) = Some cp.
Proof.
  unfold pushEvict. simpl. case_match.
  - destruct cps as [|c cps]; simpl in *; [discriminate|].
    apply last_snoc.
  - apply last_snoc.
Qed.

Lemma pushEvict_lastN log cp :
  pushEvict (lastN 10 log) cp = lastN 10 (log ++ [cp]).
Proof.
  unfold pushEvict, lastN. simpl.
  rewrite !length_app, length_drop. simpl.
  destruct (decide (length log < 10)%nat) as [Hlt|Hge].
  - replace (length log - 10)%nat with O by lia.
    replace (length log + 1 - 10)%nat with O by lia.
    rewrite !drop_0. case_match eqn:E; [|done].
    apply Nat.ltb_lt in E. lia.
  - case_match eqn:E.
    + replace (length log + 1 - 10)%nat with (S (length log - 10)) by lia.
      rewrite drop_app_le by lia.
      destruct (drop (length log - 10) log) as [|c rest] eqn:Hd.
      * apply (f_equal length) in Hd. rewrite length_drop in Hd. simpl in Hd. lia.
      * simpl.
        replace (S (length log - 10)) with ((length log - 10) + 1)%nat by lia.
        rewrite <- drop_drop, Hd. reflexivity.
    + apply Nat.ltb_ge in E. lia.
Qed.

(** What [updateTaskState] does to the world: it never throws, touches
    only [tasks] and the clock, and writes at most the entry of [taskId]. *)
Lemma updateTaskState_spec taskId s w :
  let rw := updateTaskState clock taskId s w in
  (exists b, rw.1 = Ok b) /\ results rw.2 = results w /\
  approaches rw.2 = approaches w /\ checkpoints rw.2 = checkpoints w /\
  heap rw.2 = heap w /\ calls rw.2 = calls w /\
  (tasks rw.2 = tasks w \/
   exists e r, tasks w !! taskId = Some e /\ truthyEntry e = true /\
               k_state r = s /\
               k_step r = match e with EObj o => k_step o | EPrim _ => None end /\
               tasks rw.2 = <[taskId := EObj r]> (tasks w)).
Proof.
  unfold updateTaskState, now, setTasks. munfold. simpl.
  destruct (tasks w !! taskId) as [e|] eqn:He; simpl; [|by eauto 10].
  destruct (truthyEntry e) eqn:Ht; simpl; [|by eauto 10].
  repeat match goal with
         | |- context [if ?b then _ else _] => destruct b; simpl
         end;
    (split; [eauto|]; repeat (split; [reflexivity|]); right;
     eexists e, _; repeat split; try reflexivity; try assumption;
     destruct e; reflexivity).
Qed.

Lemma updateTaskState_ok taskId s w :
  exists b, updateTaskState clock taskId s w
            = (Ok b, (updateTaskState clock taskId s w).2).
Proof.
  destruct (updateTaskState_spec taskId s w) as [[b Hb] _].
  exists b. destruct (updateTaskState clock taskId s w); simpl in *; congruence.
Qed.

(** [recordSuccess] is [updateTaskState], then the write to [results], then
    [createCheckpoint]. *)
Lemma recordSuccess_unfold taskId r w :
  let w1 := (updateTaskState clock taskId COMPLETED w).2 in
  let w2 := (setResults (insert taskId r) w1).2 in
  let rw := createCheckpoint clock ("task_" ++ taskId ++ "_completed") w2 in
  recordSuccess clock taskId r w
  = (match rw.1 with Ok _ => Ok true | Throw e => Throw e end, rw.2).
Proof.
  unfold recordSuccess. munfold.
  destruct (updateTaskState_ok taskId COMPLETED w) as [b ->]. simpl.
  destruct (createCheckpoint clock _ _) as [[[]|e] w3]; reflexivity.
Qed.

(** [recordFailure] is [updateTaskState], then the push onto the task's
    failure array (created first when the task has none), then
    [createCheckpoint]. *)
Lemma recordFailure_unfold taskId a error w :
  let w1 := (updateTaskState clock taskId FAILED w).2 in
  let l := historyLoc w1 taskId in
  let w2 := withHistory taskId w1 in
  let w3 := (now clock w2).2 in
  let w4 := (setHeap (heapPush l (mkFailure a (errorValue error) (clock (ticks w2)))) w3).2 in
  let rw := createCheckpoint clock ("task_" ++ taskId ++ "_failed") w4 in
  recordFailure clock taskId a error w
  = (match rw.1 with Ok _ => Ok true | Throw e => Throw e end, rw.2).
Proof.
  unfold recordFailure. munfold.
  destruct (updateTaskState_ok taskId FAILED w) as [b ->]. simpl.
  unfold historyLoc, withHistory, setHeap, setApproaches, now. munfold.
  destruct (approaches _ !! taskId) as [l|] eqn:Hl; simpl;
    destruct (createCheckpoint clock _ _) as [[[]|e] w5]; reflexivity.
Qed.

Lemma initializePlan_unfold planSteps w :
  initializePlan clock planSteps w
  = createCheckpoint clock "plan_initialized"
      (setTasks (fun ts =>
         foldl (fun m '(index, step) =>
                  let taskId := stepTaskId step index in
                  <[taskId := EObj (mkTaskRec (Some step) (Some taskId) PENDING
                                              None None None)]> m)
               ts (imap pair planSteps)) w).2.
Proof. reflexivity. Qed.

Lemma restoreCheckpoint_checkpoints name w :
  checkpoints (restoreCheckpoint name w).2 = checkpoints w.
Proof.
  unfold restoreCheckpoint, setTasks, setResults, setApproaches. munfold. simpl.
  destruct (List.find _ _); reflexivity.
Qed.

(** The buffer after an operation: the buffer before, with the checkpoint
    the operation created (if any) pushed and the oldest one evicted once
    there are more than ten. *)
Lemma perform_checkpoints op w :
  checkpoints (after clock op w)
  = foldl pushEvict (checkpoints w) (createdByOp clock op w).
Proof.
  unfold after, createdByOp.
  destruct op as [ps|taskId s|taskId r|taskId a error|name|name];
    cbn [checkpointName perform].
  - rewrite initializePlan_unfold. cp_cases; cbn [fst snd foldl]; rewrite Hcp;
      [|done]. unfold recorded, snapshot. rewrite Htk, Hrs, Hap, Hti. done.
  - munfold. destruct (updateTaskState_ok taskId s w) as [b ->]. simpl.
    by destruct (updateTaskState_spec taskId s w) as (_&_&_&->&_).
  - munfold. rewrite recordSuccess_unfold. cbv zeta.
    destruct (updateTaskState_spec taskId COMPLETED w) as (_&_&_&Hw&_).
    cp_cases; cbn [fst snd foldl]; rewrite Hcp; simpl; rewrite Hw; [|done].
    unfold recorded, snapshot. rewrite Htk, Hrs, Hap, Hti. done.
  - munfold. rewrite recordFailure_unfold. cbv zeta.
    assert (checkpoints (withHistory taskId (updateTaskState clock taskId FAILED w).2)
            = checkpoints w) as Hw.
    { unfold withHistory. destruct (approaches _ !! taskId); simpl;
        by destruct (updateTaskState_spec taskId FAILED w) as (_&_&_&->&_). }
    cp_cases; cbn [fst snd foldl]; rewrite Hcp; simpl; rewrite Hw; [|done].
    unfold recorded, snapshot. rewrite Htk, Hrs, Hap, Hti. done.
  - cp_cases; cbn [fst snd foldl]; rewrite Hcp; [|done].
    unfold recorded, snapshot. rewrite Htk, Hrs, Hap, Hti. done.
  - munfold. pose proof (restoreCheckpoint_checkpoints name w) as H.
    destruct (restoreCheckpoint name w) as [[b|e] w']; simpl in *; done.
Qed.

Lemma foldl_pushEvict_lastN log new :
  foldl pushEvict (lastN 10 log) new = lastN 10 (log ++ new).
Proof.
  revert log. induction new as [|cp new IH]; intros log; simpl.
  - by rewrite app_nil_r.
  - rewrite pushEvict_lastN, IH, <- app_assoc. reflexivity.
Qed.

Lemma runOps_checkpoints ops : forall w log,
  checkpoints w = lastN 10 log ->
  checkpoints (runOps clock ops w) = lastN 10 (log ++ createdBy clock ops w).
Proof.
  induction ops as [|op ops IH]; intros w log Hw; simpl.
  - by rewrite app_nil_r.
  - rewrite app_assoc. apply IH.
    rewrite perform_checkpoints, Hw. apply foldl_pushEvict_lastN.
Qed.

Lemma lastN_length {A} n (l : list A) : (length (lastN n l) <= n)%nat.
Proof. unfold lastN. rewrite length_drop. lia. Qed.

End StateManager.

(** C4. Whatever operations are performed on a new State Manager, its
    checkpoint buffer holds at most 10 checkpoints, and these are the last 10
    of the checkpoints created so far, in creation order: once an 11th is
    created the oldest is gone.  The checkpoints created are told from the
    operations ([createdBy]): one for every operation that creates a
    checkpoint and returns, with its name, its time and the manager's tasks,
    results and approaches at that time. *)
Theorem checkpoint_buffer_holds_last_ten (clock : nat -> Z) (ops : list Op) :
  let w := runOps clock ops newManager in
  (length (checkpoints w) <= 10)%nat /\
  checkpoints w = lastN 10 (createdBy clock ops newManager).
Proof.
  assert (checkpoints (runOps clock ops newManager)
          = lastN 10 (createdBy clock ops newManager)) as H.
  { apply (runOps_checkpoints clock ops newManager []). reflexivity. }
  simpl. rewrite H. split; [apply lastN_length|reflexivity].
Qed.

(** Eleven checkpoints on a new manager: all eleven were created, and the
    buffer holds the last ten, in creation order. *)
Example eleven_checkpoints :
  let ops := map CreateCheckpoint
                 ["c1"; "c2"; "c3"; "c4"; "c5"; "c6"; "c7"; "c8"; "c9"; "c10"; "c11"] in
  map cp_name (createdBy exampleClock ops newManager)
  = ["c1"; "c2"; "c3"; "c4"; "c5"; "c6"; "c7"; "c8"; "c9"; "c10"; "c11"] /\
  map cp_name (checkpoints (runOps exampleClock ops newManager))
  = ["c2"; "c3"; "c4"; "c5"; "c6"; "c7"; "c8"; "c9"; "c10"; "c11"] /\
  map cp_timestamp (checkpoints (runOps exampleClock ops newManager))
  = map exampleClock (seq 1 10).
Proof. vm_compute. repeat split. Qed.

Lemma find_first_named name before cp rest :
  cp_name cp = name ->
  Forall (fun c => cp_name c <> name) before ->
  List.find (fun c => bool_decide (cp_name c = name)) (before ++ cp :: rest) = Some cp.
Proof.
  intros Hcp Hbefore. induction Hbefore as [|c before Hc _ IH]; simpl.
  - by rewrite bool_decide_eq_true_2.
  - by rewrite bool_decide_eq_false_2.
Qed.

Lemma find_none_named name cps :
  Forall (fun c => cp_name c <> name) cps ->
  List.find (fun c => bool_decide (cp_name c = name)) cps = None.
Proof.
  induction 1 as [|c cps Hc _ IH]; simpl; [done|].
  by rewrite bool_decide_eq_false_2.
Qed.

(** C10. [restoreCheckpoint(N)] returns false and changes nothing when no
    checkpoint of the buffer is named N; and when several are, it restores
    the first of them in the buffer, that is the earliest created, whatever
    checkpoints of that name follow it. *)
Theorem restoreCheckpoint_missing_or_earliest (w : World) (name : string) :
  (Forall (fun c => cp_name c <> name) (checkpoints w) ->
   restoreCheckpoint name w = (Ok false, w)) /\
  (forall before cp rest,
     checkpoints w = (before ++ cp :: rest)%list ->
     cp_name cp = name ->
     Forall (fun c => cp_name c <> name) before ->
     restoreCheckpoint name w = (Ok true, restoredFrom cp w)).
Proof.
  split.
  - intros Hnone. unfold restoreCheckpoint. munfold. simpl.
    by rewrite find_none_named.
  - intros before cp rest Hcps Hname Hbefore.
    unfold restoreCheckpoint, setTasks, setResults, setApproaches. munfold.
    simpl. rewrite Hcps, (find_first_named name before cp rest Hname Hbefore).
    simpl. unfold restoredFrom. by rewrite Hcps.
Qed.

Lemma restoreCheckpoint_missing_or_earliest_witness :
  restoreCheckpoint "task_t9_failed" twiceFailed = (Ok false, twiceFailed) /\
  match checkpoints twiceFailed with
  | [_; first; _] =>
      restoreCheckpoint "task_t1_failed" twiceFailed
      = (Ok true, restoredFrom first twiceFailed)
  | _ => False
  end.
Proof.
  split.
  - apply (proj1 (restoreCheckpoint_missing_or_earliest twiceFailed "task_t9_failed")).
    apply (bool_decide_unpack _). vm_compute. exact I.
  - pose proof (proj2 (restoreCheckpoint_missing_or_earliest twiceFailed
                         "task_t1_failed")) as H.
    remember (checkpoints twiceFailed) as cps eqn:E.
    vm_compute in E. subst cps.
    cbv beta iota. eapply (H [_] _ [_]); [reflexivity|reflexivity|].
    apply (bool_decide_unpack _). vm_compute. exact I.
Defined.

Section Advisor.

Variable clock : nat -> Z.

Lemma someError_messages p msgs :
  someError p (map ErrMsg msgs) = Ok (existsb p msgs).
Proof.
  induction msgs as [|m msgs IH]; simpl; [done|].
  destruct (p m); [done|apply IH].
Qed.


(** The world after an operation is the world its method call leaves. *)
Lemma after_discards op w :
  after clock op w
  = match op with
    | InitializePlan planSteps => (initializePlan clock planSteps w).2
    | UpdateTaskState taskId newState => (updateTaskState clock taskId newState w).2
    | RecordSuccess taskId r => (recordSuccess clock taskId r w).2
    | RecordFailure taskId a error => (recordFailure clock taskId a error w).2
    | CreateCheckpoint name => (createCheckpoint clock name w).2
    | RestoreCheckpoint name => (restoreCheckpoint name w).2
    end.
Proof.
  unfold after. destruct op; simpl; munfold; try reflexivity;
    match goal with |- context [match ?m with _ => _ end] =>
      destruct m as [[?|?] ?]; reflexivity
    end.
Qed.

Lemma withHistory_spec taskId w :
  approaches (withHistory taskId w) !! taskId = Some (historyLoc w taskId) /\
  default [] (heap (withHistory taskId w) !! historyLoc w taskId)
  = default [] (failureHistory w taskId) /\
  tasks (withHistory taskId w) = tasks w.
Proof.
  unfold withHistory, historyLoc, failureHistory.
  destruct (approaches w !! taskId) as [l|] eqn:Hl; simpl.
  - by rewrite Hl.
  - by rewrite !lookup_insert_eq.
Qed.

(** [recordFailure] appends one record, bearing the approach label, to the
    task's failure history, and leaves a registered task registered, with
    its type. *)
Lemma recordFailure_history taskId a err w :
  let w' := after clock (RecordFailure taskId a err) w in
  (exists f, f_approach f = a /\
             failureHistory w' taskId
             = Some (default [] (failureHistory w taskId) ++ [f])%list) /\
  (forall e, tasks w !! taskId = Some e -> truthyEntry e = true ->
     exists e', tasks w' !! taskId = Some e' /\ truthyEntry e' = true /\
                typeOfEntry e' = typeOfEntry e).
Proof.
  rewrite after_discards, recordFailure_unfold. cbv zeta. simpl.
  destruct (updateTaskState_spec clock taskId FAILED w)
    as (_ & _ & Hua & _ & Huh & _ & Hut).
  set (w1 := (updateTaskState clock taskId FAILED w).2) in *.
  destruct (withHistory_spec taskId w1) as (Hwa & Hwh & Hwt).
  assert (failureHistory w1 taskId = failureHistory w taskId) as Hfh.
  { unfold failureHistory. by rewrite Hua, Huh. }
  set (w2 := withHistory taskId w1) in *.
  set (l := historyLoc w1 taskId) in *.
  match goal with |- context [createCheckpoint clock ?n ?v] =>
    pose proof (createCheckpoint_spec clock n v) as Hs;
    destruct (createCheckpoint clock n v) as [res w5]
  end.
  simpl in Hs. destruct Hs as (Htk & _ & Hap & Hhp & _).
  simpl. split.
  - exists (mkFailure a (errorValue err) (clock (ticks w2))).
    split; [reflexivity|].
    unfold failureHistory. rewrite Hap, Hwa. simpl. rewrite Hhp.
    unfold heapPush. rewrite lookup_insert_eq, Hwh, Hfh. reflexivity.
  - intros e He Ht. rewrite Htk, Hwt.
    destruct Hut as [->|(e1 & r & He1 & _ & _ & Hstep & ->)]; [by eauto|].
    rewrite lookup_insert_eq. eexists. repeat split.
    simpl. rewrite Hstep.
    assert (e1 = e) as -> by congruence. by destruct e.
Qed.

Lemma distinct_le_length (l : list string) :
  (length (remove_dups l) <= length l)%nat.
Proof.
  apply submseteq_length, NoDup_submseteq; [apply NoDup_remove_dups|].
  intros x. by rewrite elem_of_remove_dups.
Qed.

Lemma three_distinct (a1 a2 a3 : string) (l : list string) :
  a1 <> a2 -> a1 <> a3 -> a2 <> a3 ->
  a1 ∈ l -> a2 ∈ l -> a3 ∈ l ->
  (3 <= length (remove_dups l))%nat.
Proof.
  intros H12 H13 H23 H1 H2 H3.
  change 3%nat with (length [a1; a2; a3]).
  apply submseteq_length, NoDup_submseteq.
  - apply NoDup_cons. split; [|apply NoDup_cons; split; [|apply NoDup_singleton]].
    + rewrite elem_of_cons, list_elem_of_singleton. intros [?|?]; congruence.
    + rewrite list_elem_of_singleton. congruence.
  - intros x Hx. rewrite elem_of_remove_dups.
    rewrite !elem_of_cons in Hx.
    destruct Hx as [->|[->|[->|Hx]]]; try assumption.
    by apply not_elem_of_nil in Hx.
Qed.

(** With three or more failures recorded, the escalation is returned before
    any error text or task type is looked at. *)
Lemma escalation_first w taskId context e history :
  tasks w !! taskId = Some e -> truthyEntry e = true ->
  failureHistory w taskId = Some history ->
  (3 <= length history)%nat ->
  suggestAlternativeApproach taskId context w
  = Ok (Some (mkSuggestion "DIRECT_RESPONSE" (6 # 10) (Some "summary")
                           (Some (map f_approach history)))).
Proof.
  intros He Ht Hh Hlen. unfold suggestAlternativeApproach.
  rewrite He, Ht, Hh. simpl.
  destruct history as [|f1 [|f2 [|f3 history]]]; simpl in Hlen; try lia.
  reflexivity.
Qed.

End Advisor.

(** C7. A registered task whose failure history holds three or more distinct
    approach labels gets DIRECT_RESPONSE at confidence 0.6, whatever its type
    and whatever the recorded error texts; in particular a TOOL_SELECTION task
    gets it on the call that follows three failures recorded under distinct
    labels. *)
Theorem three_approaches_escalate (clock : nat -> Z) :
  (forall w taskId context e history,
     tasks w !! taskId = Some e -> truthyEntry e = true ->
     failureHistory w taskId = Some history ->
     (3 <= length (remove_dups (map f_approach history)))%nat ->
     suggestAlternativeApproach taskId context w
     = Ok (Some (mkSuggestion "DIRECT_RESPONSE" (6 # 10) (Some "summary")
                              (Some (map f_approach history))))) /\
  (forall w taskId context r step a1 a2 a3 e1 e2 e3,
     tasks w !! taskId = Some (EObj r) -> k_step r = Some step ->
     s_type step = "TOOL_SELECTION" ->
     a1 <> a2 -> a1 <> a3 -> a2 <> a3 ->
     exists s,
       suggestAlternativeApproach taskId context
         (runOps clock [RecordFailure taskId a1 e1; RecordFailure taskId a2 e2;
                        RecordFailure taskId a3 e3] w)
       = Ok (Some s) /\
       approach s = "DIRECT_RESPONSE" /\ confidence s = (6 # 10)%Q).
Proof.
  assert (forall w taskId context e history,
     tasks w !! taskId = Some e -> truthyEntry e = true ->
     failureHistory w taskId = Some history ->
     (3 <= length (remove_dups (map f_approach history)))%nat ->
     suggestAlternativeApproach taskId context w
     = Ok (Some (mkSuggestion "DIRECT_RESPONSE" (6 # 10) (Some "summary")
                              (Some (map f_approach history))))) as Hgeneral.
  { intros w taskId context e history He Ht Hh Hlen.
    apply (escalation_first w taskId context e history He Ht Hh).
    pose proof (distinct_le_length (map f_approach history)) as Hle.
    rewrite length_map in Hle. lia. }
  split; [exact Hgeneral|].
  intros w taskId context r step a1 a2 a3 e1 e2 e3 He Hstep Hty H12 H13 H23.
  simpl.
  destruct (recordFailure_history clock taskId a1 e1 w) as [(f1 & Hf1 & Hh1) Hr1].
  destruct (Hr1 _ He eq_refl) as (x1 & Hx1 & Ht1 & _).
  set (w1 := after clock (RecordFailure taskId a1 e1) w) in *.
  destruct (recordFailure_history clock taskId a2 e2 w1) as [(f2 & Hf2 & Hh2) Hr2].
  destruct (Hr2 _ Hx1 Ht1) as (x2 & Hx2 & Ht2 & _).
  set (w2 := after clock (RecordFailure taskId a2 e2) w1) in *.
  destruct (recordFailure_history clock taskId a3 e3 w2) as [(f3 & Hf3 & Hh3) Hr3].
  destruct (Hr3 _ Hx2 Ht2) as (x3 & Hx3 & Ht3 & _).
  set (w3 := after clock (RecordFailure taskId a3 e3) w2) in *.
  rewrite Hh2, Hh1 in Hh3. simpl in Hh3.
  rewrite (Hgeneral w3 taskId context x3 _ Hx3 Ht3 Hh3).
  - eexists. split; [reflexivity|]. split; reflexivity.
  - rewrite !map_app. simpl. rewrite Hf1, Hf2, Hf3.
    apply (three_distinct a1 a2 a3); try assumption;
      rewrite !elem_of_app, !list_elem_of_singleton; auto.
Qed.

Lemma three_approaches_escalate_witness :
  (exists history,
     failureHistory thriceFailed "t1" = Some history /\
     suggestAlternativeApproach "t1" exampleContext thriceFailed
     = Ok (Some (mkSuggestion "DIRECT_RESPONSE" (6 # 10) (Some "summary")
                              (Some (map f_approach history))))) /\
  (exists s,
     suggestAlternativeApproach "t1" exampleContext
       (runOps exampleClock
          [RecordFailure "t1" "TOOL_SELECTION" (mkThrown "request timed out");
           RecordFailure "t1" "WEB_SEARCH" (mkThrown "request timed out");
           RecordFailure "t1" "READ_URL" (mkThrown "request timed out")]
          plannedOnce)
     = Ok (Some s) /\
     approach s = "DIRECT_RESPONSE" /\ confidence s = (6 # 10)%Q).
Proof.
  split.
  - eexists. split; [vm_compute; reflexivity|].
    eapply (proj1 (three_approaches_escalate exampleClock)).
    + vm_compute. reflexivity.
    + reflexivity.
    + vm_compute. reflexivity.
    + vm_compute. lia.
  - eapply (proj2 (three_approaches_escalate exampleClock)
                  plannedOnce "t1" exampleContext _ exampleStep).
    + vm_compute. reflexivity.
    + reflexivity.
    + reflexivity.
    + discriminate.
    + discriminate.
    + discriminate.
Defined.






(* --------------------------------------------------------------------- *)
(** ** Restoring, then checkpointing                                      *)
(* --------------------------------------------------------------------- *)

(** C2, on a manager with one pending task. [restoreCheckpoint] stores the
    checkpoint's state strings where the task objects were, so the
    checkpoint created next records an undefined state for the task: its
    state map differs from the restored one, while its results and failure
    snapshots are the restored ones. *)
Theorem restore_then_checkpoint_loses_states (clock : nat -> Z) :
  let w0 := runOps clock [InitializePlan [exampleStep]] newManager in
  let w2 := runOps clock [RestoreCheckpoint "plan_initialized";
                          CreateCheckpoint "after_restore"] w0 in
  exists restored newest,
    checkpoints w0 = [restored] /\
    last (checkpoints w2) = Some newest /\
    cp_name newest = "after_restore" /\
    taskStates restored = {[ "t1" := SVal PENDING ]} /\
    taskStates newest = {[ "t1" := SUndefined ]} /\
    resultsSnapshot newest = resultsSnapshot restored /\
    approachesSnapshot newest = approachesSnapshot restored.
Proof.
  eexists _, _. vm_compute. repeat split; reflexivity.
Qed.

(* --------------------------------------------------------------------- *)
(** ** Checkpoints and later failures                                     *)
(* --------------------------------------------------------------------- *)

(** C3, on a task that fails twice. The checkpoint taken at the first
    failure shares the task's failure array with the live map, so the second
    [recordFailure] lengthens the history that checkpoint shows. *)
Theorem checkpoint_history_changes_after_failure :
  let w1 := runOps exampleClock
              [InitializePlan [exampleStep];
               RecordFailure "t1" "TOOL_SELECTION" (mkThrown "request timed out")]
              newManager in
  let w2 := runOps exampleClock
              [RecordFailure "t1" "WEB_SEARCH" (mkThrown "request timed out")] w1 in
  exists cp,
    last (checkpoints w1) = Some cp /\
    checkpoints w2 !! 1%nat = Some cp /\
    map f_approach <$> checkpointHistory w1 cp "t1" = Some ["TOOL_SELECTION"] /\
    map f_approach <$> checkpointHistory w2 cp "t1"
    = Some ["TOOL_SELECTION"; "WEB_SEARCH"].
Proof.
  eexists. split; [vm_compute; reflexivity|].
  split; [vm_compute; reflexivity|].
  split; vm_compute; reflexivity.
Qed.

(* --------------------------------------------------------------------- *)
(** ** Task states across executor calls                                  *)
(* --------------------------------------------------------------------- *)

(** C5, on the plan built for a lone SYNTHESIS task. The first call
    completes the memory check; the second finds the synthesis step without
    input, inserts fixing steps and calls [initializePlan] again, which
    registers every step of the plan afresh: the completed memory check is
    pending again. *)
Theorem fixing_step_resets_completed_task (clock : nat -> Z) :
  let after n := (runPlan clock alwaysAnswers "q" synthesisOnly exampleContext n).2 in
  stateOfTask (after 0%nat) "task-memory" = Some (SVal PENDING) /\
  stateOfTask (after 1%nat) "task-memory" = Some (SVal COMPLETED) /\
  stateOfTask (after 2%nat) "task-memory" = Some (SVal PENDING).
Proof.
  vm_compute. repeat split; reflexivity.
Qed.

(* --------------------------------------------------------------------- *)
(** ** One call of the executor                                           *)
(* --------------------------------------------------------------------- *)

Section Executor.

Variable clock : nat -> Z.
Variable collab : nat -> Call -> Res Result.

(** [logTaskExecution] leaves the world as it is. *)
Lemma logTaskExecution_world taskId w : (logTaskExecution taskId w).2 = w.
Proof.
  unfold logTaskExecution, getTaskStatus. munfold. simpl.
  destruct (tasks w !! taskId) as [e|]; [|reflexivity].
  destruct (negb (truthyEntry e)); [reflexivity|].
  case_bool_decide; reflexivity.
Qed.

(** A step whose inputs are valid and whose dispatch returns [r]: the result
    is recorded, appended to [plan.results], and the cursor moves on. *)
Lemma executeNextStep_success fuel plan context w step r w1 :
  steps plan !! currentStepIndex plan = Some step ->
  validateStepInputs step plan = Valid ->
  (logTaskExecution (stepTaskId step (currentStepIndex plan)) w).1 = Ok tt ->
  dispatch collab step plan context
    (updateTaskState clock (stepTaskId step (currentStepIndex plan)) IN_PROGRESS w).2
  = (Ok r, w1) ->
  (recordSuccess clock (stepTaskId step (currentStepIndex plan)) r w1).1 = Ok true ->
  executeNextStep clock collab (S fuel) plan context w
  = (Ok (Some (advance plan (planResults plan ++ [mkResultEntry step r None])%list
                       true false false None)),
     (recordSuccess clock (stepTaskId step (currentStepIndex plan)) r w1).2).
Proof.
  intros Hstep Hvalid Hlog Hdisp Hrec.
  cbn [executeNextStep]. rewrite Hstep. cbv zeta. rewrite Hvalid.
  set (taskId := stepTaskId step (currentStepIndex plan)) in *.
  pose proof (logTaskExecution_world taskId w) as Hw.
  destruct (logTaskExecution taskId w) as [res w'] eqn:Elog. simpl in Hw, Hlog.
  subst w' res.
  destruct (updateTaskState_ok clock taskId IN_PROGRESS w) as [b Hup].
  destruct (recordSuccess clock taskId r w1) as [res2 w2] eqn:Erec. simpl in Hrec.
  subst res2.
  munfold. rewrite Elog, Hup, Hdisp, Erec. reflexivity.
Qed.

Lemma withCalls_same w : withCalls (calls w) w = w.
Proof. by destruct w. Qed.

Lemma callCollab_unfold c w :
  callCollab collab c w = (collab (calls w) c, withCalls (S (calls w)) w).
Proof. reflexivity. Qed.

(** The branch of [dispatch] taken for each known step type. *)
Lemma dispatch_unfold step plan context :
  dispatch collab step plan context
  = if decide (s_type step = "MEMORY_CHECK") then executeMemoryCheck collab
    else if decide (s_type step = "INTENT_CLASSIFICATION")
    then executeIntentClassification collab
    else if decide (s_type step = "TOOL_SELECTION")
    then (prioritizeTools step context;; executeToolSelection collab)
    else if decide (s_type step = "INFORMATION_GATHERING")
    then executeInformationGathering collab
    else if decide (s_type step = "SYNTHESIS")
    then executeSynthesis collab (query plan) (planResults plan)
    else if decide (s_type step = "VERIFICATION")
    then executeVerification (planResults plan)
    else mret (failure ("Unknown step type: " ++ s_type step)).
Proof. reflexivity. Qed.

Lemma prioritizeTools_returns step context msg w :
  userMsg context = Some msg ->
  exists l, prioritizeTools step context w = (Ok l, w).
Proof.
  intros Hmsg. unfold prioritizeTools. rewrite Hmsg. munfold.
  repeat case_match; eauto.
Qed.

Section AllSucceed.

Hypothesis Hall : allSucceed collab.

Lemma callCollab_succeeds c w :
  exists r, callCollab collab c w = (Ok r, withCalls (S (calls w)) w) /\
            r_success r = true /\ truthyResponse r = true.
Proof.
  destruct (Hall (calls w) c) as (r & Hr & Hs & Ht).
  exists r. by rewrite callCollab_unfold, Hr.
Qed.

Lemma executeDirectSynthesis_succeeds w :
  exists r, executeDirectSynthesis collab w = (Ok r, withCalls (S (calls w)) w) /\
            r_success r = true /\ truthyResponse r = true.
Proof.
  destruct (callCollab_succeeds CDirectSynthesis w) as (r & Hr & Hs & Ht).
  unfold executeDirectSynthesis, caught. munfold. rewrite Hr.
  eexists. split; [reflexivity|]. split; [reflexivity|exact Ht].
Qed.

Lemma executeSynthesis_succeeds q previous w :
  exists r n, executeSynthesis collab q previous w = (Ok r, withCalls n w) /\
              r_success r = true /\ truthyResponse r = true.
Proof.
  unfold executeSynthesis.
  assert (forall r, (mret r : M Result) w = (Ok r, withCalls (calls w) w)) as Hret.
  { intros r. by rewrite withCalls_same. }
  destruct (executeDirectSynthesis_succeeds w) as (rd & Hd & Hsd & Htd).
  repeat case_match;
    first [ rewrite Hret; eexists _, _; split; [reflexivity|]; split; reflexivity
          | rewrite Hd; eauto ].
Qed.

(** Under answering collaborators every collaborator-backed step returns a
    successful result with a response. *)
Lemma dispatch_succeeds step plan context msg w :
  userMsg context = Some msg ->
  s_type step ∈ ["MEMORY_CHECK"; "INTENT_CLASSIFICATION"; "TOOL_SELECTION";
                 "INFORMATION_GATHERING"; "SYNTHESIS"] ->
  exists r n, dispatch collab step plan context w = (Ok r, withCalls n w) /\
              r_success r = true /\ truthyResponse r = true.
Proof.
  intros Hmsg Hty. rewrite dispatch_unfold.
  rewrite !elem_of_cons in Hty.
  destruct Hty as [Hty|[Hty|[Hty|[Hty|[Hty|Hty]]]]];
    [..|by apply not_elem_of_nil in Hty]; rewrite Hty;
    repeat (first [rewrite decide_True by reflexivity
                  |rewrite decide_False by discriminate]).
  - destruct (callCollab_succeeds CMemoryCheck w) as (r & Hr & Hs & Ht). eauto 6.
  - destruct (callCollab_succeeds CIntentClassification w) as (r & Hr & Hs & Ht).
    unfold executeIntentClassification. munfold. rewrite Hr.
    eexists _, _. split; [reflexivity|]. split; [reflexivity|exact Ht].
  - destruct (prioritizeTools_returns step context msg w Hmsg) as [l Hl].
    destruct (callCollab_succeeds CToolSelection w) as (r & Hr & Hs & Ht).
    unfold executeToolSelection. munfold. rewrite Hl, Hr.
    eexists _, _. split; [reflexivity|]. split; [reflexivity|exact Ht].
  - destruct (callCollab_succeeds CInformationGathering w) as (r & Hr & Hs & Ht).
    unfold executeInformationGathering, caught. munfold. rewrite Hr. eauto 6.
  - apply executeSynthesis_succeeds.
Qed.

(** One call on a valid collaborator-backed step, under answering
    collaborators. *)
Lemma executeNextStep_answers fuel plan context msg w step :
  userMsg context = Some msg ->
  steps plan !! currentStepIndex plan = Some step ->
  s_type step ∈ ["MEMORY_CHECK"; "INTENT_CLASSIFICATION"; "TOOL_SELECTION";
                 "INFORMATION_GATHERING"; "SYNTHESIS"] ->
  validateStepInputs step plan = Valid ->
  (logTaskExecution (stepTaskId step (currentStepIndex plan)) w).1 = Ok tt ->
  (forall r n,
     (recordSuccess clock (stepTaskId step (currentStepIndex plan)) r
        (withCalls n
           (updateTaskState clock (stepTaskId step (currentStepIndex plan))
                            IN_PROGRESS w).2)).1 = Ok true) ->
  exists r n,
    r_success r = true /\ truthyResponse r = true /\
    executeNextStep clock collab (S fuel) plan context w
    = (Ok (Some (advance plan (planResults plan ++ [mkResultEntry step r None])%list
                         true false false None)),
       (recordSuccess clock (stepTaskId step (currentStepIndex plan)) r
          (withCalls n
             (updateTaskState clock (stepTaskId step (currentStepIndex plan))
                              IN_PROGRESS w).2)).2).
Proof.
  intros Hmsg Hstep Hty Hvalid Hlog Hrec.
  destruct (dispatch_succeeds step plan context msg
              (updateTaskState clock (stepTaskId step (currentStepIndex plan))
                               IN_PROGRESS w).2 Hmsg Hty)
    as (r & n & Hd & Hs & Ht).
  exists r, n. split; [exact Hs|]. split; [exact Ht|].
  apply executeNextStep_success; auto.
Qed.

End AllSucceed.

Lemma runSteps_S n plan context w :
  runSteps clock collab (S n) plan context w
  = match executeNextStep clock collab 4 plan context w with
    | (Ok (Some plan'), w') => runSteps clock collab n plan' context w'
    | (Ok None, w') => (Ok None, w')
    | (Throw e, w') => (Throw e, w')
    end.
Proof.
  cbn [runSteps]. munfold.
  destruct (executeNextStep clock collab 4 plan context w) as [[[p|]|e] w'];
    reflexivity.
Qed.

End Executor.

(* ===================================================================== *)
(** * Further properties of the State Manager                             *)
(* ===================================================================== *)

Section Updates.

Variable clock : nat -> Z.

(** [updateTaskState] on a task object: it returns true whatever the old
    and new states are, writes the new state, and keeps the step fields, the
    id and every time stamp that was already set. *)
Lemma updateTaskState_object taskId s w r :
  tasks w !! taskId = Some (EObj r) ->
  exists r',
    (updateTaskState clock taskId s w).1 = Ok true /\
    tasks (updateTaskState clock taskId s w).2 = <[taskId := EObj r']> (tasks w) /\
    k_state r' = s /\ k_step r' = k_step r /\ k_id r' = k_id r /\
    k_lastUpdated r' = Some (clock (ticks w)) /\
    (truthyTime (k_startTime r) = true -> k_startTime r' = k_startTime r) /\
    (truthyTime (k_endTime r) = true -> k_endTime r' = k_endTime r) /\
    (s <> IN_PROGRESS -> k_startTime r' = k_startTime r) /\
    (s = PENDING \/ s = IN_PROGRESS -> k_endTime r' = k_endTime r).
Proof.
  intros He. unfold updateTaskState, now, setTasks. munfold. simpl.
  rewrite He. simpl.
  destruct (truthyTime (k_startTime r)) eqn:Hs, (truthyTime (k_endTime r)) eqn:Ht,
    s; simpl; eexists; (split; [reflexivity|]);
    (split; [reflexivity|]); simpl; repeat split; intros; try reflexivity;
    try discriminate; try congruence;
    repeat match goal with H : _ \/ _ |- _ => destruct H end; discriminate.
Qed.

End Updates.

(** An id the manager does not hold is left alone. *)
Lemma updateTaskState_absent (clock : nat -> Z) (taskId : string)
    (newState : TaskState) (w : World) :
  tasks w !! taskId = None ->
  updateTaskState clock taskId newState w = (Ok false, w).
Proof.
  intros H. unfold updateTaskState. munfold. simpl. by rewrite H.
Qed.

(** X1. [updateTaskState] on an id the manager does not know, or one whose
    entry is undefined, returns false and changes nothing: not even the
    clock is read. *)
Theorem updateTaskState_unknown (clock : nat -> Z) (taskId : string)
    (newState : TaskState) (w : World) :
  tasks w !! taskId = None \/ tasks w !! taskId = Some (EPrim SUndefined) ->
  updateTaskState clock taskId newState w = (Ok false, w).
Proof.
  intros [H|H]; unfold updateTaskState; munfold; simpl; rewrite H; reflexivity.
Qed.

Lemma updateTaskState_unknown_witness :
  updateTaskState exampleClock "t7" COMPLETED plannedOnce = (Ok false, plannedOnce).
Proof.
  apply (updateTaskState_unknown exampleClock "t7" COMPLETED plannedOnce).
  left. vm_compute. reflexivity.
Defined.

(** X2. Time stamps are set once: whatever states are written to a task
    afterwards, in whatever order, a start time and an end time that were set
    stay what they were, and the task keeps its step fields. *)
Theorem time_stamps_set_once (clock : nat -> Z) (taskId : string)
    (states : list TaskState) (w : World) (r : TaskRec) :
  taskObject w taskId = Some r ->
  exists r',
    taskObject (updateStates clock taskId states w) taskId = Some r' /\
    k_step r' = k_step r /\
    (truthyTime (k_startTime r) = true -> k_startTime r' = k_startTime r) /\
    (truthyTime (k_endTime r) = true -> k_endTime r' = k_endTime r) /\
    (forall s, last states = Some s -> k_state r' = s).
Proof.
  revert w r. unfold updateStates.
  induction states as [|s states IH]; intros w r Hr; simpl.
  - exists r. repeat split; auto. intros s Hs. discriminate.
  - unfold taskObject in Hr.
    destruct (tasks w !! taskId) as [[o|v]|] eqn:He; simplify_eq.
    destruct (updateTaskState_object clock taskId s w r He)
      as (r1 & Hok & Htasks & Hstate & Hstep & _ & _ & Hstart & Hend & _).
    assert (taskObject (after clock (UpdateTaskState taskId s) w) taskId = Some r1)
      as Hr1.
    { rewrite after_discards. unfold taskObject.
      by rewrite Htasks, lookup_insert_eq. }
    destruct (IH _ r1 Hr1) as (r' & Hr' & Hstep' & Hstart' & Hend' & Hlast).
    exists r'. split; [exact Hr'|]. split; [congruence|].
    split; [|split].
    + intros Ht. rewrite <- (Hstart Ht). apply Hstart'. by rewrite (Hstart Ht).
    + intros Ht. rewrite <- (Hend Ht). apply Hend'. by rewrite (Hend Ht).
    + intros s' Hs'. destruct states as [|s2 states]; simpl in *.
      * cbn [map runOps foldl] in Hr'. rewrite Hr1 in Hr'.
        injection Hr' as <-. injection Hs' as <-. exact Hstate.
      * by apply Hlast.
Qed.

Section MoreStateManager.

Variable clock : nat -> Z.

(** No operation other than [recordFailure] touches the store of failure
    arrays, and [recordFailure] only creates an array at an unused address
    and appends to one. *)
Lemma perform_heap_grows op w l h :
  heap w !! l = Some h ->
  exists more, heap (after clock op w) !! l = Some (h ++ more)%list.
Proof.
  intros Hl. rewrite after_discards.
  destruct op as [ps|taskId s|taskId r|taskId a error|name|name].
  - rewrite initializePlan_unfold. cp_cases; simpl; rewrite Hhp; simpl;
      exists []; by rewrite app_nil_r.
  - destruct (updateTaskState_spec clock taskId s w) as (_&_&_&_&->&_).
    exists []. by rewrite app_nil_r.
  - rewrite recordSuccess_unfold. cbv zeta. simpl. cp_cases; simpl; rewrite Hhp; simpl;
      destruct (updateTaskState_spec clock taskId COMPLETED w) as (_&_&_&_&->&_);
      exists []; by rewrite app_nil_r.
  - rewrite recordFailure_unfold. cbv zeta. simpl.
    destruct (updateTaskState_spec clock taskId FAILED w) as (_&_&Hua&_&Huh&_).
    set (w1 := (updateTaskState clock taskId FAILED w).2) in *.
    assert (heap (withHistory taskId w1) !! l = Some h) as Hw.
    { unfold withHistory. destruct (approaches w1 !! taskId); simpl.
      - by rewrite Huh.
      - rewrite lookup_insert_ne; [by rewrite Huh|].
        intros <-. rewrite Huh in *.
        pose proof (is_fresh (dom (heap w))) as Hfresh.
        apply Hfresh, elem_of_dom. eauto. }
    set (w2 := withHistory taskId w1) in *.
    cp_cases; simpl; rewrite Hhp; simpl; unfold heapPush;
      (destruct (decide (historyLoc w1 taskId = l)) as [->|Hne];
       [ rewrite lookup_insert_eq, Hw; simpl; eauto
       | rewrite lookup_insert_ne by done; rewrite Hw;
         exists []; by rewrite app_nil_r ]).
  - cp_cases; simpl; rewrite Hhp; exists []; by rewrite app_nil_r.
  - unfold restoreCheckpoint, setTasks, setResults, setApproaches. munfold. simpl.
    destruct (List.find _ _); simpl; exists []; by rewrite app_nil_r.
Qed.

Lemma runOps_heap_grows ops : forall w l h,
  heap w !! l = Some h ->
  exists more, heap (runOps clock ops w) !! l = Some (h ++ more)%list.
Proof.
  induction ops as [|op ops IH]; intros w l h Hl; simpl.
  - exists []. by rewrite app_nil_r.
  - destruct (perform_heap_grows op w l h Hl) as [m1 H1].
    destruct (IH _ l _ H1) as [m2 H2].
    exists (m1 ++ m2)%list. by rewrite app_assoc.
Qed.

End MoreStateManager.

(** X5. Failure arrays only grow: whatever operations follow, restores
    included, the history a checkpoint shows for a task keeps every record it
    showed before, in order, and can only have gained records at its end. *)
Theorem checkpoint_history_only_grows (clock : nat -> Z) (ops : list Op)
    (w : World) (cp : Checkpoint) (taskId : string) (h : list Failure) :
  checkpointHistory w cp taskId = Some h ->
  exists more,
    checkpointHistory (runOps clock ops w) cp taskId = Some (h ++ more)%list.
Proof.
  unfold checkpointHistory. intros Hh.
  destruct (approachesSnapshot cp !! taskId) as [l|]; simpl in *; [|done].
  by apply runOps_heap_grows.
Qed.

(** X3. [recordSuccess] stores the result under the task id and leaves
    every other stored result, the failure histories and the store of
    failure arrays alone, whether or not its checkpoint could be taken; a
    registered task is completed by it. *)
Theorem recordSuccess_stores (clock : nat -> Z) (taskId : string) (r : Result)
    (w : World) :
  let w' := after clock (RecordSuccess taskId r) w in
  results w' = <[taskId := r]> (results w) /\
  approaches w' = approaches w /\ heap w' = heap w /\
  (forall o, taskObject w taskId = Some o ->
     exists o', taskObject w' taskId = Some o' /\ k_state o' = COMPLETED /\
                k_step o' = k_step o) /\
  (forall other, other <> taskId -> tasks w' !! other = tasks w !! other).
Proof.
  cbv zeta. rewrite after_discards, recordSuccess_unfold. cbv zeta. simpl.
  destruct (updateTaskState_spec clock taskId COMPLETED w)
    as (_ & Hur & Hua & _ & Huh & _ & Hut).
  set (w1 := (updateTaskState clock taskId COMPLETED w).2) in *.
  match goal with |- context [createCheckpoint clock ?n ?v] =>
    pose proof (createCheckpoint_spec clock n v) as Hs;
    destruct (createCheckpoint clock n v) as [res w5]
  end.
  simpl in Hs. destruct Hs as (Htk & Hrs & Hap & Hhp & _). simpl.
  rewrite Hrs, Hap, Hhp, Hur, Hua, Huh. repeat split; try reflexivity.
  - intros o Ho. unfold taskObject in *. rewrite Htk.
    destruct (tasks w !! taskId) as [[o0|v]|] eqn:He; simplify_eq.
    destruct (updateTaskState_object clock taskId COMPLETED w o He)
      as (o' & _ & Ht & Hst & Hstep & _).
    fold w1 in Ht. rewrite Ht, lookup_insert_eq. eauto.
  - intros other Hne. rewrite Htk.
    destruct Hut as [->|(e & o & _ & _ & _ & _ & ->)]; [done|].
    by rewrite lookup_insert_ne.
Qed.

(** X4. Restoring is idempotent and touches neither the buffer, nor the
    store of failure arrays, nor the clock: a second [restoreCheckpoint] of
    the same name returns what the first returned and changes nothing. *)
Theorem restoreCheckpoint_idempotent (name : string) (w : World) :
  let rw := restoreCheckpoint name w in
  restoreCheckpoint name rw.2 = rw /\
  checkpoints rw.2 = checkpoints w /\ heap rw.2 = heap w /\
  ticks rw.2 = ticks w.
Proof.
  unfold restoreCheckpoint, setTasks, setResults, setApproaches. munfold. simpl.
  destruct (List.find _ (checkpoints w)) as [cp|] eqn:Hf; simpl.
  - rewrite Hf. simpl. repeat split; reflexivity.
  - rewrite Hf. repeat split; reflexivity.
Qed.

(** X7. A failure recorded for an id the manager never registered is kept
    in a failure history of its own, yet no task appears for the id, and the
    advisor answers null for it. *)
Theorem recordFailure_unregistered (clock : nat -> Z) (taskId a : string)
    (error : Thrown) (context : Context) (w : World) :
  tasks w !! taskId = None ->
  let w' := after clock (RecordFailure taskId a error) w in
  tasks w' = tasks w /\
  (exists f, f_approach f = a /\
             failureHistory w' taskId
             = Some (default [] (failureHistory w taskId) ++ [f])%list) /\
  suggestAlternativeApproach taskId context w' = Ok None.
Proof.
  intros Hnone. cbv zeta.
  destruct (recordFailure_history clock taskId a error w) as [Hh _].
  assert (tasks (after clock (RecordFailure taskId a error) w) = tasks w) as Ht.
  { rewrite after_discards, recordFailure_unfold. cbv zeta. simpl.
    rewrite (updateTaskState_absent clock taskId FAILED w) by exact Hnone. simpl.
    destruct (withHistory_spec taskId w) as (_ & _ & Hwt).
    cp_cases; simpl; rewrite Htk; simpl; exact Hwt. }
  split; [exact Ht|]. split; [exact Hh|].
  unfold suggestAlternativeApproach. by rewrite Ht, Hnone.
Qed.

Lemma size_filter_insert {A} (P : string * A -> Prop) `{!forall x, Decision (P x)}
    (i : string) (x : A) (m : gmap string A) :
  m !! i = None ->
  size (filter P (<[i:=x]> m))
  = ((if decide (P (i, x)) then 1 else 0) + size (filter P m))%nat.
Proof.
  intros Hi. rewrite map_filter_insert. case_decide.
  - rewrite map_size_insert_None; [done|].
    apply map_lookup_filter_None. by left.
  - by rewrite delete_id.
Qed.

Lemma counts_partition (m : gmap string Entry) :
  map_Forall (fun _ e => is_Some (stateOf e)) m ->
  size m
  = (countState PENDING m + countState IN_PROGRESS m + countState COMPLETED m
     + countState FAILED m + countState SKIPPED m
     + size (filter (fun kv => stateOf kv.2 = Some SUndefined) m))%nat.
Proof.
  unfold countState.
  induction m as [|i e m Hi IH] using map_ind; intros Hall.
  - by rewrite !map_filter_empty, !map_size_empty.
  - apply map_Forall_insert in Hall as [He Hm]; [|done].
    rewrite map_size_insert_None by done.
    rewrite !size_filter_insert by done. rewrite (IH Hm). simpl.
    destruct He as [v Hv]. rewrite Hv.
    destruct v as [[]|];
      repeat (first [rewrite decide_True by done
                    |rewrite decide_False by (intros ?; simplify_eq)]); lia.
Qed.

(** X6. When [getTaskStatus] returns, its five counts and the number of bare
    state strings left by a restore add up to [total]; in a manager that
    holds only task objects the five counts add up to [total]. *)
Theorem status_counts_add_up (w : World) (st : Status) :
  (getTaskStatus w).1 = Ok st ->
  st_total st
  = (st_pending st + st_inProgress st + st_completed st + st_failed st
     + st_skipped st + bareEntries w)%nat.
Proof.
  unfold getTaskStatus. munfold. simpl. case_bool_decide as Hall; [|done].
  simpl. intros [= <-]. simpl. by apply counts_partition.
Qed.

Section MoreAdvisor.

(** The part of [suggestAlternativeApproach] that follows the escalation
    check, for recorded errors that are all message texts. *)
Lemma suggest_after_escalation w taskId context e history msgs :
  tasks w !! taskId = Some e -> truthyEntry e = true ->
  failureHistory w taskId = Some history ->
  history <> [] -> (length history < 3)%nat ->
  map f_error history = map ErrMsg msgs ->
  suggestAlternativeApproach taskId context w
  = let tried := map f_approach history in
    if matchesUrlSignature msgs
    then Ok (Some (mkSuggestion "SINGLE_URL_PROCESSING" (8 # 10) None (Some tried)))
    else if matchesParameterSignature msgs
    then Ok (Some (mkSuggestion "WEB_SEARCH" (7 # 10) None (Some tried)))
    else
      Ok (Some
        (if decide (typeOfEntry e = Some "INFORMATION_GATHERING")
         then suggestAlternativeInfoGathering tried
         else if decide (typeOfEntry e = Some "SYNTHESIS")
         then (if negb (bool_decide ("DIRECT_SYNTHESIS" ∈ tried))
               then mkSuggestion "DIRECT_SYNTHESIS" (8 # 10) None (Some tried)
               else mkSuggestion "ASK_CLARIFICATION" (5 # 10) None (Some tried))
         else if decide (typeOfEntry e = Some "TOOL_SELECTION")
         then suggestAlternativeTool tried context
         else mkSuggestion "ASK_CLARIFICATION" (5 # 10) None (Some tried))).
Proof.
  intros He Ht Hh Hne Hlen Herr.
  assert ((length history =? 0)%nat = false) as Hz by (by destruct history).
  unfold suggestAlternativeApproach. rewrite He, Hh, Ht.
  cbv zeta. cbn [negb from_option id].
  rewrite length_map, Hz, (proj2 (Nat.leb_gt 3 _) Hlen).
  rewrite Herr, !someError_messages.
  unfold matchesUrlSignature, matchesParameterSignature.
  destruct (existsb (fun e0 => includes e0 "Invalid URL" || includes e0 "undefined") msgs);
    [reflexivity|].
  destruct (existsb (fun e0 => includes e0 "Missing required parameter"
                               || includes e0 "parameter") msgs); [|reflexivity].
  simpl. by destruct (existsb _ msgs).
Qed.

End MoreAdvisor.

(** X8. The two error signatures come before the task type: with one or two
    failures recorded, an error text holding Invalid URL or undefined gives
    SINGLE_URL_PROCESSING at 0.8, and otherwise a text holding parameter
    together with a text holding problem gives WEB_SEARCH at 0.7, whatever
    the type of the task and whatever was already tried. *)
Theorem signatures_precede_type (w : World) (taskId : string) (context : Context)
    (e : Entry) (history : list Failure) (msgs : list string) :
  tasks w !! taskId = Some e -> truthyEntry e = true ->
  failureHistory w taskId = Some history ->
  history <> [] -> (length history < 3)%nat ->
  map f_error history = map ErrMsg msgs ->
  (matchesUrlSignature msgs = true ->
   suggestAlternativeApproach taskId context w
   = Ok (Some (mkSuggestion "SINGLE_URL_PROCESSING" (8 # 10) None
                            (Some (map f_approach history))))) /\
  (matchesUrlSignature msgs = false -> matchesParameterSignature msgs = true ->
   suggestAlternativeApproach taskId context w
   = Ok (Some (mkSuggestion "WEB_SEARCH" (7 # 10) None
                            (Some (map f_approach history))))).
Proof.
  intros He Ht Hh Hne Hlen Herr.
  rewrite (suggest_after_escalation w taskId context e history msgs) by assumption.
  cbv zeta. split.
  - by intros ->.
  - by intros -> ->.
Qed.

(** X9. When no error signature matches, the advisor never proposes again an
    approach that is among the tried labels: what it returns is either a
    label not yet tried or ASK_CLARIFICATION. *)
Theorem advisor_never_repeats (w : World) (taskId : string) (context : Context)
    (e : Entry) (history : list Failure) (msgs : list string) :
  tasks w !! taskId = Some e -> truthyEntry e = true ->
  failureHistory w taskId = Some history ->
  history <> [] -> (length history < 3)%nat ->
  map f_error history = map ErrMsg msgs ->
  matchesUrlSignature msgs = false ->
  matchesParameterSignature msgs = false ->
  exists s,
    suggestAlternativeApproach taskId context w = Ok (Some s) /\
    previousApproaches s = Some (map f_approach history) /\
    (approach s = "ASK_CLARIFICATION" \/ approach s ∉ map f_approach history).
Proof.
  intros He Ht Hh Hne Hlen Herr Hurl Hparam.
  rewrite (suggest_after_escalation w taskId context e history msgs) by assumption.
  cbv zeta. rewrite Hurl, Hparam.
  set (tried := map f_approach history).
  unfold suggestAlternativeInfoGathering, suggestAlternativeTool, toolPriorities.
  simpl.
  destruct (includes (toLowerCase (default "" (userMsg context))) "github");
    repeat case_decide; repeat (case_bool_decide; simpl);
    (eexists; split; [reflexivity|]; split; [reflexivity|]; simpl; auto).
Qed.

(** The record [recordFailure] appends. *)
Lemma recordFailure_appends (clock : nat -> Z) taskId a err w :
  exists timestamp,
    failureHistory (after clock (RecordFailure taskId a err) w) taskId
    = Some (default [] (failureHistory w taskId)
            ++ [mkFailure a (errorValue err) timestamp])%list.
Proof.
  rewrite after_discards, recordFailure_unfold. cbv zeta. simpl.
  destruct (updateTaskState_spec clock taskId FAILED w)
    as (_ & _ & Hua & _ & Huh & _).
  set (w1 := (updateTaskState clock taskId FAILED w).2) in *.
  destruct (withHistory_spec taskId w1) as (Hwa & Hwh & _).
  assert (failureHistory w1 taskId = failureHistory w taskId) as Hn.
  { unfold failureHistory. by rewrite Hua, Huh. }
  eexists.
  cp_cases; simpl; unfold failureHistory; rewrite Hap, Hwa; simpl;
    rewrite Hhp; unfold heapPush; rewrite lookup_insert_eq, Hwh, Hn;
    reflexivity.
Qed.

(** X10. An error thrown with an empty message is recorded as the error
    object itself, which has no [includes]: on a task without earlier
    failures the advisor's next call throws a TypeError instead of
    returning a suggestion. *)
Theorem empty_message_breaks_advisor (clock : nat -> Z) (w : World)
    (taskId a : string) (context : Context) (e : Entry) :
  tasks w !! taskId = Some e -> truthyEntry e = true ->
  failureHistory w taskId = None ->
  suggestAlternativeApproach taskId context
    (after clock (RecordFailure taskId a (mkThrown "")) w)
  = Throw (typeError "e.includes is not a function").
Proof.
  intros He Ht Hh.
  destruct (recordFailure_history clock taskId a (mkThrown "") w) as [_ Hreg].
  destruct (Hreg e He Ht) as (e' & He' & Ht' & _).
  destruct (recordFailure_appends clock taskId a (mkThrown "") w) as [ts Hhist].
  rewrite Hh in Hhist. simpl in Hhist.
  unfold suggestAlternativeApproach. rewrite He', Ht', Hhist. reflexivity.
Qed.

Lemma time_stamps_set_once_witness :
  exists r r',
    taskObject startedAndEnded "t1" = Some r /\
    taskObject (updateStates exampleClock "t1" [FAILED; IN_PROGRESS; SKIPPED]
                             startedAndEnded) "t1" = Some r' /\
    k_startTime r' = k_startTime r /\ k_endTime r' = k_endTime r /\
    k_state r' = SKIPPED.
Proof.
  destruct (taskObject startedAndEnded "t1") as [r|] eqn:Hr;
    [|vm_compute in Hr; discriminate].
  destruct (time_stamps_set_once exampleClock "t1" [FAILED; IN_PROGRESS; SKIPPED]
              startedAndEnded r Hr) as (r' & Hr' & _ & Hstart & Hend & Hlast).
  exists r, r'. split; [reflexivity|]. split; [exact Hr'|].
  vm_compute in Hr. injection Hr as <-.
  split; [by apply Hstart|]. split; [by apply Hend|]. by apply Hlast.
Defined.

Lemma status_counts_add_up_witness :
  exists st,
    (getTaskStatus (restoreCheckpoint "plan_initialized" plannedOnce).2).1 = Ok st /\
    st_total st
    = (st_pending st + st_inProgress st + st_completed st + st_failed st
       + st_skipped st
       + bareEntries (restoreCheckpoint "plan_initialized" plannedOnce).2)%nat.
Proof.
  eexists. split; [vm_compute; reflexivity|].
  apply (status_counts_add_up (restoreCheckpoint "plan_initialized" plannedOnce).2).
  vm_compute. reflexivity.
Defined.

Lemma recordFailure_unregistered_witness :
  let w' := after exampleClock
              (RecordFailure "fix-t1" "TOOL_SELECTION" (mkThrown "request timed out"))
              plannedOnce in
  tasks w' = tasks plannedOnce /\
  (exists f, f_approach f = "TOOL_SELECTION" /\
             failureHistory w' "fix-t1"
             = Some (default [] (failureHistory plannedOnce "fix-t1") ++ [f])%list) /\
  suggestAlternativeApproach "fix-t1" exampleContext w' = Ok None.
Proof.
  apply (recordFailure_unregistered exampleClock "fix-t1" "TOOL_SELECTION"
           (mkThrown "request timed out") exampleContext plannedOnce).
  vm_compute. reflexivity.
Defined.

Lemma signatures_precede_type_witness :
  suggestAlternativeApproach "t1" exampleContext urlFailed
  = Ok (Some (mkSuggestion "SINGLE_URL_PROCESSING" (8 # 10) None (Some ["READ_URL"]))) /\
  suggestAlternativeApproach "t1" exampleContext parameterFailed
  = Ok (Some (mkSuggestion "WEB_SEARCH" (7 # 10) None (Some ["REASONING_TOOL"]))).
Proof.
  split.
  - refine (proj1 (signatures_precede_type urlFailed "t1" exampleContext _
                     [mkFailure "READ_URL" (ErrMsg "Invalid URL") _] ["Invalid URL"]
                     _ _ _ _ _ _) _);
      first [vm_compute; reflexivity | discriminate | simpl; lia | reflexivity].
  - refine (proj2 (signatures_precede_type parameterFailed "t1" exampleContext _
                     [mkFailure "REASONING_TOOL"
                        (ErrMsg "Missing required parameter: problem") _]
                     ["Missing required parameter: problem"]
                     _ _ _ _ _ _) _ _);
      first [vm_compute; reflexivity | discriminate | simpl; lia | reflexivity].
Defined.

Lemma advisor_never_repeats_witness :
  exists s,
    suggestAlternativeApproach "t1" exampleContext twiceFailed = Ok (Some s) /\
    previousApproaches s = Some ["TOOL_SELECTION"; "WEB_SEARCH"] /\
    (approach s = "ASK_CLARIFICATION"
     \/ approach s ∉ ["TOOL_SELECTION"; "WEB_SEARCH"]).
Proof.
  refine (advisor_never_repeats twiceFailed "t1" exampleContext _
            [mkFailure "TOOL_SELECTION" (ErrMsg "request timed out") _;
             mkFailure "WEB_SEARCH" (ErrMsg "request timed out") _]
            ["request timed out"; "request timed out"] _ _ _ _ _ _ _ _);
    first [vm_compute; reflexivity | discriminate | simpl; lia | reflexivity].
Defined.

Lemma empty_message_breaks_advisor_witness :
  suggestAlternativeApproach "t1" exampleContext
    (after exampleClock (RecordFailure "t1" "TOOL_SELECTION" (mkThrown "")) plannedOnce)
  = Throw (typeError "e.includes is not a function").
Proof.
  refine (empty_message_breaks_advisor exampleClock plannedOnce "t1" "TOOL_SELECTION"
            exampleContext _ _ _ _);
    first [vm_compute; reflexivity | reflexivity].
Defined.

Lemma checkpoint_history_only_grows_witness :
  match last (checkpoints onceFailed) with
  | Some cp =>
      exists h more,
        checkpointHistory onceFailed cp "t1" = Some h /\
        checkpointHistory
          (runOps exampleClock
             [RecordFailure "t1" "WEB_SEARCH" (mkThrown "request timed out");
              RestoreCheckpoint "plan_initialized"] onceFailed) cp "t1"
        = Some (h ++ more)%list
  | None => False
  end.
Proof.
  destruct (last (checkpoints onceFailed)) as [cp|] eqn:Hcp;
    [|vm_compute in Hcp; discriminate].
  destruct (checkpointHistory onceFailed cp "t1") as [h|] eqn:Hh.
  - destruct (checkpoint_history_only_grows exampleClock
                [RecordFailure "t1" "WEB_SEARCH" (mkThrown "request timed out");
                 RestoreCheckpoint "plan_initialized"] onceFailed cp "t1" h Hh)
      as [more Hmore].
    exists h, more. split; [reflexivity|exact Hmore].
  - vm_compute in Hcp. injection Hcp as <-. vm_compute in Hh. discriminate.
Defined.

(* ===================================================================== *)
(** * Further properties of the Dependency Resolver                       *)
(* ===================================================================== *)

Section JsMap.

Context {V : Type}.

Lemma js_map_of_snoc (l : list (string * V)) (kv : string * V) :
  js_map_of (l ++ [kv]) = <[kv.1 := kv.2]> (js_map_of l).
Proof. unfold js_map_of. by rewrite foldl_app. Qed.

(** A key is bound by [new Map(entries)] exactly when some entry has it. *)
Lemma js_map_of_is_Some (l : list (string * V)) (k : string) :
  is_Some (js_map_of l !! k) <-> k ∈ l.*1.
Proof.
  induction l as [|kv l IH] using rev_ind.
  - unfold js_map_of. simpl. rewrite lookup_empty, elem_of_nil.
    split; [intros [? ?]; done|done].
  - rewrite js_map_of_snoc, fmap_app, elem_of_app. simpl.
    rewrite list_elem_of_singleton.
    destruct (decide (kv.1 = k)) as [->|Hne].
    + rewrite lookup_insert_eq. split; eauto.
    + rewrite lookup_insert_ne by done. rewrite IH. split; [auto|].
      intros [?|?]; [done|congruence].
Qed.

(** The value bound to a key is the value of one of the entries. *)
Lemma js_map_of_lookup (l : list (string * V)) (k : string) (v : V) :
  js_map_of l !! k = Some v -> (k, v) ∈ l.
Proof.
  induction l as [|kv l IH] using rev_ind.
  - unfold js_map_of. simpl. by rewrite lookup_empty.
  - rewrite js_map_of_snoc, elem_of_app, list_elem_of_singleton.
    destruct (decide (kv.1 = k)) as [<-|Hne].
    + rewrite lookup_insert_eq. intros [= <-]. right. by destruct kv.
    + rewrite lookup_insert_ne by done. auto.
Qed.

End JsMap.

Module ResolverFacts.
Import Resolver.

Section Traversal.

Variable tasks : list Task.

Lemma indexMap_is_Some id :
  is_Some (indexMap tasks !! id) <-> id ∈ map t_id tasks.
Proof.
  unfold indexMap. rewrite js_map_of_is_Some.
  assert ((imap (fun i t => (t_id t, i)) tasks).*1 = map t_id tasks) as ->; [|done].
  rewrite fmap_imap. exact (imap_const t_id tasks).
Qed.

Lemma indexMap_lookup id i :
  indexMap tasks !! id = Some i ->
  exists t, tasks !! i = Some t /\ t_id t = id.
Proof.
  intros H. apply js_map_of_lookup in H.
  apply elem_of_lookup_imap in H as (j & t & Heq & Ht).
  injection Heq as -> ->. eauto.
Qed.

End Traversal.

End ResolverFacts.

Section Traversal.
Import Resolver.

Variable tasks : list Task.

Lemma indexMap_idSet id : is_Some (indexMap tasks !! id) <-> id ∈ idSet tasks.
Proof.
  unfold idSet. rewrite elem_of_list_to_set.
  apply ResolverFacts.indexMap_is_Some.
Qed.

Lemma idSet_size : (size (idSet tasks) <= length tasks)%nat.
Proof.
  unfold idSet. rewrite <- (length_map t_id tasks).
  generalize (map t_id tasks). intros l.
  induction l as [|x l IH].
  - by rewrite list_to_set_nil, size_empty.
  - rewrite list_to_set_cons, size_union_alt, size_singleton. simpl.
    assert (size (list_to_set l ∖ {[x]} : gset string)
            <= size (list_to_set l : gset string))%nat
      by (apply subseteq_size; set_solver).
    lia.
Qed.

(** A call of [visit] on a known id returns, provided the fuel covers the
    ids that can still enter [temp]. *)
Lemma visit_total fuel : forall id st,
  id ∈ idSet tasks -> DfsInv tasks st ->
  (size (idSet tasks) < size (temp st) + fuel)%nat ->
  exists st',
    visit tasks fuel id st = Some st' /\ DfsInv tasks st' /\
    temp st' = temp st /\ visited st ⊆ visited st' /\
    (id ∈ temp st \/ id ∈ visited st').
Proof.
  induction fuel as [|fuel IH]; intros id st Hid Hinv Hfuel.
  - exfalso. pose proof (subseteq_size _ _ (inv_temp _ _ Hinv)). lia.
  - cbn [visit].
    destruct (decide (id ∈ temp st)) as [Htemp|Htemp]; [by eauto 10|].
    destruct (decide (id ∈ visited st)) as [Hvis|Hvis]; [by eauto 10|].
    cbv zeta.
    set (st1 := mkDfs (visited st) ({[id]} ∪ temp st) (result st)).
    assert (DfsInv tasks st1) as Hinv1.
    { destruct Hinv as [J1 J2 J3 J4 J5]. constructor; simpl; auto.
      - clear - J1 Hid. set_solver.
      - clear - J3 Hvis. set_solver. }
    assert (size (idSet tasks) < size (temp st1) + fuel)%nat as Hfuel1.
    { simpl. rewrite size_union by (clear - Htemp; set_solver).
      rewrite size_singleton. lia. }
    assert (forall deps s,
              DfsInv tasks s -> temp s = temp st1 ->
              exists s',
                foldl (fun acc depId =>
                         match acc with
                         | None => None
                         | Some s0 =>
                             if decide (is_Some (indexMap tasks !! depId))
                             then visit tasks fuel depId s0
                             else Some s0
                         end) (Some s) deps = Some s' /\
                DfsInv tasks s' /\ temp s' = temp st1 /\ visited s ⊆ visited s')
      as Hloop.
    { induction deps as [|d deps IHd]; intros s Hs Ht; cbn [foldl]; [by eauto|].
      destruct (decide (is_Some (indexMap tasks !! d))) as [Hd|Hd];
        cbv beta iota.
      - apply indexMap_idSet in Hd.
        destruct (IH d s Hd Hs) as (s1 & -> & Hs1 & Ht1 & Hsub1 & _);
          [by rewrite Ht|].
        destruct (IHd s1 Hs1) as (s2 & -> & Hs2 & Ht2 & Hsub2); [congruence|].
        exists s2. split; [reflexivity|]. split; [done|].
        split; [exact Ht2|]. by etrans.
      - by apply IHd. }
    destruct (Hloop (default [] (graph tasks !! id)) st1 Hinv1 eq_refl)
      as (st2 & -> & Hinv2 & Ht2 & Hsub2).
    eexists. split; [reflexivity|]. simpl in *.
    destruct Hinv2 as [I1 I2 I3 I4 I5].
    assert (id ∉ visited st2) as Hnv
      by (rewrite Ht2 in I3; clear - I3; set_solver).
    destruct Hinv as [J1 J2 J3 J4 J5].
    repeat split; simpl.
    + rewrite Ht2. clear - J1. set_solver.
    + clear - I2 Hid. set_solver.
    + rewrite Ht2 in *. clear - I3 Htemp. set_solver.
    + apply NoDup_app. split; [done|]. split; [|apply NoDup_singleton].
      intros x Hx. rewrite list_elem_of_singleton. intros ->.
      by apply Hnv, I5.
    + intros Hx. apply elem_of_app in Hx as [Hx|Hx].
      * apply I5 in Hx. apply elem_of_union. by right.
      * apply list_elem_of_singleton in Hx. subst.
        apply elem_of_union. left. by apply elem_of_singleton.
    + intros Hx. apply elem_of_union in Hx as [Hx|Hx].
      * apply elem_of_singleton in Hx. subst. apply elem_of_app. right.
        by apply list_elem_of_singleton.
      * apply elem_of_app. left. by apply I5.
    + rewrite Ht2. clear - Htemp. set_solver.
    + clear - Hsub2. set_solver.
    + right. clear. set_solver.
Qed.

End Traversal.

Section Sorting.
Import Resolver.

Variable tasks : list Task.

Lemma idSet_elem t : t ∈ tasks -> t_id t ∈ idSet tasks.
Proof.
  intros Ht. unfold idSet. rewrite elem_of_list_to_set.
  apply list_elem_of_fmap. eauto.
Qed.

(** The loop over all tasks returns, having visited every id once. *)
Lemma visitAll_total :
  exists st,
    visitAll tasks (S (length tasks)) = Some st /\
    DfsInv tasks st /\ temp st = ∅ /\ visited st = idSet tasks.
Proof.
  unfold visitAll.
  assert (forall l s,
            (forall t, t ∈ l -> t ∈ tasks) ->
            DfsInv tasks s -> temp s = ∅ ->
            exists s',
              foldl (fun acc task =>
                       match acc with
                       | None => None
                       | Some s0 =>
                           if decide (t_id task ∈ visited s0) then Some s0
                           else visit tasks (S (length tasks)) (t_id task) s0
                       end) (Some s) l = Some s' /\
              DfsInv tasks s' /\ temp s' = ∅ /\ visited s ⊆ visited s' /\
              (forall t, t ∈ l -> t_id t ∈ visited s')) as Hloop.
  { induction l as [|t l IHl]; intros s Hl Hs Ht; cbn [foldl].
    - exists s. split; [reflexivity|]. split; [done|]. split; [done|].
      split; [done|]. intros t Hin. by apply elem_of_nil in Hin.
    - assert (forall t', t' ∈ l -> t' ∈ tasks) as Hl'
        by (intros t' Hin; apply Hl; by right).
      destruct (decide (t_id t ∈ visited s)) as [Hv|Hv]; cbv beta iota.
      + destruct (IHl s Hl' Hs Ht) as (s' & -> & Hs' & Ht' & Hsub & Hall).
        exists s'. split; [reflexivity|]. split; [done|]. split; [done|].
        split; [done|].
        intros t' Hin. apply elem_of_cons in Hin as [->|Hin]; auto.
      + destruct (visit_total tasks (S (length tasks)) (t_id t) s)
          as (s1 & -> & Hs1 & Ht1 & Hsub1 & Hin1); auto.
        { apply idSet_elem, Hl. by left. }
        { rewrite Ht, size_empty. pose proof (idSet_size tasks). lia. }
        destruct (IHl s1 Hl' Hs1) as (s' & -> & Hs' & Ht' & Hsub & Hall);
          [congruence|].
        exists s'. split; [reflexivity|]. split; [done|]. split; [done|].
        split; [by etrans|].
        intros t' Hin. apply elem_of_cons in Hin as [->|Hin]; auto.
        destruct Hin1 as [Hin1|Hin1];
          [rewrite Ht in Hin1; by apply not_elem_of_empty in Hin1|].
        by apply Hsub. }
  destruct (Hloop tasks (mkDfs ∅ ∅ [])) as (st & Hst & Hinv & Ht & _ & Hall); auto.
  { constructor; simpl.
    - apply empty_subseteq.
    - apply empty_subseteq.
    - apply disjoint_empty_l.
    - constructor.
    - intros x. rewrite elem_of_nil. split; [done|].
      apply not_elem_of_empty. }
  exists st. split; [exact Hst|]. split; [done|]. split; [done|].
  apply set_eq. intros x. split.
  - intros Hx. by apply (inv_visited _ _ Hinv).
  - unfold idSet. rewrite elem_of_list_to_set.
    intros (t & -> & Hin)%list_elem_of_fmap. auto.
Qed.

(** [sortTasksByDependencies] always returns: cycles are cut, never
    followed.  Its output holds every id of the input exactly once, each id
    standing for a task of the input. *)
Lemma sort_total :
  exists out,
    sortTasksByDependencies tasks = Some out /\
    NoDup (map t_id out) /\
    (forall t, t ∈ out -> t ∈ tasks) /\
    (forall id, id ∈ map t_id out <-> id ∈ map t_id tasks).
Proof.
  unfold sortTasksByDependencies.
  destruct visitAll_total as (st & -> & Hinv & _ & Hvis).
  assert (forall l : list string,
            (forall id, id ∈ l -> id ∈ idSet tasks) ->
            exists out,
              mapM (fun id => match indexMap tasks !! id with
                              | Some i => tasks !! i
                              | None => None
                              end) l = Some out /\
              map t_id out = l /\ (forall t, t ∈ out -> t ∈ tasks)) as Hmap.
  { induction l as [|id l IHl]; intros Hl.
    - exists []. split; [reflexivity|]. split; [reflexivity|].
      intros t Hin. by apply elem_of_nil in Hin.
    - destruct (proj2 (indexMap_idSet tasks id)) as [i Hi];
        [apply Hl; by left|].
      destruct (ResolverFacts.indexMap_lookup tasks id i Hi) as (t & Hti & Hid).
      destruct IHl as (out & Hout & Hids & Hin);
        [intros id' Hin'; apply Hl; by right|].
      exists (t :: out). simpl. rewrite Hi, Hti. simpl. rewrite Hout. simpl.
      split; [reflexivity|]. split; [by rewrite Hid, Hids|].
      intros t' Hin'. apply elem_of_cons in Hin' as [->|Hin']; auto.
      by apply list_elem_of_lookup_2 in Hti. }
  destruct (Hmap (reverse (result st))) as (out & -> & Hids & Hin).
  { intros id Hid. rewrite elem_of_reverse in Hid.
    apply (inv_visited _ _ Hinv), (inv_result _ _ Hinv), Hid. }
  exists out. split; [reflexivity|]. split; [|split; [exact Hin|]].
  - rewrite Hids, reverse_Permutation. apply (inv_nodup _ _ Hinv).
  - intros id. rewrite Hids, elem_of_reverse, (inv_result _ _ Hinv), Hvis.
    unfold idSet. by rewrite elem_of_list_to_set.
Qed.

End Sorting.

(** X11. [sortTasksByDependencies] returns on every task list, also on
    cyclic dependencies: its output names every id of the input exactly once
    and holds only tasks of the input; when the ids of the input are distinct
    it is a permutation of the input. *)
Theorem sortTasksByDependencies_total (tasks : list Task) :
  exists out,
    Resolver.sortTasksByDependencies tasks = Some out /\
    NoDup (map t_id out) /\
    (forall id, id ∈ map t_id out <-> id ∈ map t_id tasks) /\
    (forall t, t ∈ out -> t ∈ tasks) /\
    (NoDup (map t_id tasks) -> out ≡ₚ tasks).
Proof.
  destruct (sort_total tasks) as (out & Hout & Hnd & Hin & Hids).
  exists out. split; [exact Hout|]. split; [exact Hnd|].
  split; [exact Hids|]. split; [exact Hin|].
  intros Hdistinct. apply NoDup_Permutation.
  - by apply NoDup_fmap_1 in Hnd.
  - by apply NoDup_fmap_1 in Hdistinct.
  - intros t. split; [apply Hin|].
    intros Ht.
    assert (t_id t ∈ map t_id out) as Hid
      by (apply Hids, list_elem_of_fmap; eauto).
    apply list_elem_of_fmap in Hid as (t' & Heq & Ht').
    assert (t' = t) as <-; [|done].
    pose proof (Hin t' Ht') as Ht'in.
    apply list_elem_of_lookup in Ht as [i Hi].
    apply list_elem_of_lookup in Ht'in as [j Hj].
    assert (i = j) as ->.
    { eapply (NoDup_lookup (map t_id tasks)); [done| |].
      - rewrite list_lookup_fmap, Hi. reflexivity.
      - rewrite list_lookup_fmap, Hj. simpl. by rewrite Heq. }
    congruence.
Qed.

Section StableSort.
Import Resolver.

Context {A : Type} (rank : A -> nat).

Lemma insertByRank_perm x l : insertByRank rank x l ≡ₚ x :: l.
Proof.
  induction l as [|y l IH]; simpl; [done|].
  case_match; [done|]. rewrite IH. apply Permutation_swap.
Qed.

Lemma stableSortBy_perm l : stableSortBy rank l ≡ₚ l.
Proof.
  induction l as [|x l IH]; simpl; [done|].
  unfold stableSortBy in *. simpl. by rewrite insertByRank_perm, IH.
Qed.

Lemma insertByRank_sorted x l :
  StronglySorted (byRank rank) l -> StronglySorted (byRank rank) (insertByRank rank x l).
Proof.
  induction 1 as [|y l Hl IH Hy]; simpl.
  - repeat constructor.
  - destruct (rank x <=? rank y)%nat eqn:Hxy.
    + apply Nat.leb_le in Hxy. constructor; [by constructor|].
      constructor; [exact Hxy|].
      eapply Forall_impl; [exact Hy|]. unfold byRank. intros; lia.
    + apply Nat.leb_gt in Hxy. constructor; [exact IH|].
      rewrite insertByRank_perm. constructor; [unfold byRank; lia|exact Hy].
Qed.

Lemma stableSortBy_sorted l : StronglySorted (byRank rank) (stableSortBy rank l).
Proof.
  induction l as [|x l IH]; [constructor|].
  by apply insertByRank_sorted.
Qed.

Lemma sorted_lookup l i j a b :
  StronglySorted (byRank rank) l ->
  l !! i = Some a -> l !! j = Some b -> (i < j)%nat -> (rank a <= rank b)%nat.
Proof.
  intros Hs. revert i j. induction Hs as [|x l Hl IH Hx]; intros i j Hi Hj Hij.
  - by rewrite lookup_nil in Hi.
  - destruct i as [|i], j as [|j]; simpl in *; try lia.
    + injection Hi as ->. rewrite Forall_forall in Hx.
      apply Hx. by apply list_elem_of_lookup_2 in Hj.
    + apply (IH i j); auto. lia.
Qed.

(** Elements of one rank keep the order they had. *)
Lemma insertByRank_filter (k : nat) x l :
  filter (fun y => rank y = k) (insertByRank rank x l)
  = filter (fun y => rank y = k) (x :: l).
Proof.
  induction l as [|y l IH]; simpl; [done|].
  destruct (rank x <=? rank y)%nat eqn:Hxy; [done|].
  apply Nat.leb_gt in Hxy.
  rewrite (filter_cons _ y), IH, !filter_cons.
  repeat case_decide; try done; lia.
Qed.

Lemma stableSortBy_stable (k : nat) l :
  filter (fun y => rank y = k) (stableSortBy rank l)
  = filter (fun y => rank y = k) l.
Proof.
  induction l as [|x l IH]; [done|].
  unfold stableSortBy in *. simpl.
  by rewrite insertByRank_filter, !filter_cons, IH.
Qed.

End StableSort.

(** X12. The canonical sort of [planQueryExecution] is a stable sort by type:
    it keeps every step, puts a step of an earlier type of the canonical
    order before every step of a later type (types outside the order last),
    and leaves steps of one type in the order they came in. *)
Theorem canonical_sort_by_type (l : list Step) :
  let rank := fun s => Resolver.typeRank (s_type s) in
  let sorted := Resolver.stableSortBy rank l in
  sorted ≡ₚ l /\
  (forall i j a b,
     sorted !! i = Some a -> sorted !! j = Some b ->
     (rank a < rank b)%nat -> (i < j)%nat) /\
  (forall ty, filter (fun s => s_type s = ty) sorted
              = filter (fun s => s_type s = ty) l).
Proof.
  cbv zeta. split; [apply stableSortBy_perm|]. split.
  - intros i j a b Hi Hj Hab.
    destruct (decide (i < j)%nat) as [|Hge]; [done|exfalso].
    destruct (decide (i = j)) as [->|Hne]; [simplify_eq; lia|].
    pose proof (sorted_lookup _ _ j i b a (stableSortBy_sorted _ l) Hj Hi) as H.
    simpl in H. unfold byRank in H.
    assert (j < i)%nat as Hji by lia. specialize (H Hji). lia.
  - intros ty.
    assert (forall m : list Step,
              filter (fun s => s_type s = ty) m
              = filter (fun s => s_type s = ty)
                  (filter (fun s => Resolver.typeRank (s_type s)
                                    = Resolver.typeRank ty) m)) as Hf.
    { intros m. induction m as [|s m IH]; [done|].
      rewrite !filter_cons.
      destruct (decide (s_type s = ty)) as [Hs|Hs].
      - rewrite decide_True by (by rewrite Hs).
        rewrite filter_cons, decide_True by done. by rewrite IH.
      - case_decide; [|done]. by rewrite filter_cons, decide_False. }
    rewrite Hf, stableSortBy_stable, <- Hf. reflexivity.
Qed.

Section Bookends.
Import Resolver.

Lemma typeRank_memory ty : typeRank ty = 0%nat <-> ty = "MEMORY_CHECK".
Proof.
  unfold typeRank, typeOrder. simpl.
  repeat (case_decide; simpl); split; intros; simplify_eq; done.
Qed.

(** The first step of a sorted list has the least rank. *)
Lemma sorted_head_least {A} (rank : A -> nat) l x y :
  head (stableSortBy rank l) = Some x -> y ∈ l -> (rank x <= rank y)%nat.
Proof.
  intros Hx Hy.
  pose proof (stableSortBy_sorted rank l) as Hs.
  rewrite <- (stableSortBy_perm rank l) in Hy.
  destruct (stableSortBy rank l) as [|z l']; [done|].
  injection Hx as ->.
  apply StronglySorted_inv in Hs as [_ Hz].
  apply elem_of_cons in Hy as [->|Hy]; [lia|].
  rewrite Forall_forall in Hz. by apply Hz.
Qed.

End Bookends.

Lemma filter_none {A} (P : A -> Prop) `{!forall x, Decision (P x)} (l : list A) :
  (forall x, x ∈ l -> ~ P x) -> filter P l = [].
Proof.
  induction l as [|x l IH]; intros Hnot; [done|].
  rewrite filter_cons, decide_False by (apply Hnot; by left).
  apply IH. intros y Hy. apply Hnot. by right.
Qed.

(** The steps of the [try] block start with a MEMORY_CHECK step and hold a
    VERIFICATION step.  When the decomposed tasks have no MEMORY_CHECK, the
    steps get exactly one, the bookend, at position 0; when they have no
    VERIFICATION, they get exactly one, the bookend, at the end; no other
    step is added. *)
Lemma planSteps_bookends (decomposedTasks : list Task) :
  let planned := planSteps decomposedTasks in
  let count ty := length (filter (fun s => s_type s = ty) planned) in
  (exists first, head planned = Some first /\ s_type first = "MEMORY_CHECK") /\
  "VERIFICATION" ∈ map s_type planned /\
  ("MEMORY_CHECK" ∉ map t_type decomposedTasks ->
   head planned = Some memoryBookend /\ count "MEMORY_CHECK" = 1%nat) /\
  ("VERIFICATION" ∉ map t_type decomposedTasks ->
   last planned = Some verificationBookend /\ count "VERIFICATION" = 1%nat) /\
  length planned
  = (length decomposedTasks
     + (if bool_decide ("MEMORY_CHECK" ∈ map t_type decomposedTasks) then 0 else 1)
     + (if bool_decide ("VERIFICATION" ∈ map t_type decomposedTasks) then 0 else 1))%nat.
Proof.
  cbv zeta. unfold planSteps.
  set (rank := fun s => Resolver.typeRank (s_type s)).
  set (sorted := Resolver.stableSortBy rank (map stepOfTask decomposedTasks)).
  assert (sorted ≡ₚ map stepOfTask decomposedTasks) as Hperm
    by apply stableSortBy_perm.
  assert (map s_type sorted ≡ₚ map t_type decomposedTasks) as Htypes.
  { rewrite Hperm. clear. induction decomposedTasks; simpl; [done|by f_equiv]. }
  assert (length sorted = length decomposedTasks) as Hlen
    by (by rewrite Hperm, length_map).
  assert (forall ty, ty ∉ map s_type sorted ->
            filter (fun s => s_type s = ty) sorted = []) as Hnone.
  { intros ty Hty. apply filter_none. intros x Hx Heq. apply Hty.
    rewrite <- Heq. apply list_elem_of_fmap. eauto. }
  assert ("MEMORY_CHECK" ∈ map s_type sorted ->
          exists first, head sorted = Some first /\ s_type first = "MEMORY_CHECK")
    as Hfirst.
  { intros (m & Hm & Hin)%list_elem_of_fmap.
    destruct (head sorted) as [first|] eqn:Hhead.
    - exists first. split; [done|]. apply typeRank_memory.
      assert (rank first <= rank m)%nat as Hle.
      { eapply (sorted_head_least rank); [exact Hhead|]. by rewrite <- Hperm. }
      unfold rank in Hle.
      rewrite (proj2 (typeRank_memory (s_type m))) in Hle by done. lia.
    - destruct sorted; [by apply elem_of_nil in Hin|done]. }
  assert (forall ty : string,
            bool_decide (ty ∈ map s_type sorted)
            = bool_decide (ty ∈ map t_type decomposedTasks)) as Hdec.
  { intros ty. apply bool_decide_ext. by rewrite Htypes. }
  rewrite <- !Hdec.
  assert (forall ty, ty ∉ map t_type decomposedTasks -> ty ∉ map s_type sorted)
    as Hback by (intros ty; by rewrite Htypes).
  destruct (decide ("MEMORY_CHECK" ∈ map s_type sorted)) as [Hm|Hm];
    destruct (decide ("VERIFICATION" ∈ map s_type sorted)) as [Hv|Hv];
    rewrite ?(bool_decide_eq_true_2 _ Hm), ?(bool_decide_eq_false_2 _ Hm),
            ?(bool_decide_eq_true_2 _ Hv), ?(bool_decide_eq_false_2 _ Hv).
  - split; [by apply Hfirst|]. split; [done|].
    split; [intros H; by apply Hback in H|].
    split; [intros H; by apply Hback in H|]. lia.
  - split.
    { destruct (Hfirst Hm) as (first & Hh & Ht). exists first.
      split; [|done]. destruct sorted; [done|]. done. }
    split; [rewrite map_app, elem_of_app; right; by left|].
    split; [intros H; by apply Hback in H|].
    split; [|rewrite length_app; simpl; lia].
    intros _. split; [apply last_snoc|].
    rewrite filter_app, (Hnone _ Hv). reflexivity.
  - split; [by eexists|]. split; [by right|].
    split; [|split; [intros H; by apply Hback in H|simpl; lia]].
    intros _. split; [done|].
    rewrite filter_cons, decide_True by done. simpl. by rewrite (Hnone _ Hm).
  - split; [by eexists|].
    split; [rewrite map_app, elem_of_app; right; by left|].
    split; [|split].
    + intros _. split; [done|].
      rewrite filter_app, filter_cons, decide_True by done.
      rewrite (Hnone _ Hm). reflexivity.
    + intros _. split; [apply last_snoc|].
      rewrite (filter_app _ (memoryBookend :: sorted)).
      rewrite filter_cons, decide_False by done.
      rewrite (Hnone _ Hv). reflexivity.
    + simpl. rewrite length_app. simpl. lia.
Qed.

Section Injection.
Import Resolver.

Lemma js_map_of_fmap {V W} (g : V -> W) (l : list (string * V)) :
  js_map_of (map (fun kv => (kv.1, g kv.2)) l) = g <$> js_map_of l.
Proof.
  induction l as [|kv l IH] using rev_ind.
  - unfold js_map_of. simpl. by rewrite fmap_empty.
  - rewrite map_app. simpl. rewrite !js_map_of_snoc. simpl.
    by rewrite fmap_insert, IH.
Qed.

Lemma highestPriority_in best l : highestPriority best l ∈ best :: l.
Proof.
  revert best. induction l as [|t l IH]; intros best; simpl; [by left|].
  case_match.
  - right. apply IH.
  - specialize (IH best). apply elem_of_cons in IH as [->|IH]; [by left|].
    right. by right.
Qed.

Lemma highestPriority_least l : forall best u,
  u ∈ best :: l -> t_priority (highestPriority best l) <= t_priority u.
Proof.
  induction l as [|t l IH]; intros best u Hu; simpl.
  - apply elem_of_cons in Hu as [->|Hu]; [lia|by apply elem_of_nil in Hu].
  - destruct (t_priority t <? t_priority best) eqn:Hlt.
    + apply Z.ltb_lt in Hlt.
      apply elem_of_cons in Hu as [->|Hu]; [|by apply IH].
      pose proof (IH t t ltac:(by left)). lia.
    + apply Z.ltb_ge in Hlt.
      apply elem_of_cons in Hu as [->|Hu]; [apply IH; by left|].
      apply elem_of_cons in Hu as [->|Hu]; [|apply IH; by right].
      pose proof (IH best best ltac:(by left)). lia.
Qed.

(** Each injected id is the id of a task of the plan whose type the
    table requires, of least priority number among the tasks of that type,
    and is injected only when no dependency designates a task of that type. *)
Lemma injected_sound tasks task d :
  d ∈ injected tasks task ->
  exists u,
    u ∈ tasks /\ t_id u = d /\ t_type u ∈ logicalOrder (t_type task) /\
    (forall v, v ∈ tasks -> t_type v = t_type u -> t_priority u <= t_priority v) /\
    alreadyHasDep tasks task (t_type u) = false.
Proof.
  unfold injected. rewrite list_elem_of_In, in_flat_map.
  intros (depType & Hdep & Hd). apply list_elem_of_In in Hdep.
  destruct (tasksByType tasks depType) as [|t0 rest] eqn:Hby; [done|].
  destruct (alreadyHasDep tasks task depType) eqn:Hhas; [done|].
  apply list_elem_of_In, list_elem_of_singleton in Hd.
  pose proof (highestPriority_in t0 rest) as Hin.
  rewrite <- Hby in Hin. unfold tasksByType in Hin.
  apply list_elem_of_filter in Hin as [Hty Hin].
  exists (highestPriority t0 rest). split; [done|]. split; [done|].
  rewrite Hty. split; [done|]. split; [|done].
  intros v Hv Hvt. apply highestPriority_least.
  rewrite <- Hby. unfold tasksByType. apply list_elem_of_filter. by rewrite Hvt.
Qed.

Lemma injected_length tasks task : (length (injected tasks task) <= 2)%nat.
Proof.
  unfold injected, logicalOrder.
  repeat case_decide; simpl; repeat case_match; simpl; lia.
Qed.

End Injection.

(** X14. [enforceLogicalDependencies] only appends: every task keeps its id,
    type, priority and its own dependencies, in place, followed by at most
    two injected ids.  An injected id names a task of the plan of a type the
    table requires for the task, one of least priority number among the
    tasks of that type, and is added only when none of the task's own
    dependencies designates a task of that type. *)
Theorem enforceLogicalDependencies_appends (tasks out : list Task) :
  Resolver.enforceLogicalDependencies tasks = Some out ->
  length out = length tasks /\
  forall i t, tasks !! i = Some t ->
    exists extra,
      out !! i = Some (mkTask (t_id t) (t_type t) (t_dependencies t ++ extra)
                              (t_priority t) (t_optional t)) /\
      (length extra <= 2)%nat /\
      forall d, d ∈ extra ->
        exists u,
          u ∈ tasks /\ t_id u = d /\
          t_type u ∈ Resolver.logicalOrder (t_type t) /\
          (forall v, v ∈ tasks -> t_type v = t_type u ->
                     t_priority u <= t_priority v) /\
          Resolver.alreadyHasDep tasks t (t_type u) = false.
Proof.
  unfold Resolver.enforceLogicalDependencies. case_match; [done|].
  intros [= <-]. split; [by rewrite length_map|].
  intros i t Ht. exists (Resolver.injected tasks t).
  split; [by rewrite list_lookup_fmap, Ht|].
  split; [apply injected_length|]. intros d. apply injected_sound.
Qed.

Lemma existsb_pointwise {A} (f g : A -> bool) (l : list A) :
  (forall x, f x = g x) -> existsb f l = existsb g l.
Proof. intros H. induction l as [|x l IH]; simpl; [done|]. by rewrite H, IH. Qed.

Section Idempotence.
Import Resolver.

Variable tasks : list Task.
Hypothesis Hdistinct : NoDup (map t_id tasks).

Abbreviation enforced := (enforcedTask tasks).

Lemma taskMap_distinct t : t ∈ tasks -> taskMap tasks !! t_id t = Some t.
Proof using Hdistinct.
  intros Ht. unfold taskMap.
  destruct (js_map_of (map (fun t0 => (t_id t0, t0)) tasks) !! t_id t)
    as [v|] eqn:Hv.
  - apply js_map_of_lookup in Hv.
    apply list_elem_of_fmap in Hv as (v' & Heq & Hv'). injection Heq as Hid ->.
    f_equal.
    apply list_elem_of_lookup in Ht as [i Hi].
    apply list_elem_of_lookup in Hv' as [j Hj].
    assert (i = j) as ->; [|congruence].
    eapply (NoDup_lookup (map t_id tasks)); [done| |].
    + rewrite list_lookup_fmap, Hi. reflexivity.
    + rewrite list_lookup_fmap, Hj. simpl. by rewrite Hid.
  - exfalso. apply eq_None_not_Some in Hv. apply Hv.
    apply js_map_of_is_Some. rewrite <- list_fmap_compose.
    apply list_elem_of_fmap. exists t. done.
Qed.

Lemma taskMap_enforced id :
  taskMap (map enforced tasks) !! id = enforced <$> taskMap tasks !! id.
Proof.
  unfold taskMap. rewrite <- lookup_fmap, <- js_map_of_fmap.
  by rewrite <- !list_fmap_compose.
Qed.

Lemma tasksByType_enforced ty :
  tasksByType (map enforced tasks) ty = map enforced (tasksByType tasks ty).
Proof.
  unfold tasksByType.
  generalize enforced (fun t => eq_refl : t_type (enforced t) = t_type t).
  intros f Hf. clear Hdistinct.
  induction tasks as [|t l IH]; [done|].
  simpl. rewrite !filter_cons, Hf.
  destruct (decide (t_type t = ty)); simpl; by rewrite IH.
Qed.

Lemma alreadyHasDep_enforced task ty :
  alreadyHasDep (map enforced tasks) (enforced task) ty
  = alreadyHasDep tasks task ty
    || existsb (fun depId =>
                  match taskMap tasks !! depId with
                  | Some depTask => bool_decide (t_type depTask = ty)
                  | None => false
                  end) (injected tasks task).
Proof.
  unfold alreadyHasDep. simpl. rewrite existsb_app.
  f_equal; apply existsb_pointwise; intros depId; rewrite taskMap_enforced;
    by destruct (taskMap tasks !! depId).
Qed.

Lemma nothing_left_to_inject task :
  task ∈ tasks -> injected (map enforced tasks) (enforced task) = [].
Proof using Hdistinct.
  intros Htask. unfold injected at 1. simpl.
  assert (forall (g : string -> list string) (l : list string),
            (forall x, x ∈ l -> g x = []) -> flat_map g l = []) as Hflat.
  { intros g l. induction l as [|x l IH]; intros Hg; [done|].
    simpl. rewrite Hg by (by left). apply IH. intros y Hy. apply Hg. by right. }
  apply Hflat. intros depType Hdep.
  rewrite tasksByType_enforced.
  destruct (tasksByType tasks depType) as [|t0 rest] eqn:Hby; [done|]. simpl.
  rewrite alreadyHasDep_enforced.
  destruct (alreadyHasDep tasks task depType) eqn:Hhas; [done|]. simpl.
  assert (t_id (highestPriority t0 rest) ∈ injected tasks task) as Hin.
  { unfold injected. rewrite list_elem_of_In, in_flat_map.
    exists depType. split; [by apply list_elem_of_In|].
    rewrite Hby, Hhas. by left. }
  pose proof (highestPriority_in t0 rest) as Hhp.
  rewrite <- Hby in Hhp. unfold tasksByType in Hhp.
  apply list_elem_of_filter in Hhp as [Hty Hhp].
  assert (existsb (fun depId =>
                     match taskMap tasks !! depId with
                     | Some depTask => bool_decide (t_type depTask = depType)
                     | None => false
                     end) (injected tasks task) = true) as ->; [|done].
  apply existsb_exists. exists (t_id (highestPriority t0 rest)).
  split; [by apply list_elem_of_In|].
  rewrite (taskMap_distinct _ Hhp). by apply bool_decide_eq_true_2.
Qed.

Lemma enforce_twice out :
  enforceLogicalDependencies tasks = Some out ->
  enforceLogicalDependencies out = Some out.
Proof using Hdistinct.
  unfold enforceLogicalDependencies.
  destruct (existsb _ tasks) eqn:Hkeys; [done|].
  intros [= <-]. fold (enforcedTask tasks).
  assert (existsb (fun t => bool_decide (t_type t ∈ inheritedKeys))
                  (map enforced tasks) = false) as ->.
  { rewrite <- Hkeys.
    generalize enforced (fun t => eq_refl : t_type (enforced t) = t_type t).
    intros f Hf. clear - Hf. induction tasks as [|t l IH]; [done|].
    simpl. by rewrite IH, Hf. }
  f_equal.
  transitivity (map (fun t => t) (map enforced tasks)); [|apply map_id].
  apply map_ext_in. intros t' Ht'.
  apply list_elem_of_In, list_elem_of_fmap in Ht' as (t & -> & Ht).
  rewrite (nothing_left_to_inject t Ht). simpl. by rewrite app_nil_r.
Qed.

End Idempotence.

(** X15. Dependency injection is idempotent on plans whose ids are distinct:
    running [enforceLogicalDependencies] on its own output adds nothing. *)
Theorem enforceLogicalDependencies_idempotent (tasks out : list Task) :
  NoDup (map t_id tasks) ->
  Resolver.enforceLogicalDependencies tasks = Some out ->
  Resolver.enforceLogicalDependencies out = Some out.
Proof. intros Hd He. by apply (enforce_twice tasks Hd out). Qed.

Lemma enforceLogicalDependencies_appends_witness :
  exists out,
    Resolver.enforceLogicalDependencies Resolver.getDefaultTasks = Some out /\
    (length out = length Resolver.getDefaultTasks /\
     forall i t, Resolver.getDefaultTasks !! i = Some t ->
       exists extra,
         out !! i = Some (mkTask (t_id t) (t_type t) (t_dependencies t ++ extra)
                                 (t_priority t) (t_optional t)) /\
         (length extra <= 2)%nat /\
         forall d, d ∈ extra ->
           exists u,
             u ∈ Resolver.getDefaultTasks /\ t_id u = d /\
             t_type u ∈ Resolver.logicalOrder (t_type t) /\
             (forall v, v ∈ Resolver.getDefaultTasks -> t_type v = t_type u ->
                        t_priority u <= t_priority v) /\
             Resolver.alreadyHasDep Resolver.getDefaultTasks t (t_type u) = false).
Proof.
  eexists. split; [vm_compute; reflexivity|].
  apply (enforceLogicalDependencies_appends Resolver.getDefaultTasks).
  vm_compute. reflexivity.
Defined.

Lemma enforceLogicalDependencies_idempotent_witness :
  exists out,
    Resolver.enforceLogicalDependencies Resolver.getDefaultTasks = Some out /\
    Resolver.enforceLogicalDependencies out = Some out.
Proof.
  eexists. split; [vm_compute; reflexivity|].
  apply (enforceLogicalDependencies_idempotent Resolver.getDefaultTasks).
  - apply (bool_decide_unpack _). vm_compute. exact I.
  - vm_compute. reflexivity.
Defined.

(* ===================================================================== *)
(** * Further properties of the Step Executor                             *)
(* ===================================================================== *)

Section Fuel.

Variable clock : nat -> Z.
Variable collab : nat -> Call -> Res Result.

Lemma validate_missing step plan fixable missing :
  validateStepInputs step plan = Invalid fixable missing ->
  fixable = true /\ (fixNeed missing < fixNeed (s_type step))%nat.
Proof.
  unfold validateStepInputs.
  repeat case_decide; repeat case_match; intros Heq; try discriminate;
    injection Heq as <- <-; (split; [reflexivity|]);
    match goal with H : s_type step = _ |- _ => rewrite H end;
    vm_compute; lia.
Qed.

Lemma splice_lookup {A} (l : list A) i x y :
  l !! i = Some y -> splice i x l !! i = Some x.
Proof.
  intros Hy. unfold splice. apply lookup_lt_Some in Hy.
  rewrite lookup_app_r by (rewrite length_take; lia).
  rewrite length_take. replace (i - i `min` length l)%nat with 0%nat by lia.
  reflexivity.
Qed.

(** One level of [executeNextStep]. *)
Lemma executeNextStep_unfold fuel plan context :
  executeNextStep clock collab (S fuel) plan context
  = match steps plan !! currentStepIndex plan with
    | None =>
        mret (Some (mkPlan (query plan) (steps plan) (currentStepIndex plan)
                           (planResults plan) true (lastStepSuccessful plan)
                           (skippedStep plan) (usedAlternative plan)
                           (planError plan) (startTime plan)))
    | Some currentStep =>
        let taskId := stepTaskId currentStep (currentStepIndex plan) in
        logTaskExecution taskId;;
        match validateStepInputs currentStep plan with
        | Invalid true missingStep =>
            let fixStep := createFixingStep currentStep missingStep in
            let plan' :=
              mkPlan (query plan)
                     (splice (currentStepIndex plan) fixStep (steps plan))
                     (currentStepIndex plan) (planResults plan) (completed plan)
                     (lastStepSuccessful plan) (skippedStep plan)
                     (usedAlternative plan) (planError plan) (startTime plan) in
            initializePlan clock (steps plan');;
            executeNextStep clock collab fuel plan' context
        | Invalid false _ =>
            updateTaskState clock taskId SKIPPED;;
            mret (Some (mkPlan (query plan) (steps plan)
                               (S (currentStepIndex plan)) (planResults plan)
                               (completed plan) (Some false) true
                               (usedAlternative plan) (planError plan) (startTime plan)))
        | Valid =>
            Some <$>
            tryCatch
              (updateTaskState clock taskId IN_PROGRESS;;
               stepResult ← dispatch collab currentStep plan context;
               recordSuccess clock taskId stepResult;;
               mret (advance plan
                       (planResults plan ++
                          [mkResultEntry currentStep stepResult None])%list
                       true false false None))
              (recover clock collab currentStep taskId plan context)
        end
    end.
Proof. reflexivity. Qed.

(** One call more than the number of fixing steps the current step can
    need is never used up. *)
Lemma executeNextStep_fuel fuel : forall plan context w,
  (forall step, steps plan !! currentStepIndex plan = Some step ->
                (fixNeed (s_type step) <= fuel)%nat) ->
  (executeNextStep clock collab (S fuel) plan context w).1 <> Ok None.
Proof.
  induction fuel as [|fuel IH]; intros plan context w Hneed;
    rewrite executeNextStep_unfold;
    (destruct (steps plan !! currentStepIndex plan) as [step|] eqn:Hstep;
      [|by munfold]);
    specialize (Hneed step eq_refl); cbv zeta; munfold;
    (destruct (logTaskExecution _ w) as [[[]|e] w0]; [|done]);
    (destruct (validateStepInputs step plan) as [|fixable missing] eqn:Hv;
     [ destruct (updateTaskState clock _ IN_PROGRESS w0) as [[b|e] w1]; cbn [fst snd];
       [ destruct (dispatch collab step plan context w1) as [[r|e] w2]; cbn [fst snd];
         [ destruct (recordSuccess clock _ r w2) as [[b'|e] w3]; cbn [fst snd]; [done|];
           by destruct (recover clock collab step _ plan context e w3)
             as [[p|e'] w4]
         | by destruct (recover clock collab step _ plan context e w2)
             as [[p|e'] w4] ]
       | by destruct (recover clock collab step _ plan context e w1)
           as [[p|e'] w4] ]
     | destruct (validate_missing step plan fixable missing Hv) as [-> Hlt] ]).
  - lia.
  - destruct (initializePlan clock _ w0) as [[[]|e] w1]; [|done]. cbn [fst snd].
    apply IH. cbn [steps currentStepIndex]. intros step' Hstep'.
    rewrite (splice_lookup _ _ _ _ Hstep) in Hstep'. injection Hstep' as <-.
    cbn [createFixingStep s_type]. lia.
Qed.

End Fuel.

(** X16. A call of [executeNextStep] inserts at most three fixing steps
    before it runs one, so the recursion on fixing steps always ends: with
    room for four nested calls the executor never runs out. *)
Theorem executeNextStep_terminates (clock : nat -> Z)
    (collab : nat -> Call -> Res Result) (plan : Plan) (context : Context)
    (w : World) :
  (executeNextStep clock collab 4 plan context w).1 <> Ok None.
Proof.
  apply executeNextStep_fuel. intros step _. unfold fixNeed.
  repeat case_decide; lia.
Qed.

Section Advance.

Variable clock : nat -> Z.
Variable collab : nat -> Call -> Res Result.

Lemma advance_advancedFrom plan step newResults a b c d :
  (newResults = planResults plan \/
   exists r alt, newResults = (planResults plan ++ [mkResultEntry step r alt])%list) ->
  advancedFrom plan (advance plan newResults a b c d) step.
Proof. intros H. unfold advancedFrom, advance. simpl. auto. Qed.

(** Whatever the recovery does, the plan it returns has moved on by one. *)
Lemma recover_advances step taskId plan context e w plan' w' :
  recover clock collab step taskId plan context e w = (Ok plan', w') ->
  advancedFrom plan plan' step.
Proof.
  unfold recover. munfold.
  destruct (recordFailure clock taskId (s_type step) e w) as [[b|e0] w1]; [|done].
  destruct (suggestAlternativeApproach taskId context w1) as [alt|e0]; [|done].
  assert (forall w2 p w3,
            (if s_optional step
             then fun w : World =>
                  match updateTaskState clock taskId SKIPPED w with
                  | (Ok _, w4) =>
                      (Ok (advance plan (planResults plan) false true false None), w4)
                  | (Throw e1, w4) => (Throw e1, w4)
                  end
             else fun w : World =>
                  (Ok (advance plan (planResults plan) false false false
                               (Some (message e))), w)) w2 = (Ok p, w3) ->
            advancedFrom plan p step) as Hrest.
  { intros w2 p w3. destruct (s_optional step).
    - destruct (updateTaskState clock taskId SKIPPED w2) as [[b'|e1] w4]; [|done].
      intros [= <- <-]. apply advance_advancedFrom. by left.
    - intros [= <- <-]. apply advance_advancedFrom. by left. }
  destruct alt as [alt|]; [|apply Hrest].
  case_bool_decide; [|apply Hrest].
  destruct (dispatchAlternative collab (approach alt) w1) as [[r|e1] w2].
  - destruct (recordSuccess clock taskId r w2) as [[b'|e1] w3].
    + intros [= <- <-]. apply advance_advancedFrom. right. eauto.
    + destruct (recordFailure clock taskId (approach alt) e1 w3) as [[b''|e2] w4];
        [apply Hrest|done].
  - destruct (recordFailure clock taskId (approach alt) e1 w2) as [[b''|e2] w4];
      [apply Hrest|done].
Qed.

(** The same for a step whose inputs were valid. *)
Lemma valid_step_advances step plan context w plan' w' :
  tryCatch
    (updateTaskState clock (stepTaskId step (currentStepIndex plan)) IN_PROGRESS;;
     stepResult ← dispatch collab step plan context;
     recordSuccess clock (stepTaskId step (currentStepIndex plan)) stepResult;;
     mret (advance plan
             (planResults plan ++ [mkResultEntry step stepResult None])%list
             true false false None))
    (recover clock collab step (stepTaskId step (currentStepIndex plan)) plan context)
    w = (Ok plan', w') ->
  advancedFrom plan plan' step.
Proof.
  munfold.
  destruct (updateTaskState clock _ IN_PROGRESS w) as [[b|e] w1];
    [|apply recover_advances].
  destruct (dispatch collab step plan context w1) as [[r|e] w2];
    [|apply recover_advances].
  destruct (recordSuccess clock _ r w2) as [[b'|e] w3];
    [|apply recover_advances].
  intros [= <- <-]. apply advance_advancedFrom. right. eauto.
Qed.

End Advance.

Section Shape.

Variable clock : nat -> Z.
Variable collab : nat -> Call -> Res Result.

Lemma splice_take {A} (l : list A) i x y :
  l !! i = Some y -> take i (splice i x l) = take i l.
Proof.
  intros Hy. unfold splice. apply lookup_lt_Some in Hy.
  rewrite take_app_le by (rewrite length_take; lia).
  rewrite take_take. f_equal. lia.
Qed.

Lemma splice_drop {A} (l : list A) i x y :
  l !! i = Some y -> drop i (splice i x l) = x :: drop i l.
Proof.
  intros Hy. unfold splice. apply lookup_lt_Some in Hy.
  rewrite drop_app_ge by (rewrite length_take; lia).
  rewrite length_take. replace (i - i `min` length l)%nat with 0%nat by lia.
  reflexivity.
Qed.

Lemma executeNextStep_shape fuel : forall plan context w plan' w' step,
  steps plan !! currentStepIndex plan = Some step ->
  executeNextStep clock collab fuel plan context w = (Ok (Some plan'), w') ->
  exists fixes executed,
    (length fixes <= fixNeed (s_type step))%nat /\
    Forall (fun f => s_optional f = false /\
                     s_dependencies f = Some (default [] (s_dependencies step))) fixes /\
    steps plan' = (take (currentStepIndex plan) (steps plan) ++ fixes ++
                   drop (currentStepIndex plan) (steps plan))%list /\
    steps plan' !! currentStepIndex plan = Some executed /\
    currentStepIndex plan' = S (currentStepIndex plan) /\
    query plan' = query plan /\
    (planResults plan' = planResults plan \/
     exists r alt,
       planResults plan' = (planResults plan ++ [mkResultEntry executed r alt])%list) /\
    completed plan' = (length (steps plan') <=? currentStepIndex plan')%nat.
Proof.
  induction fuel as [|fuel IH]; intros plan context w plan' w' step Hstep; [done|].
  rewrite executeNextStep_unfold, Hstep. cbv zeta. munfold.
  destruct (logTaskExecution _ w) as [[[]|e] w0]; [|done].
  destruct (validateStepInputs step plan) as [|fixable missing] eqn:Hv.
  - match goal with
    | |- (let (rr, ww) := ?X in _) = _ -> _ =>
        destruct X as [[p|e] w1] eqn:Hrun; [|done]
    end.
    intros [= ? ?]; subst.
    apply (valid_step_advances clock collab) in Hrun.
    destruct Hrun as (Hidx & Hsteps & Hq & Hres & Hc).
    exists [], step. rewrite Hsteps, Hidx. cbn [app length].
    rewrite take_drop. split; [lia|]. split; [constructor|]. done.
  - destruct (validate_missing step plan fixable missing Hv) as [-> Hlt].
    destruct (initializePlan clock _ w0) as [[[]|e] w1]; [|done].
    intros Hrec.
    eapply IH in Hrec; [|cbn [steps currentStepIndex]; by eapply splice_lookup].
    cbn [steps currentStepIndex query planResults] in Hrec.
    destruct Hrec as (fixes & executed & Hlen & Hall & Hsteps & Hex & Hidx & Hq & Hres & Hc).
    rewrite (splice_take _ _ _ _ Hstep), (splice_drop _ _ _ _ Hstep) in Hsteps.
    exists (fixes ++ [createFixingStep step missing])%list, executed.
    cbn [createFixingStep s_type s_dependencies default] in Hlen, Hall.
    split; [rewrite length_app; cbn [length]; lia|].
    split.
    { apply Forall_app. split.
      - eapply Forall_impl; [exact Hall|]. cbv beta. intros f [Ho Hd]. done.
      - constructor; [|constructor]. done. }
    split; [rewrite Hsteps, <- !app_assoc; reflexivity|]. done.
Qed.

End Shape.

(** X17. A call of [executeNextStep] that returns a plan while the cursor is
    on a step leaves the cursor exactly one further.  In front of that step
    it has inserted at most three fixing steps, all mandatory and with the
    step's own dependencies, and nothing else of the step list has changed;
    the step now at the old cursor is the one it ran, and the results are as
    before or longer by one entry, for that step.  [completed] says whether
    the cursor has passed the last step. *)
Theorem executeNextStep_shape_of_result (clock : nat -> Z)
    (collab : nat -> Call -> Res Result) (plan : Plan) (context : Context)
    (w : World) (plan' : Plan) (w' : World) (step : Step) :
  steps plan !! currentStepIndex plan = Some step ->
  executeNextStep clock collab 4 plan context w = (Ok (Some plan'), w') ->
  exists fixes executed,
    (length fixes <= 3)%nat /\
    Forall (fun f => s_optional f = false /\
                     s_dependencies f = Some (default [] (s_dependencies step))) fixes /\
    steps plan' = (take (currentStepIndex plan) (steps plan) ++ fixes ++
                   drop (currentStepIndex plan) (steps plan))%list /\
    steps plan' !! currentStepIndex plan = Some executed /\
    currentStepIndex plan' = S (currentStepIndex plan) /\
    query plan' = query plan /\
    (planResults plan' = planResults plan \/
     exists r alt,
       planResults plan' = (planResults plan ++ [mkResultEntry executed r alt])%list) /\
    completed plan' = (length (steps plan') <=? currentStepIndex plan')%nat.
Proof.
  intros Hstep Hrun.
  destruct (executeNextStep_shape clock collab _ _ _ _ _ _ _ Hstep Hrun)
    as (fixes & executed & Hlen & Hrest).
  exists fixes, executed. split; [|exact Hrest].
  etrans; [exact Hlen|]. unfold fixNeed. repeat case_decide; lia.
Qed.

Lemma executeNextStep_shape_of_result_witness :
  exists plan' w',
    executeNextStep exampleClock alwaysAnswers 4 verificationAlone exampleContext
      verificationAloneWorld = (Ok (Some plan'), w') /\
    map s_type (steps plan')
    = ["TOOL_SELECTION"; "INFORMATION_GATHERING"; "SYNTHESIS"; "VERIFICATION"] /\
    exists fixes executed,
      (length fixes <= 3)%nat /\
      Forall (fun f => s_optional f = false /\
                       s_dependencies f = Some (default [] (Some []))) fixes /\
      steps plan' = (take 0 (steps verificationAlone) ++ fixes ++
                     drop 0 (steps verificationAlone))%list /\
      steps plan' !! 0%nat = Some executed /\
      currentStepIndex plan' = 1%nat /\
      query plan' = "q" /\
      (planResults plan' = [] \/
       exists r alt, planResults plan' = ([] ++ [mkResultEntry executed r alt])%list) /\
      completed plan' = (length (steps plan') <=? currentStepIndex plan')%nat.
Proof.
  eexists _, _. split; [vm_compute; reflexivity|].
  split; [reflexivity|].
  refine (executeNextStep_shape_of_result exampleClock alwaysAnswers verificationAlone
            exampleContext verificationAloneWorld _ _
            (mkStep (Some "t1") "VERIFICATION" (Some []) (Some 1) false) _ _);
    vm_compute; reflexivity.
Defined.

(** X18. Once the cursor is past the last step a call of [executeNextStep]
    only sets [completed]: it registers nothing, records nothing and calls no
    collaborator, and however many further calls the driver makes, the plan
    and the State Manager stay as they are. *)
Theorem executeNextStep_past_the_end (clock : nat -> Z)
    (collab : nat -> Call -> Res Result) (plan : Plan) (context : Context)
    (w : World) (n : nat) :
  (length (steps plan) <= currentStepIndex plan)%nat ->
  runSteps clock collab (S n) plan context w = (Ok (Some (markCompleted plan)), w).
Proof.
  intros Hend.
  assert (forall p, steps p !! currentStepIndex p = None ->
            executeNextStep clock collab 4 p context w
            = (Ok (Some (markCompleted p)), w)) as Hone.
  { intros p Hp. rewrite executeNextStep_unfold, Hp. reflexivity. }
  assert (forall k p, steps p !! currentStepIndex p = None -> completed p = true ->
            runSteps clock collab k p context w = (Ok (Some p), w)) as Hmore.
  { induction k as [|k IH]; intros p Hp Hc; [reflexivity|].
    rewrite runSteps_S, Hone by exact Hp.
    replace (markCompleted p) with p by (destruct p; simpl in Hc; by subst).
    munfold. by apply IH. }
  apply lookup_ge_None_2 in Hend.
  rewrite runSteps_S, Hone by exact Hend. munfold.
  apply Hmore; [exact Hend|reflexivity].
Qed.

Lemma executeNextStep_past_the_end_witness :
  runSteps exampleClock alwaysDown 5
    (mkPlan "q" [exampleStep] 1 [] false (Some true) false false None 0)
    exampleContext plannedOnce
  = (Ok (Some (mkPlan "q" [exampleStep] 1 [] true (Some true) false false None 0)),
     plannedOnce).
Proof.
  apply (executeNextStep_past_the_end exampleClock alwaysDown
           (mkPlan "q" [exampleStep] 1 [] false (Some true) false false None 0)
           exampleContext plannedOnce 4).
  simpl. lia.
Defined.

Section Returns.

Lemma returns_ret {A} (a : A) : returns (mret a).
Proof. intros w Hw. by exists a, w. Qed.

Lemma returns_bind {A B} (m : M A) (k : A -> M B) :
  returns m -> (forall a, returns (k a)) -> returns (m ≫= k).
Proof.
  intros Hm Hk w Hw. destruct (Hm w Hw) as (a & w1 & E & Hw1).
  destruct (Hk a w1 Hw1) as (b & w2 & E2 & Hw2).
  exists b, w2. munfold. by rewrite E, E2.
Qed.

Lemma returns_fmap {A B} (f : A -> B) (m : M A) : returns m -> returns (f <$> m).
Proof.
  intros Hm w Hw. destruct (Hm w Hw) as (a & w1 & E & Hw1).
  exists (f a), w1. munfold. by rewrite E.
Qed.

Lemma returns_throws {A} (m : M A) : returns m -> throwsMessages m.
Proof.
  intros Hm w Hw. destruct (Hm w Hw) as (a & w1 & E & Hw1). by rewrite E.
Qed.

Lemma throws_throw {A} e : truthy_str (message e) = true -> throwsMessages (@throw A e).
Proof. intros He w Hw. by split. Qed.

Lemma throws_bind {A B} (m : M A) (k : A -> M B) :
  throwsMessages m -> (forall a, throwsMessages (k a)) -> throwsMessages (m ≫= k).
Proof.
  intros Hm Hk w Hw. specialize (Hm w Hw). munfold.
  destruct (m w) as [[a|e] w1]; simpl in Hm; [|exact Hm].
  destruct Hm as [Hw1 _]. apply (Hk a w1 Hw1).
Qed.

Lemma throws_tryCatch {A} (m : M A) (h : Thrown -> M A) :
  throwsMessages m -> (forall e, throwsMessages (h e)) -> throwsMessages (tryCatch m h).
Proof.
  intros Hm Hh w Hw. specialize (Hm w Hw). munfold.
  destruct (m w) as [[a|e] w1]; simpl in Hm; [exact Hm|].
  destruct Hm as [Hw1 _]. apply (Hh e w1 Hw1).
Qed.

Lemma returns_tryCatch {A} (m : M A) (h : Thrown -> M A) :
  throwsMessages m ->
  (forall e, truthy_str (message e) = true -> returns (h e)) ->
  returns (tryCatch m h).
Proof.
  intros Hm Hh w Hw. specialize (Hm w Hw). munfold.
  destruct (m w) as [[a|e] w1]; simpl in Hm; destruct Hm as [Hw1 He].
  - by exists a, w1.
  - apply (Hh e He w1 Hw1).
Qed.

Lemma intact_same w w' :
  tasks w' = tasks w -> heap w' = heap w -> intact w -> intact w'.
Proof. unfold intact. by intros -> ->. Qed.

Lemma intact_states w :
  intact w -> map_Forall (fun _ e => is_Some (stateOf e)) (tasks w).
Proof.
  intros [Ht _] k e He. specialize (Ht k e He). simpl in Ht.
  destruct e; [by eexists|done].
Qed.

Lemma returns_get : returns get.
Proof. intros w Hw. by exists w, w. Qed.

Lemma returns_modify (f : World -> World) :
  (forall w, intact w -> intact (f w)) -> returns (modify f).
Proof. intros Hf w Hw. exists tt, (f w). split; [reflexivity|by apply Hf]. Qed.

End Returns.

Section Soundness.

Variable clock : nat -> Z.
Variable collab : nat -> Call -> Res Result.

Lemma returns_now : returns (now clock).
Proof.
  intros w Hw. eexists _, _. split; [reflexivity|].
  by apply (intact_same w).
Qed.

Lemma returns_createCheckpoint name : returns (createCheckpoint clock name).
Proof.
  intros w Hw. unfold createCheckpoint, now, setCheckpoints. munfold. simpl.
  rewrite bool_decide_true by by apply intact_states.
  eexists _, _. split; [reflexivity|]. by apply (intact_same w).
Qed.

Lemma returns_updateTaskState taskId s : returns (updateTaskState clock taskId s).
Proof.
  intros w Hw.
  destruct (updateTaskState_spec clock taskId s w)
    as ([b Hb] & _ & _ & _ & Hh & _ & Ht).
  destruct (updateTaskState clock taskId s w) as [res w1]. simpl in *. subst res.
  exists b, w1. split; [reflexivity|]. destruct Hw as [Hwt Hwh].
  split; [|by rewrite Hh].
  destruct Ht as [->|(e & r & _ & _ & _ & _ & ->)]; [done|].
  by apply map_Forall_insert_2.
Qed.

Lemma returns_recordSuccess taskId r : returns (recordSuccess clock taskId r).
Proof.
  unfold recordSuccess.
  apply returns_bind; [apply returns_updateTaskState|intros _].
  apply returns_bind; [|intros _].
  { apply returns_modify. intros w. by apply intact_same. }
  apply returns_bind; [apply returns_createCheckpoint|intros _].
  apply returns_ret.
Qed.

Lemma errorValue_message e :
  truthy_str (message e) = true -> isMessage (errorValue e) = true.
Proof. unfold errorValue. by intros ->. Qed.

Lemma returns_recordFailure taskId a e :
  truthy_str (message e) = true -> returns (recordFailure clock taskId a e).
Proof.
  intros He. unfold recordFailure.
  apply returns_bind; [apply returns_updateTaskState|intros _].
  apply returns_bind; [apply returns_get|intros w0].
  apply returns_bind.
  { destruct (approaches w0 !! taskId); [apply returns_ret|].
    apply returns_bind; [|intros _].
    { apply returns_modify. intros w [Ht Hh]. split; [exact Ht|]. simpl.
      by apply map_Forall_insert_2. }
    apply returns_bind; [|intros _; apply returns_ret].
    apply returns_modify. intros w. by apply intact_same. }
  intros l.
  apply returns_bind; [apply returns_now|intros t].
  apply returns_bind; [|intros _].
  { apply returns_modify. intros w [Ht Hh]. split; [exact Ht|]. simpl.
    unfold heapPush. apply map_Forall_insert_2; [|exact Hh].
    apply Forall_app. split.
    - destruct (heap w !! l) as [h|] eqn:Hl; simpl; [|constructor].
      exact (Hh l h Hl).
    - constructor; [|constructor]. simpl. by apply errorValue_message. }
  apply returns_bind; [apply returns_createCheckpoint|intros _].
  apply returns_ret.
Qed.

Lemma registered_objects (l : list (nat * Step)) : forall m : gmap string Entry,
  map_Forall (fun _ e => isObject e = true) m ->
  map_Forall (fun _ e => isObject e = true)
    (foldl (fun m '(index, step) =>
              let taskId := stepTaskId step index in
              <[taskId := EObj (mkTaskRec (Some step) (Some taskId) PENDING
                                          None None None)]> m) m l).
Proof.
  induction l as [|[i s] l IH]; intros m Hm; [exact Hm|].
  cbn [foldl]. apply IH. by apply map_Forall_insert_2.
Qed.

Lemma returns_initializePlan planSteps : returns (initializePlan clock planSteps).
Proof.
  unfold initializePlan.
  apply returns_bind; [|intros _; apply returns_createCheckpoint].
  apply returns_modify. intros w [Ht Hh]. split; [|exact Hh].
  simpl. by apply registered_objects.
Qed.

Lemma returns_logTaskExecution taskId : returns (logTaskExecution taskId).
Proof.
  intros w Hw. unfold logTaskExecution, getTaskStatus. munfold.
  exists tt, w. split; [|exact Hw].
  destruct (tasks w !! taskId) as [e|]; [|reflexivity].
  destruct (negb (truthyEntry e)); [reflexivity|].
  by rewrite bool_decide_true by by apply intact_states.
Qed.

Lemma messages_only (h : list Failure) :
  Forall (fun f => isMessage (f_error f) = true) h ->
  exists msgs, map f_error h = map ErrMsg msgs.
Proof.
  induction 1 as [|f h Hf _ [msgs IH]]; [by exists []|].
  destruct (f_error f) as [m|] eqn:E; [|done].
  exists (m :: msgs). simpl. by rewrite E, IH.
Qed.

Lemma returns_suggestAlternativeApproach taskId context :
  returns (liftRes (suggestAlternativeApproach taskId context)).
Proof.
  intros w Hw. munfold.
  assert (exists s, suggestAlternativeApproach taskId context w = Ok s) as [s Hs];
    [|rewrite Hs; by exists s, w].
  unfold suggestAlternativeApproach.
  destruct (tasks w !! taskId) as [e|]; [|by eauto].
  destruct (negb (truthyEntry e)); [by eauto|].
  assert (exists msgs, map f_error (default [] (failureHistory w taskId))
                       = map ErrMsg msgs) as [msgs ->].
  { apply messages_only. unfold failureHistory.
    destruct (approaches w !! taskId) as [l|]; simpl; [|constructor].
    destruct (heap w !! l) as [h|] eqn:Hl; simpl; [|constructor].
    destruct Hw as [_ Hh]. exact (Hh l h Hl). }
  rewrite !someError_messages.
  repeat case_match; eauto.
Qed.

Section Speaking.

Hypothesis Hspeaking : speaking collab.

Lemma throws_callCollab c : throwsMessages (callCollab collab c).
Proof.
  intros w Hw. rewrite callCollab_unfold. simpl. split.
  - by apply (intact_same w).
  - destruct (collab (calls w) c) as [r|e] eqn:E; [done|].
    by apply (Hspeaking _ _ _ E).
Qed.

Lemma returns_caught m : throwsMessages m -> returns (caught m).
Proof.
  intros Hm. apply returns_tryCatch; [exact Hm|]. intros e _. apply returns_ret.
Qed.

Lemma returns_executeDirectSynthesis : returns (executeDirectSynthesis collab).
Proof.
  apply returns_caught. apply throws_bind; [apply throws_callCollab|].
  intros r. apply returns_throws, returns_ret.
Qed.

Lemma throws_dispatch step plan context :
  throwsMessages (dispatch collab step plan context).
Proof.
  rewrite dispatch_unfold. repeat case_decide.
  - apply throws_callCollab.
  - apply throws_bind; [apply throws_callCollab|].
    intros r. apply returns_throws, returns_ret.
  - apply throws_bind.
    + unfold prioritizeTools.
      repeat case_match;
        first [apply returns_throws, returns_ret | by apply throws_throw].
    + intros _. apply throws_bind; [apply throws_callCollab|].
      intros r. apply returns_throws, returns_ret.
  - apply returns_throws, returns_caught, throws_callCollab.
  - apply returns_throws. unfold executeSynthesis.
    repeat case_match;
      first [apply returns_ret | apply returns_executeDirectSynthesis].
  - apply returns_throws. unfold executeVerification.
    repeat case_match; apply returns_ret.
  - apply returns_throws, returns_ret.
Qed.

Lemma throws_executeToolWithName name :
  throwsMessages (executeToolWithName collab name).
Proof.
  apply throws_tryCatch; [apply throws_callCollab|].
  intros e. by apply throws_throw.
Qed.

Lemma throws_dispatchAlternative name :
  throwsMessages (dispatchAlternative collab name).
Proof.
  unfold dispatchAlternative. repeat case_decide;
    first [ apply throws_executeToolWithName
          | apply returns_throws, returns_caught, throws_callCollab
          | apply returns_throws, returns_executeDirectSynthesis
          | apply returns_throws, returns_ret ].
Qed.

Lemma returns_recover step taskId plan context e :
  truthy_str (message e) = true ->
  returns (recover clock collab step taskId plan context e).
Proof.
  intros He. unfold recover.
  apply returns_bind; [by apply returns_recordFailure|intros _].
  apply returns_bind; [apply returns_suggestAlternativeApproach|intros alt].
  apply returns_bind.
  - destruct alt as [alt|]; [|apply returns_ret].
    case_bool_decide; [|apply returns_ret].
    apply returns_tryCatch.
    + apply throws_bind; [apply throws_dispatchAlternative|intros r].
      apply throws_bind; [apply returns_throws, returns_recordSuccess|intros _].
      apply returns_throws, returns_ret.
    + intros e' He'.
      apply returns_bind; [by apply returns_recordFailure|intros _].
      apply returns_ret.
  - intros [p|]; [apply returns_ret|].
    destruct (s_optional step); [|apply returns_ret].
    apply returns_bind; [apply returns_updateTaskState|intros _].
    apply returns_ret.
Qed.

Lemma returns_executeNextStep fuel : forall plan context,
  returns (executeNextStep clock collab fuel plan context).
Proof.
  induction fuel as [|fuel IH]; intros plan context; [apply returns_ret|].
  rewrite executeNextStep_unfold.
  destruct (steps plan !! currentStepIndex plan) as [step|]; [|apply returns_ret].
  cbv zeta.
  apply returns_bind; [apply returns_logTaskExecution|intros _].
  destruct (validateStepInputs step plan) as [|[|] missing].
  - apply returns_fmap, returns_tryCatch.
    + apply throws_bind; [apply returns_throws, returns_updateTaskState|intros _].
      apply throws_bind; [apply throws_dispatch|intros r].
      apply throws_bind; [apply returns_throws, returns_recordSuccess|intros _].
      apply returns_throws, returns_ret.
    + intros e He. by apply returns_recover.
  - apply returns_bind; [apply returns_initializePlan|intros _]. apply IH.
  - apply returns_bind; [apply returns_updateTaskState|intros _].
    apply returns_ret.
Qed.

Lemma returns_executeNextStep_plan plan context w :
  intact w ->
  exists plan' w',
    executeNextStep clock collab 4 plan context w = (Ok (Some plan'), w') /\
    intact w'.
Proof.
  intros Hw.
  destruct (returns_executeNextStep 4 plan context w Hw) as ([p|] & w' & E & Hw').
  - by exists p, w'.
  - assert ((executeNextStep clock collab 4 plan context w).1 <> Ok None) as Hfuel.
    { apply executeNextStep_fuel. intros step _. unfold fixNeed.
      repeat case_decide; lia. }
    by rewrite E in Hfuel.
Qed.

End Speaking.

End Soundness.

Section NeverThrows.

Variable clock : nat -> Z.
Variable collab : nat -> Call -> Res Result.
Hypothesis Hspeaking : speaking collab.


End NeverThrows.

Lemma intact_newManager : intact newManager.
Proof. split; apply map_Forall_empty. Qed.

(** A new manager after one reading of the clock. *)
Lemma intact_started : intact (mkWorld ∅ ∅ ∅ [] ∅ 1 0).
Proof. split; apply map_Forall_empty. Qed.

(** [initializePlan] in it: the steps are registered and the one checkpoint
    is [plan_initialized]. *)
Lemma initializePlan_started clock planSteps :
  exists w,
    initializePlan clock planSteps (mkWorld ∅ ∅ ∅ [] ∅ 1 0) = (Ok tt, w) /\
    intact w /\
    tasks w = registered planSteps /\
    map cp_name (checkpoints w) = ["plan_initialized"].
Proof.
  destruct (returns_initializePlan clock planSteps _ intact_started)
    as ([] & w & E & Hw).
  exists w. split; [exact E|]. split; [exact Hw|].
  revert E. rewrite initializePlan_unfold.
  match goal with
  | |- context [createCheckpoint ?c ?n ?v] =>
      pose proof (createCheckpoint_spec c n v) as Hcp;
      destruct (createCheckpoint c n v) as [[[]|e] w5]
  end; [|done].
  intros [= <-]. simpl in Hcp.
  destruct Hcp as (Htk & _ & _ & _ & _ & _ & [(_ & _ & ->)|([e He] & _)]);
    [|done].
  split; [exact Htk|reflexivity].
Qed.

(** The [try] block of [planQueryExecution] returns its plan, with an intact
    manager. *)
Lemma planFromTasks_intact clock q decomposedTasks :
  exists w,
    planFromTasks clock q decomposedTasks newManager
    = (Ok (mkPlan q (planSteps decomposedTasks) O [] false None false false None
                  (clock O)), w)
    /\ intact w
    /\ tasks w = registered (planSteps decomposedTasks)
    /\ map cp_name (checkpoints w) = ["plan_initialized"].
Proof.
  destruct (initializePlan_started clock (planSteps decomposedTasks))
    as (w & E & Hw).
  exists w. split; [|exact Hw].
  unfold planFromTasks, newStateManager. munfold. unfold now, newManager.
  cbn [steps ticks calls tasks results approaches checkpoints heap].
  rewrite E. reflexivity.
Qed.

(** So does the [catch] block. *)
Lemma planFromDefaultSteps_intact clock q error :
  exists w,
    planFromDefaultSteps clock q error newManager
    = (Ok (mkPlan q getDefaultSteps O [] false None false false
                  (Some (message error)) (clock O)), w)
    /\ intact w
    /\ tasks w = registered getDefaultSteps
    /\ map cp_name (checkpoints w) = ["plan_initialized"].
Proof.
  destruct (initializePlan_started clock getDefaultSteps) as (w & E & Hw).
  exists w. split; [|exact Hw].
  unfold planFromDefaultSteps, newStateManager. munfold. unfold now, newManager.
  cbn [steps ticks calls tasks results approaches checkpoints heap].
  rewrite E. reflexivity.
Qed.

(** [planQueryExecution] by the outcome of [decomposeQuery]. *)
Lemma startPlan_decomposed clock q d decomposedTasks :
  Resolver.decomposeQuery d = Some (Ok decomposedTasks) ->
  startPlan clock q d = planFromTasks clock q decomposedTasks newManager.
Proof.
  intros Hd. unfold startPlan, planQueryExecution. rewrite Hd.
  destruct (planFromTasks_intact clock q decomposedTasks) as (w & E & _).
  munfold. rewrite E. reflexivity.
Qed.

Lemma startPlan_rejected clock q d error :
  Resolver.decomposeQuery d = Some (Throw error) ->
  startPlan clock q d = planFromDefaultSteps clock q error newManager.
Proof.
  intros Hd. unfold startPlan, planQueryExecution. rewrite Hd.
  destruct (planFromDefaultSteps_intact clock q error) as (w & E & _).
  munfold. rewrite E. reflexivity.
Qed.



Section Down.

Variable clock : nat -> Z.
Variable collab : nat -> Call -> Res Result.
Hypothesis Hdown : allDown collab.

Lemma allDown_speaking : speaking collab.
Proof.
  intros n c e E. destruct (Hdown n c) as (e' & E' & He'). congruence.
Qed.

Lemma callCollab_down c w : exists e, (callCollab collab c w).1 = Throw e.
Proof.
  rewrite callCollab_unfold. destruct (Hdown (calls w) c) as (e & -> & _).
  by exists e.
Qed.

(** Case analysis on the collaborator call of the goal: it threw. *)
Ltac collab_down :=
  match goal with
  | |- context [callCollab collab ?c ?w] =>
      let e := fresh "e" in
      let E := fresh "E" in
      let res := fresh "res" in
      destruct (callCollab_down c w) as [e E];
      destruct (callCollab collab c w) as [res ?w]; simpl in E; subst res
  end.

Lemma executeDirectSynthesis_down w r w' :
  executeDirectSynthesis collab w = (Ok r, w') -> exists msg, r = failure msg.
Proof.
  unfold executeDirectSynthesis, caught. munfold. collab_down.
  intros [= <- <-]. eauto.
Qed.

(** With the collaborators down an alternative that returns has failed. *)
Lemma dispatchAlternative_down name w r w' :
  dispatchAlternative collab name w = (Ok r, w') -> exists msg, r = failure msg.
Proof.
  unfold dispatchAlternative, executeToolWithName, executeSingleUrlProcessing.
  repeat case_decide;
    try apply executeDirectSynthesis_down;
    unfold caught; munfold; try collab_down;
    intros [= <- <-]; eauto.
Qed.

Lemma hasSuccessful_allFailed ty previous :
  allFailed previous -> hasSuccessful ty previous = false.
Proof.
  intros Hall. unfold hasSuccessful.
  replace (List.filter _ previous) with (@nil ResultEntry); [reflexivity|].
  induction Hall as [|e previous [msg He] _ IH]; [reflexivity|].
  simpl. rewrite He. simpl. by rewrite andb_false_r.
Qed.

Lemma found_failed (p : ResultEntry -> bool) previous e :
  allFailed previous -> List.find p previous = Some e ->
  exists msg, e_result e = failure msg.
Proof.
  intros Hall Hfind. apply find_some in Hfind as [Hin _].
  exact (proj1 (List.Forall_forall _ _) Hall e Hin).
Qed.

(** With the collaborators down and only failures behind it, a step that
    returns has failed. *)
Lemma dispatch_down step plan context w r w' :
  allFailed (planResults plan) ->
  dispatch collab step plan context w = (Ok r, w') -> exists msg, r = failure msg.
Proof.
  intros Hall. rewrite dispatch_unfold.
  repeat case_decide.
  - unfold executeMemoryCheck. collab_down. done.
  - unfold executeIntentClassification. munfold. collab_down. done.
  - unfold executeToolSelection. munfold.
    destruct (prioritizeTools step context w) as [[l|e] w1]; [|done].
    collab_down. done.
  - unfold executeInformationGathering, caught. munfold. collab_down.
    intros [= <- <-]. eauto.
  - unfold executeSynthesis.
    match goal with
    | |- context [List.find ?p (planResults plan)] =>
        destruct (List.find p (planResults plan)) as [e1|] eqn:E1
    end.
    { destruct (found_failed _ _ _ Hall E1) as [msg1 Hm1].
      cbn [mbind option_bind]. rewrite Hm1. cbn [failure r_toolResult].
      match goal with
    | |- context [List.find ?p (planResults plan)] =>
        destruct (List.find p (planResults plan)) as [e2|] eqn:E2
    end.
      - destruct (found_failed _ _ _ Hall E2) as [msg2 Hm2].
        cbn [mbind option_bind]. rewrite Hm2. cbn [failure r_toolResult].
        apply executeDirectSynthesis_down.
      - apply executeDirectSynthesis_down. }
    cbn [mbind option_bind].
    match goal with
    | |- context [List.find ?p (planResults plan)] =>
        destruct (List.find p (planResults plan)) as [e2|] eqn:E2
    end.
    + destruct (found_failed _ _ _ Hall E2) as [msg2 Hm2].
      cbn [mbind option_bind]. rewrite Hm2. cbn [failure r_toolResult].
      apply executeDirectSynthesis_down.
    + apply executeDirectSynthesis_down.
  - unfold executeVerification.
    match goal with
    | |- context [List.find ?p (planResults plan)] =>
        destruct (List.find p (planResults plan)) as [e1|] eqn:E1
    end.
    + destruct (found_failed _ _ _ Hall E1) as [msg1 Hm1].
      rewrite Hm1. munfold. intros [= <- <-]. eauto.
    + munfold. intros [= <- <-]. eauto.
  - munfold. intros [= <- <-]. eauto.
Qed.

Lemma allFailed_snoc previous step msg alt :
  allFailed previous ->
  allFailed (previous ++ [mkResultEntry step (failure msg) alt]).
Proof.
  intros Hall. apply Forall_app. split; [exact Hall|].
  constructor; [|constructor]. by exists msg.
Qed.

(** The recovery adds no result but a failure. *)
Lemma recover_down step taskId plan context e w plan' w' :
  recover clock collab step taskId plan context e w = (Ok plan', w') ->
  allFailed (planResults plan) ->
  allFailed (planResults plan').
Proof.
  intros Hrun Hall. revert Hrun. unfold recover. munfold.
  destruct (recordFailure clock taskId (s_type step) e w) as [[b|e0] w1]; [|done].
  destruct (suggestAlternativeApproach taskId context w1) as [alt|e0]; [|done].
  assert (forall w2 p w3,
            (if s_optional step
             then fun w : World =>
                  match updateTaskState clock taskId SKIPPED w with
                  | (Ok _, w4) =>
                      (Ok (advance plan (planResults plan) false true false None), w4)
                  | (Throw e1, w4) => (Throw e1, w4)
                  end
             else fun w : World =>
                  (Ok (advance plan (planResults plan) false false false
                               (Some (message e))), w)) w2 = (Ok p, w3) ->
            allFailed (planResults p)) as Hrest.
  { intros w2 p w3. destruct (s_optional step).
    - destruct (updateTaskState clock taskId SKIPPED w2) as [[b'|e1] w4]; [|done].
      by intros [= <- <-].
    - by intros [= <- <-]. }
  destruct alt as [alt|]; [|apply Hrest].
  case_bool_decide; [|apply Hrest].
  destruct (dispatchAlternative collab (approach alt) w1) as [[r|e1] w2] eqn:Ealt.
  - apply dispatchAlternative_down in Ealt as [msg ->].
    destruct (recordSuccess clock taskId _ w2) as [[b'|e1] w3].
    + intros [= <- <-]. cbn [advance planResults]. by apply allFailed_snoc.
    + destruct (recordFailure clock taskId (approach alt) e1 w3) as [[b''|e2] w4];
        [apply Hrest|done].
  - destruct (recordFailure clock taskId (approach alt) e1 w2) as [[b''|e2] w4];
      [apply Hrest|done].
Qed.

(** Nor does the step itself. *)
Lemma valid_step_down step plan context w plan' w' :
  tryCatch
    (updateTaskState clock (stepTaskId step (currentStepIndex plan)) IN_PROGRESS;;
     stepResult ← dispatch collab step plan context;
     recordSuccess clock (stepTaskId step (currentStepIndex plan)) stepResult;;
     mret (advance plan
             (planResults plan ++ [mkResultEntry step stepResult None])%list
             true false false None))
    (recover clock collab step (stepTaskId step (currentStepIndex plan)) plan context)
    w = (Ok plan', w') ->
  allFailed (planResults plan) ->
  allFailed (planResults plan').
Proof.
  intros Hrun Hall. revert Hrun. munfold.
  destruct (updateTaskState clock _ IN_PROGRESS w) as [[b|e] w1];
    [|intros Hrun; by eapply recover_down].
  destruct (dispatch collab step plan context w1) as [[r|e] w2] eqn:Ed;
    [|intros Hrun; by eapply recover_down].
  apply dispatch_down in Ed as [msg ->]; [|exact Hall].
  destruct (recordSuccess clock _ _ w2) as [[b'|e] w3];
    [|intros Hrun; by eapply recover_down].
  intros [= <- <-]. cbn [advance planResults]. by apply allFailed_snoc.
Qed.

Lemma splice_lookup_after {A} (l : list A) i j x :
  (i <= j)%nat -> (i <= length l)%nat -> splice i x l !! S j = l !! j.
Proof.
  intros Hij Hi. unfold splice.
  rewrite lookup_app_r by (rewrite length_take; lia).
  rewrite length_take. replace (S j - i `min` length l)%nat with (S (j - i)) by lia.
  change ((x :: drop i l) !! S (j - i)) with (drop i l !! (j - i)%nat).
  rewrite lookup_drop. f_equal. lia.
Qed.

(** A step that needs input is not valid with only failures behind it. *)
Lemma needsInput_invalid step plan :
  needsInput (s_type step) = true ->
  allFailed (planResults plan) ->
  validateStepInputs step plan <> Valid.
Proof.
  intros Hty Hall. unfold validateStepInputs.
  rewrite !(hasSuccessful_allFailed _ _ Hall).
  apply bool_decide_eq_true_1 in Hty. rewrite !elem_of_cons in Hty.
  destruct Hty as [->|[->|[->|Hty]]]; [..|by apply not_elem_of_nil in Hty];
    repeat (first [rewrite decide_True by reflexivity
                  |rewrite decide_False by discriminate]);
    done.
Qed.

(** One call leaves a plan that still awaits such a step. *)
Lemma stuck_step fuel : forall plan context w plan' w',
  awaitsInput plan ->
  allFailed (planResults plan) ->
  executeNextStep clock collab fuel plan context w = (Ok (Some plan'), w') ->
  awaitsInput plan' /\
  allFailed (planResults plan') /\
  completed plan' = false /\
  currentStepIndex plan' = S (currentStepIndex plan).
Proof.
  induction fuel as [|fuel IH]; intros plan context w plan' w' Hwait Hall; [done|].
  destruct Hwait as (j & waiting & Hj & Hg & Hty).
  rewrite executeNextStep_unfold.
  destruct (steps plan !! currentStepIndex plan) as [step|] eqn:Hstep.
  2:{ apply lookup_ge_None_1 in Hstep. apply lookup_lt_Some in Hg. lia. }
  cbv zeta. munfold.
  destruct (logTaskExecution _ w) as [[[]|e] w0]; [|done].
  destruct (validateStepInputs step plan) as [|fixable missing] eqn:Hv.
  - match goal with
    | |- (let (rr, ww) := ?X in _) = _ -> _ =>
        destruct X as [[p|e] w1] eqn:Hrun; [|done]
    end.
    intros [= ? ?]; subst.
    pose proof Hrun as Hres. apply valid_step_down in Hres; [|exact Hall].
    apply (valid_step_advances clock collab) in Hrun.
    destruct Hrun as (Hidx & Hsteps & _ & _ & Hc).
    assert (currentStepIndex plan <> j) as Hne.
    { intros Heq. rewrite Heq in Hstep.
      assert (step = waiting) as -> by congruence.
      by apply (needsInput_invalid waiting plan). }
    apply lookup_lt_Some in Hg as Hlt.
    split; [|split; [exact Hres|split; [|exact Hidx]]].
    + exists j, waiting. rewrite Hidx, Hsteps. split; [lia|done].
    + rewrite Hc. apply Nat.leb_gt. lia.
  - destruct (validate_missing step plan fixable missing Hv) as [-> _].
    destruct (initializePlan clock _ w0) as [[[]|e] w1]; [|done].
    intros Hrec. eapply IH in Hrec; [exact Hrec| |exact Hall].
    exists (S j), waiting. cbn [steps currentStepIndex].
    split; [lia|]. split; [|exact Hty].
    rewrite splice_lookup_after; [exact Hg|exact Hj|].
    apply lookup_lt_Some in Hstep. lia.
Qed.

Lemma stuck_run n : forall plan context w,
  intact w ->
  completed plan = false ->
  awaitsInput plan ->
  allFailed (planResults plan) ->
  exists plan' w',
    runSteps clock collab n plan context w = (Ok (Some plan'), w') /\
    completed plan' = false /\
    currentStepIndex plan' = (currentStepIndex plan + n)%nat /\
    awaitsInput plan' /\ allFailed (planResults plan').
Proof.
  induction n as [|n IH]; intros plan context w Hw Hc Hwait Hall.
  - exists plan, w. rewrite Nat.add_0_r. done.
  - destruct (returns_executeNextStep_plan clock collab allDown_speaking
                plan context w Hw) as (p & w1 & E & Hw1).
    destruct (stuck_step _ _ _ _ _ _ Hwait Hall E) as (Hwait1 & Hall1 & Hc1 & Hidx).
    destruct (IH p context w1 Hw1 Hc1 Hwait1 Hall1)
      as (p' & w' & E' & Hc' & Hidx' & Hw' & Hall').
    exists p', w'. rewrite runSteps_S, E. split; [exact E'|].
    split; [exact Hc'|]. split; [lia|]. by split.
Qed.

End Down.

(** Every plan of [planQueryExecution] has a VERIFICATION step. *)
Lemma planSteps_verification decomposedTasks :
  exists j step,
    planSteps decomposedTasks !! j = Some step /\ s_type step = "VERIFICATION".
Proof.
  unfold planSteps. cbv zeta.
  set (sorted := Resolver.stableSortBy _ _).
  destruct (bool_decide ("VERIFICATION" ∈ map s_type sorted)) eqn:Hv.
  - apply bool_decide_eq_true_1 in Hv.
    apply list_elem_of_In, in_map_iff in Hv as (step & Hty & Hin).
    apply list_elem_of_In in Hin.
    assert (step ∈ (if bool_decide ("MEMORY_CHECK" ∈ map s_type sorted)
                    then sorted else memoryBookend :: sorted)) as Hin'.
    { case_bool_decide; [exact Hin|by apply list_elem_of_further]. }
    apply list_elem_of_lookup in Hin' as [j Hj]. by exists j, step.
  - eexists _, verificationBookend. split; [|reflexivity].
    apply list_lookup_middle. reflexivity.
Qed.

(** X20. With every collaborator down, a plan with only failures among its
    results and a step at or after the cursor that needs input (an
    INFORMATION_GATHERING, SYNTHESIS or VERIFICATION step) never completes:
    every call that finds such a step at the cursor inserts fixing steps in
    front of it and runs the first, which fails, so the cursor never passes
    it.  Each of any number of [executeNextStep] calls returns, moves the
    cursor by one and leaves [completed] false, with a step still at the
    cursor. *)
Theorem starved_plan_never_completes (clock : nat -> Z)
    (collab : nat -> Call -> Res Result) (plan : Plan) (context : Context)
    (w : World) (n : nat) :
  allDown collab ->
  intact w ->
  completed plan = false ->
  awaitsInput plan ->
  allFailed (planResults plan) ->
  exists plan' w',
    runSteps clock collab n plan context w = (Ok (Some plan'), w') /\
    completed plan' = false /\
    currentStepIndex plan' = (currentStepIndex plan + n)%nat /\
    (currentStepIndex plan' < length (steps plan'))%nat /\
    allFailed (planResults plan').
Proof.
  intros Hdown Hw Hc Hwait Hall.
  destruct (stuck_run clock collab Hdown n plan context w Hw Hc Hwait Hall)
    as (p & w' & E & Hc' & Hidx & (j & g & Hj & Hg & _) & Hall').
  exists p, w'. split; [exact E|]. split; [exact Hc'|]. split; [exact Hidx|].
  split; [|exact Hall']. apply lookup_lt_Some in Hg. lia.
Qed.

Lemma starved_plan_never_completes_witness :
  exists plan' w',
    runSteps exampleClock alwaysDown 50 defaultPlan exampleContext defaultPlanWorld
    = (Ok (Some plan'), w') /\
    completed plan' = false /\
    currentStepIndex plan' = (0 + 50)%nat /\
    (currentStepIndex plan' < length (steps plan'))%nat /\
    allFailed (planResults plan').
Proof.
  apply (starved_plan_never_completes exampleClock alwaysDown defaultPlan
           exampleContext defaultPlanWorld 50).
  - intros n c. eexists. split; reflexivity.
  - split; apply (bool_decide_unpack _); vm_compute; exact I.
  - reflexivity.
  - exists 3%nat, (mkStep (Some "task-4") "INFORMATION_GATHERING"
                     (Some ["task-3"]) (Some 3) false).
    split; [simpl; lia|]. split; reflexivity.
  - constructor.
Defined.

Section Answered.

Variable clock : nat -> Z.
Variable collab : nat -> Call -> Res Result.
Variable context : Context.
Variable msg : string.
Hypothesis Hall : allSucceed collab.
Hypothesis Hmsg : userMsg context = Some msg.

Lemma allSucceed_speaking : speaking collab.
Proof.
  intros n c e E. destruct (Hall n c) as (r & Hr & _). congruence.
Qed.

Lemma hasSuccessful_snoc ty previous e :
  hasSuccessful ty (previous ++ [e])
  = hasSuccessful ty previous
    || (bool_decide (s_type (e_step e) = ty) && r_success (e_result e)).
Proof.
  unfold hasSuccessful. rewrite List.filter_app, length_app. simpl.
  destruct (bool_decide (s_type (e_step e) = ty) && r_success (e_result e)); simpl.
  - rewrite Nat.add_1_r. cbn [Nat.eqb negb]. by rewrite orb_true_r.
  - by rewrite Nat.add_0_r, orb_false_r.
Qed.

(** With answering collaborators every step returns, and a step that
    selects a tool, gathers or synthesises returns a success. *)
Lemma dispatch_returns step plan w :
  intact w ->
  exists r w',
    dispatch collab step plan context w = (Ok r, w') /\ intact w' /\
    tasks w' = tasks w /\
    (weight (s_type step) <> 0%nat -> r_success r = true).
Proof.
  intros Hw.
  destruct (decide (s_type step ∈ ["MEMORY_CHECK"; "INTENT_CLASSIFICATION";
                                   "TOOL_SELECTION"; "INFORMATION_GATHERING";
                                   "SYNTHESIS"])) as [Hin|Hnot].
  - destruct (dispatch_succeeds collab Hall step plan context msg w Hmsg Hin)
      as (r & n & E & Hs & _).
    exists r, (withCalls n w). split; [exact E|].
    split; [by apply (intact_same w)|]. split; [reflexivity|by intros _].
  - rewrite dispatch_unfold. rewrite !not_elem_of_cons in Hnot.
    destruct Hnot as (H1 & H2 & H3 & H4 & H5 & _).
    rewrite !decide_False by assumption.
    assert (weight (s_type step) = 0%nat) as Hweight.
    { unfold weight. by rewrite !decide_False by assumption. }
    case_decide.
    + unfold executeVerification.
      repeat case_match; eexists _, w;
        (split; [reflexivity|]); (split; [exact Hw|]); (split; [reflexivity|]);
        by intros [].
    + eexists _, w. split; [reflexivity|]. split; [exact Hw|].
      split; [reflexivity|]. by intros [].
Qed.

Lemma validate_owed step plan fixable missing :
  validateStepInputs step plan = Invalid fixable missing ->
  fixable = true /\
  hasSuccessful missing (planResults plan) = false /\
  (1 + weight (s_type step) <= weight missing)%nat.
Proof.
  unfold validateStepInputs. cbv zeta. intros Heq.
  repeat case_decide;
    repeat match type of Heq with
           | context [hasSuccessful ?ty ?l] =>
               destruct (hasSuccessful ty l) eqn:?
           end;
    try discriminate; injection Heq as <- <-;
    (split; [reflexivity|]); (split; [assumption|]);
    match goal with H : s_type step = _ |- _ => rewrite H end;
    vm_compute; lia.
Qed.

Lemma owed_snoc_le previous e ty :
  (owed (previous ++ [e]) ty <= owed previous ty)%nat.
Proof.
  unfold owed. rewrite hasSuccessful_snoc.
  destruct (hasSuccessful ty previous); simpl; [lia|].
  destruct (_ && _); lia.
Qed.

Lemma owed_snoc_paid previous step r alt :
  r_success r = true ->
  owed (previous ++ [mkResultEntry step r alt]) (s_type step) = 0%nat.
Proof.
  intros Hs. unfold owed. rewrite hasSuccessful_snoc. cbn [e_step e_result].
  rewrite bool_decide_true by reflexivity. rewrite Hs.
  by rewrite orb_true_r.
Qed.

Lemma owed_weightless previous ty : weight ty = 0%nat -> owed previous ty = 0%nat.
Proof. unfold owed. intros ->. by destruct (hasSuccessful _ _). Qed.

Lemma owed_le_weight previous ty : (owed previous ty <= weight ty)%nat.
Proof. unfold owed. destruct (hasSuccessful _ _); lia. Qed.

Lemma length_splice {A} (l : list A) i x y :
  l !! i = Some y -> length (splice i x l) = S (length l).
Proof.
  intros Hy. apply lookup_lt_Some in Hy. unfold splice.
  rewrite length_app, length_take. cbn [length]. rewrite length_drop. lia.
Qed.

(** The potential drops with the step that ran. *)
Lemma potential_advance plan step r a b c d :
  steps plan !! currentStepIndex plan = Some step ->
  (weight (s_type step) <> 0%nat -> r_success r = true) ->
  (potential (advance plan (planResults plan ++ [mkResultEntry step r None])%list
                      a b c d)
   + 1 + owed (planResults plan) (s_type step) <= potential plan)%nat.
Proof.
  intros Hstep Hs. apply lookup_lt_Some in Hstep.
  unfold potential. cbn [advance steps currentStepIndex planResults].
  set (e := mkResultEntry step r None).
  pose proof (owed_snoc_le (planResults plan) e "TOOL_SELECTION") as H1.
  pose proof (owed_snoc_le (planResults plan) e "INFORMATION_GATHERING") as H2.
  pose proof (owed_snoc_le (planResults plan) e "SYNTHESIS") as H3.
  destruct (decide (weight (s_type step) = 0%nat)) as [Hw|Hw].
  - rewrite (owed_weightless _ _ Hw). lia.
  - pose proof (owed_snoc_paid (planResults plan) step r None (Hs Hw)) as Hpaid.
    fold e in Hpaid.
    pose proof (owed_le_weight (planResults plan) (s_type step)) as Hle.
    unfold weight in Hw. repeat case_decide; try done;
      match goal with H : s_type step = _ |- _ => rewrite H in * end; lia.
Qed.

(** One call on a step: it runs a step successfully, and the potential
    drops. *)
Lemma answered_step fuel : forall plan w plan' w' step,
  intact w ->
  steps plan !! currentStepIndex plan = Some step ->
  executeNextStep clock collab fuel plan context w = (Ok (Some plan'), w') ->
  (potential plan' + 1 + owed (planResults plan) (s_type step) <= potential plan)%nat /\
  currentStepIndex plan' = S (currentStepIndex plan) /\
  length (planResults plan') = S (length (planResults plan)) /\
  (length (steps plan) <= length (steps plan'))%nat /\
  completed plan' = (length (steps plan') <=? currentStepIndex plan')%nat /\
  lastStepSuccessful plan' = Some true /\
  planError plan' = planError plan /\
  skippedStep plan' = skippedStep plan /\
  usedAlternative plan' = usedAlternative plan.
Proof.
  induction fuel as [|fuel IH]; intros plan w plan' w' step Hw Hstep; [done|].
  rewrite executeNextStep_unfold, Hstep. cbv zeta. munfold.
  destruct (returns_logTaskExecution (stepTaskId step (currentStepIndex plan)) w Hw)
    as ([] & w0 & -> & Hw0).
  destruct (validateStepInputs step plan) as [|fixable missing] eqn:Hv.
  - destruct (returns_updateTaskState clock
                (stepTaskId step (currentStepIndex plan)) IN_PROGRESS w0 Hw0)
      as (b & w1 & -> & Hw1).
    destruct (dispatch_returns step plan w1 Hw1) as (r & w2 & -> & Hw2 & _ & Hs).
    destruct (returns_recordSuccess clock
                (stepTaskId step (currentStepIndex plan)) r w2 Hw2)
      as (b' & w3 & -> & Hw3).
    intros [= <- <-].
    split; [by apply potential_advance|].
    cbn [advance currentStepIndex planResults steps completed lastStepSuccessful
         planError skippedStep usedAlternative].
    rewrite length_app. cbn [length]. repeat split; lia.
  - destruct (validate_owed step plan fixable missing Hv) as (-> & Hno & Hweight).
    cbn [steps].
    destruct (returns_initializePlan clock
                (splice (currentStepIndex plan) (createFixingStep step missing)
                        (steps plan)) w0 Hw0)
      as ([] & w1 & -> & Hw1).
    intros Hrec.
    eapply IH in Hrec; [|exact Hw1|cbn [steps currentStepIndex]; by eapply splice_lookup].
    cbn [steps currentStepIndex planResults planError skippedStep usedAlternative
         createFixingStep s_type] in Hrec.
    destruct Hrec as (Hpot & Hidx & Hlen & Hsteps & Hrest).
    rewrite (length_splice _ _ _ _ Hstep) in Hsteps.
    split; [|split; [exact Hidx|split; [exact Hlen|split; [lia|exact Hrest]]]].
    pose proof (owed_le_weight (planResults plan) (s_type step)) as Hle.
    assert (owed (planResults plan) missing = weight missing) as Howed.
    { unfold owed. by rewrite Hno. }
    rewrite Howed in Hpot.
    unfold potential in Hpot at 2.
    cbn [steps currentStepIndex planResults] in Hpot.
    rewrite (length_splice _ _ _ _ Hstep) in Hpot.
    unfold potential at 2.
    apply lookup_lt_Some in Hstep. lia.
Qed.

Lemma answered_run bound : forall plan w,
  intact w ->
  (currentStepIndex plan < length (steps plan))%nat ->
  (potential plan <= bound)%nat ->
  exists k plan' w',
    (k <= bound)%nat /\
    runSteps clock collab k plan context w = (Ok (Some plan'), w') /\
    completed plan' = true /\
    currentStepIndex plan' = (currentStepIndex plan + k)%nat /\
    length (planResults plan') = (length (planResults plan) + k)%nat /\
    (length (steps plan) <= currentStepIndex plan')%nat /\
    lastStepSuccessful plan' = Some true /\
    planError plan' = planError plan /\
    skippedStep plan' = skippedStep plan /\
    usedAlternative plan' = usedAlternative plan /\
    intact w'.
Proof.
  induction bound as [|bound IH]; intros plan w Hw Hlt Hpot.
  { unfold potential in Hpot. lia. }
  destruct (lookup_lt_is_Some_2 _ _ Hlt) as [step Hstep].
  destruct (returns_executeNextStep_plan clock collab allSucceed_speaking
              plan context w Hw) as (p & w1 & E & Hw1).
  destruct (answered_step _ _ _ _ _ _ Hw Hstep E)
    as (Hp & Hidx & Hlen & Hsteps & Hc & Hlast & Herr & Hskip & Halt).
  destruct (decide (currentStepIndex p < length (steps p))%nat) as [Hmore|Hdone].
  - destruct (IH p w1 Hw1 Hmore ltac:(lia))
      as (k & p' & w' & Hk & E' & Hc' & Hidx' & Hlen' & Hsteps' & Hlast' & Herr'
          & Hskip' & Halt' & Hw').
    exists (S k), p', w'. rewrite runSteps_S, E.
    split; [lia|]. split; [exact E'|]. split; [exact Hc'|].
    split; [lia|]. split; [lia|]. split; [lia|]. split; [exact Hlast'|].
    split; [congruence|]. split; [congruence|]. split; [congruence|exact Hw'].
  - exists 1%nat, p, w1. rewrite runSteps_S, E.
    split; [lia|]. split; [reflexivity|].
    split; [rewrite Hc; apply Nat.leb_le; lia|].
    split; [lia|]. split; [lia|]. split; [lia|]. split; [exact Hlast|].
    split; [exact Herr|]. split; [exact Hskip|]. split; [exact Halt|exact Hw1].
Qed.

End Answered.

(** X22. With collaborators that always answer and a user message in the
    context, every plan with a step at its cursor completes, on an intact
    State Manager: after some number [k] of [executeNextStep] calls, at
    least the number of remaining steps and at most six more, [completed] is
    true.  Every one of these calls ran a step as a success: the cursor and
    the number of results have grown by [k], [lastStepSuccessful] is true,
    and no error, skip or alternative was recorded on the plan. *)
Theorem answered_plan_completes (clock : nat -> Z)
    (collab : nat -> Call -> Res Result) (plan : Plan) (context : Context)
    (msg : string) (w : World) :
  allSucceed collab ->
  userMsg context = Some msg ->
  intact w ->
  (currentStepIndex plan < length (steps plan))%nat ->
  exists k plan' w',
    (length (steps plan) - currentStepIndex plan <= k)%nat /\
    (k <= length (steps plan) - currentStepIndex plan + 6)%nat /\
    runSteps clock collab k plan context w = (Ok (Some plan'), w') /\
    completed plan' = true /\
    currentStepIndex plan' = (currentStepIndex plan + k)%nat /\
    length (planResults plan') = (length (planResults plan) + k)%nat /\
    lastStepSuccessful plan' = Some true /\
    planError plan' = planError plan /\
    skippedStep plan' = skippedStep plan /\
    usedAlternative plan' = usedAlternative plan /\
    intact w'.
Proof.
  intros Hall Hmsg Hw Hlt.
  destruct (answered_run clock collab context msg Hall Hmsg
              (length (steps plan) - currentStepIndex plan + 6) plan w Hw Hlt)
    as (k & p' & w' & Hk & E & Hc & Hidx & Hlen & Hsteps & Hrest).
  { unfold potential.
    pose proof (owed_le_weight (planResults plan) "TOOL_SELECTION").
    pose proof (owed_le_weight (planResults plan) "INFORMATION_GATHERING").
    pose proof (owed_le_weight (planResults plan) "SYNTHESIS").
    change (weight "TOOL_SELECTION") with 3%nat in *.
    change (weight "INFORMATION_GATHERING") with 2%nat in *.
    change (weight "SYNTHESIS") with 1%nat in *. lia. }
  exists k, p', w'. split; [lia|]. split; [exact Hk|]. split; [exact E|].
  split; [exact Hc|]. split; [exact Hidx|]. split; [exact Hlen|]. exact Hrest.
Qed.

Lemma answered_plan_completes_witness :
  exists k plan' w',
    (length (steps verificationAlone) - 0 <= k)%nat /\
    (k <= length (steps verificationAlone) - 0 + 6)%nat /\
    runSteps exampleClock alwaysAnswers k verificationAlone exampleContext
      verificationAloneWorld = (Ok (Some plan'), w') /\
    completed plan' = true /\
    currentStepIndex plan' = (0 + k)%nat /\
    length (planResults plan') = (0 + k)%nat /\
    lastStepSuccessful plan' = Some true /\
    planError plan' = None /\
    skippedStep plan' = false /\
    usedAlternative plan' = false /\
    intact w'.
Proof.
  apply (answered_plan_completes exampleClock alwaysAnswers verificationAlone
           exampleContext "compare the two libraries" verificationAloneWorld).
  - intros n c. eexists. repeat split.
  - reflexivity.
  - split; apply (bool_decide_unpack _); vm_compute; exact I.
  - simpl. lia.
Defined.

Section CleanRun.

Variable clock : nat -> Z.
Variable collab : nat -> Call -> Res Result.
Variable context : Context.
Variable msg : string.
Hypothesis Hall : allSucceed collab.
Hypothesis Hmsg : userMsg context = Some msg.

Lemma validateStepInputs_prerequisite step plan :
  validateStepInputs step plan
  = match prerequisite (s_type step) with
    | Some missing =>
        if hasSuccessful missing (planResults plan) then Valid
        else Invalid true missing
    | None => Valid
    end.
Proof.
  unfold validateStepInputs, prerequisite. cbv zeta. by repeat case_decide.
Qed.

Lemma prerequisite_weight ty missing :
  prerequisite ty = Some missing -> weight missing <> 0%nat.
Proof.
  unfold prerequisite. repeat case_decide; intros [= <-]; by vm_compute.
Qed.

(** What [updateTaskState] does to the task map of an intact manager. *)
Lemma updateTaskState_tasks taskId s w :
  intact w ->
  dom (tasks (updateTaskState clock taskId s w).2) = dom (tasks w) /\
  (forall other, other <> taskId ->
     tasks (updateTaskState clock taskId s w).2 !! other = tasks w !! other) /\
  (is_Some (tasks w !! taskId) ->
   exists o, tasks (updateTaskState clock taskId s w).2 !! taskId = Some (EObj o) /\
             k_state o = s).
Proof.
  intros [Hobj _].
  destruct (tasks w !! taskId) as [e|] eqn:He.
  - pose proof (Hobj taskId e He) as Hobject. destruct e as [o|v]; [|done].
    destruct (updateTaskState_object clock taskId s w o He)
      as (o' & _ & -> & Hs & _).
    split; [|split].
    + apply dom_insert_lookup_L. by eexists.
    + intros other Hne. by rewrite lookup_insert_ne.
    + intros _. exists o'. by rewrite lookup_insert_eq.
  - destruct (updateTaskState_spec clock taskId s w)
      as (_ & _ & _ & _ & _ & _ & [->|(e & o & Habs & _)]); [|congruence].
    split; [reflexivity|]. split; [done|]. by intros [? ?].
Qed.

(** One call on a valid step: the step runs, its result is appended, and
    its task is completed. *)
Lemma answered_valid_step plan w step :
  intact w ->
  steps plan !! currentStepIndex plan = Some step ->
  validateStepInputs step plan = Valid ->
  exists r w',
    executeNextStep clock collab 4 plan context w
    = (Ok (Some (advance plan (planResults plan ++ [mkResultEntry step r None])%list
                         true false false None)), w') /\
    intact w' /\
    (weight (s_type step) <> 0%nat -> r_success r = true) /\
    dom (tasks w') = dom (tasks w) /\
    (forall other, other <> stepTaskId step (currentStepIndex plan) ->
       tasks w' !! other = tasks w !! other) /\
    (is_Some (tasks w !! stepTaskId step (currentStepIndex plan)) ->
     completedTask w' (stepTaskId step (currentStepIndex plan))).
Proof.
  intros Hw Hstep Hvalid.
  set (taskId := stepTaskId step (currentStepIndex plan)).
  rewrite executeNextStep_unfold, Hstep. cbv zeta. fold taskId. rewrite Hvalid.
  munfold.
  pose proof (logTaskExecution_world taskId w) as Hlog.
  destruct (returns_logTaskExecution taskId w Hw) as ([] & w0 & E0 & _).
  rewrite E0 in Hlog |- *. simpl in Hlog. subst w0.
  destruct (updateTaskState_tasks taskId IN_PROGRESS w Hw) as (Hd1 & Ho1 & Hs1).
  destruct (returns_updateTaskState clock taskId IN_PROGRESS w Hw)
    as (b & w1 & E1 & Hw1).
  rewrite E1 in Hd1, Ho1, Hs1 |- *. simpl in Hd1, Ho1, Hs1.
  destruct (dispatch_returns collab context msg Hall Hmsg step plan w1 Hw1)
    as (r & w2 & -> & Hw2 & Ht2 & Hs).
  rewrite recordSuccess_unfold. cbv zeta.
  destruct (updateTaskState_tasks taskId COMPLETED w2 Hw2) as (Hd3 & Ho3 & Hs3).
  set (w3 := (updateTaskState clock taskId COMPLETED w2).2) in *.
  assert (intact w3) as Hw3.
  { destruct (returns_updateTaskState clock taskId COMPLETED w2 Hw2)
      as (b' & w3' & E3 & Hw3'). subst w3. by rewrite E3. }
  set (w4 := (setResults (insert taskId r) w3).2).
  assert (intact w4) as Hw4 by by apply (intact_same w3).
  destruct (returns_createCheckpoint clock ("task_" ++ taskId ++ "_completed") w4 Hw4)
    as ([] & w5 & E5 & Hw5).
  pose proof (createCheckpoint_spec clock ("task_" ++ taskId ++ "_completed") w4)
    as Hcp.
  rewrite E5 in Hcp |- *. simpl in Hcp. destruct Hcp as (Htk & _).
  change (tasks w4) with (tasks w3) in Htk.
  exists r, w5. split; [reflexivity|]. split; [exact Hw5|]. split; [exact Hs|].
  rewrite Htk. rewrite Ht2 in Hd3, Ho3, Hs3.
  split; [by rewrite Hd3, Hd1|].
  split.
  - intros other Hne. by rewrite Ho3, Ho1.
  - intros Hreg. apply Hs1 in Hreg as (o & Ho & _).
    unfold completedTask. rewrite Htk. apply Hs3. rewrite Ho. by eexists.
Qed.

Lemma supplied_valid plan step :
  supplied plan ->
  steps plan !! currentStepIndex plan = Some step ->
  validateStepInputs step plan = Valid.
Proof.
  intros Hsup Hstep. rewrite validateStepInputs_prerequisite.
  destruct (prerequisite (s_type step)) as [missing|] eqn:Hpre; [|reflexivity].
  destruct (Hsup _ _ _ (Nat.le_refl _) Hstep Hpre) as [->|(j & s' & Hj & _)];
    [reflexivity|lia].
Qed.

Lemma supplied_advance plan step r a b c d :
  supplied plan ->
  steps plan !! currentStepIndex plan = Some step ->
  (weight (s_type step) <> 0%nat -> r_success r = true) ->
  supplied (advance plan (planResults plan ++ [mkResultEntry step r None])%list
                    a b c d).
Proof.
  intros Hsup Hstep Hs i s missing Hi Hi' Hpre.
  cbn [advance currentStepIndex steps planResults] in *.
  rewrite hasSuccessful_snoc. cbn [e_step e_result].
  destruct (Hsup i s missing ltac:(lia) Hi' Hpre) as [->|(j & s' & Hj & Hj' & Hty)];
    [by left|].
  destruct (decide (j = currentStepIndex plan)) as [->|Hne].
  - left. assert (s' = step) as -> by congruence.
    rewrite bool_decide_true by exact Hty.
    rewrite Hs; [by rewrite orb_true_r|].
    rewrite Hty. by eapply prerequisite_weight.
  - right. exists j, s'. split; [lia|done].
Qed.

Lemma clean_run k : forall plan w,
  intact w ->
  supplied plan ->
  (currentStepIndex plan + k = length (steps plan))%nat ->
  exists plan' w',
    runSteps clock collab k plan context w = (Ok (Some plan'), w') /\
    intact w' /\
    steps plan' = steps plan /\
    currentStepIndex plan' = length (steps plan) /\
    map e_step (planResults plan')
    = (map e_step (planResults plan) ++ drop (currentStepIndex plan) (steps plan))%list /\
    (k <> 0%nat ->
     completed plan' = true /\ lastStepSuccessful plan' = Some true) /\
    planError plan' = planError plan /\
    skippedStep plan' = skippedStep plan /\
    usedAlternative plan' = usedAlternative plan /\
    dom (tasks w') = dom (tasks w) /\
    (forall taskId, tasks w' !! taskId = tasks w !! taskId \/ completedTask w' taskId) /\
    (forall i step,
       (currentStepIndex plan <= i)%nat -> steps plan !! i = Some step ->
       is_Some (tasks w !! stepTaskId step i) ->
       completedTask w' (stepTaskId step i)).
Proof.
  induction k as [|k IH]; intros plan w Hw Hsup Hk.
  - exists plan, w. split; [reflexivity|]. split; [exact Hw|].
    split; [reflexivity|]. split; [lia|].
    split; [by rewrite drop_ge, app_nil_r by lia|].
    split; [done|]. do 4 (split; [reflexivity|]).
    split; [by left|].
    intros i step Hi Hstep. apply lookup_lt_Some in Hstep. lia.
  - destruct (lookup_lt_is_Some_2 (steps plan) (currentStepIndex plan) ltac:(lia))
      as [step Hstep].
    destruct (answered_valid_step plan w step Hw Hstep (supplied_valid _ _ Hsup Hstep))
      as (r & w1 & E & Hw1 & Hs & Hdom & Hother & Hdone).
    set (p := advance plan (planResults plan ++ [mkResultEntry step r None])%list
                      true false false None) in *.
    destruct (IH p w1 Hw1 (supplied_advance _ _ _ _ _ _ _ Hsup Hstep Hs)
                 ltac:(cbn [p advance currentStepIndex steps]; lia))
      as (p' & w' & E' & Hw' & Hsteps & Hidx & Hres & Hc & Herr & Hskip & Halt
          & Hdom' & Hany & Hlater).
    cbn [p advance currentStepIndex steps planResults planError skippedStep
         usedAlternative] in Hsteps, Hidx, Hres, Herr, Hskip, Halt, Hlater.
    exists p', w'. rewrite runSteps_S, E.
    split; [exact E'|]. split; [exact Hw'|]. split; [exact Hsteps|].
    split; [exact Hidx|].
    split.
    { rewrite Hres, map_app, <- app_assoc. cbn [map e_step app].
      by rewrite (drop_S _ _ _ Hstep). }
    split.
    { intros _. destruct k as [|k].
      - cbn [runSteps] in E'. munfold. injection E' as <- <-.
        cbn [p advance completed lastStepSuccessful]. split; [|reflexivity].
        apply Nat.leb_le. lia.
      - by apply Hc. }
    split; [exact Herr|]. split; [exact Hskip|]. split; [exact Halt|].
    split; [by rewrite Hdom', Hdom|].
    split.
    { intros taskId. destruct (Hany taskId) as [Heq|Hdone']; [|by right].
      destruct (decide (taskId = stepTaskId step (currentStepIndex plan)))
        as [->|Hne].
      - destruct (tasks w !! stepTaskId step (currentStepIndex plan)) as [e|] eqn:He.
        + right. destruct (Hdone ltac:(by eexists)) as (o & Ho & Hst).
          exists o. by rewrite Heq.
        + left. rewrite Heq. apply not_elem_of_dom. rewrite Hdom.
          by apply not_elem_of_dom.
      - left. by rewrite Heq, Hother. }
    intros i s Hi Hs' Hreg.
    destruct (decide (i = currentStepIndex plan)) as [->|Hne].
    + assert (s = step) as -> by congruence.
      destruct (Hany (stepTaskId step (currentStepIndex plan))) as [Heq|Hdone'];
        [|exact Hdone'].
      destruct (Hdone Hreg) as (o & Ho & Hst). exists o. by rewrite Heq.
    + apply Hlater; [lia|exact Hs'|].
      apply elem_of_dom. rewrite Hdom. by apply elem_of_dom.
Qed.

End CleanRun.

(** X23. With collaborators that always answer and a user message in the
    context, a plan in which every step from the cursor on finds what it
    requires runs without a fixing step: as many [executeNextStep] calls as
    steps remain complete it, the step list is unchanged, the results gain
    one entry per remaining step, in the order of the steps, no error, skip
    or alternative is recorded, and the State Manager holds every remaining
    step's registered task as completed, every other task as it was. *)
Theorem supplied_plan_runs_clean (clock : nat -> Z)
    (collab : nat -> Call -> Res Result) (plan : Plan) (context : Context)
    (msg : string) (w : World) :
  allSucceed collab ->
  userMsg context = Some msg ->
  intact w ->
  supplied plan ->
  (currentStepIndex plan < length (steps plan))%nat ->
  exists plan' w',
    runSteps clock collab (length (steps plan) - currentStepIndex plan) plan context w
    = (Ok (Some plan'), w') /\
    completed plan' = true /\
    steps plan' = steps plan /\
    currentStepIndex plan' = length (steps plan) /\
    map e_step (planResults plan')
    = (map e_step (planResults plan) ++ drop (currentStepIndex plan) (steps plan))%list /\
    lastStepSuccessful plan' = Some true /\
    planError plan' = planError plan /\
    skippedStep plan' = skippedStep plan /\
    usedAlternative plan' = usedAlternative plan /\
    dom (tasks w') = dom (tasks w) /\
    (forall taskId, tasks w' !! taskId = tasks w !! taskId \/ completedTask w' taskId) /\
    (forall i step,
       (currentStepIndex plan <= i)%nat -> steps plan !! i = Some step ->
       is_Some (tasks w !! stepTaskId step i) ->
       completedTask w' (stepTaskId step i)).
Proof.
  intros Hall Hmsg Hw Hsup Hlt.
  destruct (clean_run clock collab context msg Hall Hmsg
              (length (steps plan) - currentStepIndex plan) plan w Hw Hsup
              ltac:(lia))
    as (p' & w' & E & _ & Hsteps & Hidx & Hres & Hc & Herr & Hskip & Halt
        & Hdom & Hany & Hlater).
  destruct Hc as [Hc Hlast]; [lia|].
  exists p', w'. by repeat (split; [assumption|]).
Qed.

Lemma supplied_defaultPlan : supplied defaultPlan.
Proof.
  intros i step missing _ Hi Hpre.
  set (l := steps defaultPlan) in Hi. vm_compute in l. subst l.
  destruct i as [|[|[|[|[|[|i]]]]]]; try discriminate Hi;
    injection Hi as <-; vm_compute in Hpre; try discriminate;
    injection Hpre as <-; right;
    [exists 2%nat|exists 3%nat|exists 4%nat];
    eexists; (split; [simpl; lia|]); split; reflexivity.
Qed.

Lemma supplied_plan_runs_clean_witness :
  exists plan' w',
    runSteps exampleClock alwaysAnswers (6 - 0) defaultPlan exampleContext
      defaultPlanWorld = (Ok (Some plan'), w') /\
    completed plan' = true /\
    steps plan' = steps defaultPlan /\
    currentStepIndex plan' = 6%nat /\
    map e_step (planResults plan') = ([] ++ drop 0 (steps defaultPlan))%list /\
    lastStepSuccessful plan' = Some true /\
    planError plan' = None /\
    skippedStep plan' = false /\
    usedAlternative plan' = false /\
    dom (tasks w') = dom (tasks defaultPlanWorld) /\
    (forall taskId,
       tasks w' !! taskId = tasks defaultPlanWorld !! taskId \/
       completedTask w' taskId) /\
    (forall i step,
       (0 <= i)%nat -> steps defaultPlan !! i = Some step ->
       is_Some (tasks defaultPlanWorld !! stepTaskId step i) ->
       completedTask w' (stepTaskId step i)).
Proof.
  apply (supplied_plan_runs_clean exampleClock alwaysAnswers defaultPlan
           exampleContext "compare the two libraries" defaultPlanWorld).
  - intros n c. eexists. repeat split.
  - reflexivity.
  - split; apply (bool_decide_unpack _); vm_compute; exact I.
  - exact supplied_defaultPlan.
  - simpl. lia.
Defined.

(** When every task is completed [getTaskStatus] counts them all as
    completed. *)
Lemma all_completed_status w :
  (forall taskId e, tasks w !! taskId = Some e -> completedTask w taskId) ->
  (getTaskStatus w).1
  = Ok (mkStatus 0 0 (size (tasks w)) 0 0 (size (tasks w))).
Proof.
  intros Hall.
  assert (forall taskId e, tasks w !! taskId = Some e ->
            stateOf e = Some (SVal COMPLETED)) as Hst.
  { intros taskId e He. destruct (Hall taskId e He) as (o & Ho & Hs).
    assert (e = EObj o) as -> by congruence. simpl. by rewrite Hs. }
  unfold getTaskStatus. munfold.
  rewrite bool_decide_true.
  2:{ intros taskId e He. rewrite (Hst taskId e He). by eexists. }
  cbn [fst]. unfold countState.
  rewrite (map_filter_id (fun kv => stateOf kv.2 = Some (SVal COMPLETED)))
    by exact Hst.
  assert (forall s, s <> COMPLETED ->
            filter (fun kv : string * Entry => stateOf kv.2 = Some (SVal s)) (tasks w)
            = ∅) as Hnone.
  { intros s Hne. apply map_empty_filter. intros taskId e He Hs.
    simpl in Hs. rewrite (Hst taskId e He) in Hs. congruence. }
  rewrite !Hnone by done. by rewrite map_size_empty.
Qed.

(** The tasks registered for the default plan are those of its steps. *)
Lemma default_ids taskId :
  is_Some (tasks defaultPlanWorld !! taskId) ->
  exists i step,
    steps defaultPlan !! i = Some step /\ stepTaskId step i = taskId.
Proof.
  intros Hreg. apply elem_of_dom in Hreg.
  assert (dom (tasks defaultPlanWorld)
          = list_to_set ["task-1"; "task-2"; "task-3"; "task-4"; "task-5";
                         "task-verification"] :> gset string) as Hdom.
  { apply (bool_decide_unpack _). by vm_compute. }
  rewrite Hdom, elem_of_list_to_set, !elem_of_cons in Hreg. clear Hdom.
  destruct Hreg as [->|[->|[->|[->|[->|[->|Hin]]]]]];
    [exists 0%nat|exists 1%nat|exists 2%nat|exists 3%nat|exists 4%nat|exists 5%nat
    |by apply not_elem_of_nil in Hin];
    eexists; split; reflexivity.
Qed.

(** The run of the plan built when decomposition fails, with collaborators
    that always answer: six calls complete it, at the end of its steps. *)
Lemma default_plan_six (clock : nat -> Z)
    (collab : nat -> Call -> Res Result) (userQuery : string)
    (context : Context) (msg : string) :
  allSucceed collab ->
  userMsg context = Some msg ->
  exists plan' w',
    runPlan clock collab userQuery Resolver.NoTasks context 6 = (Ok (Some plan'), w') /\
    completed plan' = true /\
    map (fun e => s_type (e_step e)) (planResults plan') = Resolver.typeOrder /\
    length (planResults plan') = 6%nat /\
    planError plan' = None /\
    (getTaskStatus w').1 = Ok (mkStatus 0 0 6 0 0 6) /\
    steps plan' !! currentStepIndex plan' = None.
Proof.
  intros Hall Hmsg. unfold runPlan.
  rewrite (startPlan_decomposed clock userQuery Resolver.NoTasks
             Resolver.getDefaultTasks eq_refl).
  destruct (planFromTasks_intact clock userQuery Resolver.getDefaultTasks)
    as (w & E & Hw & Htk & _).
  rewrite E.
  set (plan := mkPlan userQuery (planSteps Resolver.getDefaultTasks) O [] false None
                      false false None (clock O)) in *.
  assert (tasks w = tasks defaultPlanWorld) as Htasks.
  { rewrite Htk. unfold defaultPlanWorld.
    destruct (planFromTasks_intact exampleClock "q" Resolver.getDefaultTasks)
      as (w0 & E0 & _ & Htk0 & _).
    by rewrite E0. }
  assert (supplied plan) as Hsup.
  { intros i step missing Hi Hs Hpre.
    exact (supplied_defaultPlan i step missing Hi Hs Hpre). }
  destruct (clean_run clock collab context msg Hall Hmsg 6 plan w Hw Hsup eq_refl)
    as (p' & w' & E' & _ & Hsteps & Hidx & Hres & Hc & Herr & _ & _
        & Hdom & _ & Hlater).
  destruct Hc as [Hc _]; [done|].
  exists p', w'. split; [exact E'|]. split; [exact Hc|].
  assert (map e_step (planResults p') = planSteps Resolver.getDefaultTasks) as Hres'.
  { rewrite Hres. reflexivity. }
  split.
  { rewrite <- (map_map e_step s_type), Hres'. reflexivity. }
  split.
  { rewrite <- (length_map e_step), Hres'. reflexivity. }
  split; [exact Herr|].
  split; [|rewrite Hidx, Hsteps; apply lookup_ge_None_2; lia].
  assert (size (tasks w') = 6%nat) as Hsize.
  { rewrite <- size_dom, Hdom, size_dom, Htasks. by vm_compute. }
  rewrite all_completed_status, Hsize; [reflexivity|].
  intros taskId e He.
  assert (is_Some (tasks defaultPlanWorld !! taskId)) as Hreg.
  { rewrite <- Htasks. apply elem_of_dom. rewrite <- Hdom. apply elem_of_dom.
    by eexists. }
  destruct (default_ids taskId Hreg) as (i & step & Hi & <-).
  apply (Hlater i step (Nat.le_0_l i) Hi). by rewrite Htasks.
Qed.


(** X24. The plan built when decomposition fails has six steps, the five
    default tasks and the appended VERIFICATION step.  With collaborators
    that always answer and a user message in the context, six
    [executeNextStep] calls complete it: the plan has six results, in the
    canonical order of the step types, and [getTaskStatus] reports six
    tasks, all completed. *)
Theorem default_plan_completes_in_six (clock : nat -> Z)
    (collab : nat -> Call -> Res Result) (userQuery : string)
    (context : Context) (msg : string) :
  allSucceed collab ->
  userMsg context = Some msg ->
  exists plan' w',
    runPlan clock collab userQuery Resolver.NoTasks context 6 = (Ok (Some plan'), w') /\
    completed plan' = true /\
    map (fun e => s_type (e_step e)) (planResults plan') = Resolver.typeOrder /\
    length (planResults plan') = 6%nat /\
    planError plan' = None /\
    (getTaskStatus w').1 = Ok (mkStatus 0 0 6 0 0 6).
Proof.
  intros Hall Hmsg.
  destruct (default_plan_six clock collab userQuery context msg Hall Hmsg)
    as (p' & w' & E & Hc & Hty & Hlen & Herr & Hst & _).
  exists p', w'. split; [exact E|]. split; [exact Hc|]. split; [exact Hty|].
  split; [exact Hlen|]. split; [exact Herr|exact Hst].
Qed.

Lemma default_plan_completes_in_six_witness :
  exists plan' w',
    runPlan exampleClock alwaysAnswers "q" Resolver.NoTasks exampleContext 6
    = (Ok (Some plan'), w') /\
    completed plan' = true /\
    map (fun e => s_type (e_step e)) (planResults plan') = Resolver.typeOrder /\
    length (planResults plan') = 6%nat /\
    planError plan' = None /\
    (getTaskStatus w').1 = Ok (mkStatus 0 0 6 0 0 6).
Proof.
  apply (default_plan_completes_in_six exampleClock alwaysAnswers "q" exampleContext
           "compare the two libraries").
  - intros n c. eexists. repeat split.
  - reflexivity.
Defined.

Section Fatal.

Variable clock : nat -> Z.
Variable collab : nat -> Call -> Res Result.

(** [recordFailure] returns whatever the error, as long as the manager holds
    only task objects. *)
Lemma recordFailure_returns taskId a e w :
  intact w ->
  (recordFailure clock taskId a e w).1 = Ok true.
Proof.
  intros Hw. rewrite recordFailure_unfold. cbv zeta. cbn [fst].
  destruct (returns_updateTaskState clock taskId FAILED w Hw) as (b & w1 & E & Hw1).
  rewrite E. cbn [snd].
  match goal with
  | |- context [createCheckpoint clock ?n ?v] =>
      pose proof (createCheckpoint_spec clock n v) as Hcp;
      destruct (createCheckpoint clock n v) as [res w5]
  end.
  simpl in Hcp. destruct Hcp as (_ & _ & _ & _ & _ & _ & [(-> & _)|(_ & Hnot & _)]);
    [reflexivity|].
  destruct Hnot. simpl.
  replace (tasks (withHistory taskId w1)) with (tasks w1)
    by by destruct (withHistory_spec taskId w1) as (_ & _ & ->).
  by apply intact_states.
Qed.

Lemma memory_check_valid step plan :
  s_type step = "MEMORY_CHECK" -> validateStepInputs step plan = Valid.
Proof.
  intros Hty. unfold validateStepInputs. rewrite Hty.
  by rewrite !decide_False by discriminate.
Qed.

Lemma message_less_halts fuel plan context w step e :
  intact w ->
  steps plan !! currentStepIndex plan = Some step ->
  s_type step = "MEMORY_CHECK" ->
  is_Some (tasks w !! stepTaskId step (currentStepIndex plan)) ->
  failureHistory w (stepTaskId step (currentStepIndex plan)) = None ->
  collab (calls w) CMemoryCheck = Throw e ->
  message e = "" ->
  (executeNextStep clock collab (S fuel) plan context w).1
  = Throw (typeError "e.includes is not a function").
Proof.
  intros Hw Hstep Hty Hreg Hhist Hthrow Hmsg.
  set (taskId := stepTaskId step (currentStepIndex plan)) in *.
  rewrite executeNextStep_unfold, Hstep. cbv zeta. fold taskId.
  rewrite (memory_check_valid step plan Hty). munfold.
  pose proof (logTaskExecution_world taskId w) as Hlog.
  destruct (returns_logTaskExecution taskId w Hw) as ([] & w0 & E0 & _).
  rewrite E0 in Hlog |- *. simpl in Hlog. subst w0.
  destruct (updateTaskState_tasks clock taskId IN_PROGRESS w Hw) as (_ & _ & Hs1).
  destruct (updateTaskState_spec clock taskId IN_PROGRESS w)
    as (_ & _ & Hap1 & _ & Hhp1 & Hcl1 & _).
  destruct (returns_updateTaskState clock taskId IN_PROGRESS w Hw)
    as (b & w1 & E1 & Hw1).
  rewrite E1 in Hs1, Hap1, Hhp1, Hcl1 |- *. simpl in Hs1, Hap1, Hhp1, Hcl1.
  destruct (Hs1 Hreg) as (o1 & Ho1 & _).
  rewrite dispatch_unfold, Hty, decide_True by reflexivity.
  unfold executeMemoryCheck. rewrite callCollab_unfold, Hcl1, Hthrow.
  set (w2 := withCalls (S (calls w)) w1).
  assert (intact w2) as Hw2 by by apply (intact_same w1).
  unfold recover. munfold.
  assert (recordFailure clock taskId (s_type step) e w2
          = (Ok true, after clock (RecordFailure taskId (s_type step) e) w2)) as Erec.
  { rewrite after_discards.
    pose proof (recordFailure_returns taskId (s_type step) e w2 Hw2) as Hret.
    destruct (recordFailure clock taskId (s_type step) e w2) as [res w3].
    simpl in Hret |- *. by subst res. }
  rewrite Erec.
  destruct (recordFailure_history clock taskId (s_type step) e w2) as [_ Hkept].
  destruct (Hkept (EObj o1) Ho1 eq_refl) as (e' & He' & Ht' & _).
  destruct (recordFailure_appends clock taskId (s_type step) e w2) as [ts Happ].
  assert (failureHistory w2 taskId = None) as Hnone.
  { unfold failureHistory in *. cbn [w2 withCalls approaches heap].
    by rewrite Hap1, Hhp1. }
  rewrite Hnone in Happ. cbn [default app] in Happ.
  assert (errorValue e = ErrObj) as Hobj.
  { unfold errorValue. by rewrite Hmsg. }
  rewrite Hobj in Happ.
  assert (suggestAlternativeApproach taskId context
            (after clock (RecordFailure taskId (s_type step) e) w2)
          = Throw (typeError "e.includes is not a function")) as Hsuggest.
  { unfold suggestAlternativeApproach. rewrite He', Ht', Happ. reflexivity. }
  by rewrite Hsuggest.
Qed.

End Fatal.

(** X25. An error without a message is fatal to the executor.  When the
    collaborator of a MEMORY_CHECK step throws an error whose message is
    empty, and the step's task is registered and has no earlier failure,
    [executeNextStep] itself throws a TypeError (the recorded error object
    has no [includes]): the failure is recorded, but the call returns no
    plan and the cursor is not advanced. *)
Theorem message_less_error_is_fatal (clock : nat -> Z)
    (collab : nat -> Call -> Res Result) (plan : Plan) (context : Context)
    (w : World) (step : Step) (e : Thrown) :
  intact w ->
  steps plan !! currentStepIndex plan = Some step ->
  s_type step = "MEMORY_CHECK" ->
  is_Some (tasks w !! stepTaskId step (currentStepIndex plan)) ->
  failureHistory w (stepTaskId step (currentStepIndex plan)) = None ->
  collab (calls w) CMemoryCheck = Throw e ->
  message e = "" ->
  (executeNextStep clock collab 4 plan context w).1
  = Throw (typeError "e.includes is not a function") /\
  (runSteps clock collab 1 plan context w).1
  = Throw (typeError "e.includes is not a function").
Proof.
  intros Hw Hstep Hty Hreg Hhist Hthrow Hmsg.
  pose proof (message_less_halts clock collab 3 plan context w step e
                Hw Hstep Hty Hreg Hhist Hthrow Hmsg) as Hhalt.
  split; [exact Hhalt|].
  rewrite runSteps_S.
  destruct (executeNextStep clock collab 4 plan context w) as [[[p|]|e'] w'];
    simpl in Hhalt; try discriminate. by injection Hhalt as ->.
Qed.

Lemma message_less_error_is_fatal_witness :
  (executeNextStep exampleClock throwsNothing 4 memoryAlone exampleContext
     memoryAloneWorld).1
  = Throw (typeError "e.includes is not a function") /\
  (runSteps exampleClock throwsNothing 1 memoryAlone exampleContext
     memoryAloneWorld).1
  = Throw (typeError "e.includes is not a function").
Proof.
  apply (message_less_error_is_fatal exampleClock throwsNothing memoryAlone
           exampleContext memoryAloneWorld memoryStep (mkThrown "")).
  - split; apply (bool_decide_unpack _); vm_compute; exact I.
  - reflexivity.
  - reflexivity.
  - vm_compute. by eexists.
  - reflexivity.
  - reflexivity.
  - reflexivity.
Defined.

Section Quiet.

Variable clock : nat -> Z.
Variable collab : nat -> Call -> Res Result.







End Quiet.



(* ===================================================================== *)
(** * The order of the topological sort                                   *)
(* ===================================================================== *)

Section Order.
Import Resolver.

Variable tasks : list Task.
Variable rank : string -> nat.
Hypothesis Hrank : forall a b,
  a ∈ idSet tasks -> b ∈ depsOf tasks a -> b ∈ idSet tasks ->
  (rank b < rank a)%nat.

Lemma depsFirst_snoc l a :
  depsFirst tasks l ->
  (forall b, b ∈ depsOf tasks a -> is_Some (indexMap tasks !! b) -> b ∈ l) ->
  depsFirst tasks (l ++ [a]).
Proof.
  intros Hl Ha p x b Hp Hb Hknown.
  destruct (decide (p < length l)%nat) as [Hlt|Hge].
  - rewrite lookup_app_l in Hp by exact Hlt.
    destruct (Hl p x b Hp Hb Hknown) as (q & Hq & Hlq).
    exists q. split; [exact Hq|]. by rewrite lookup_app_l by lia.
  - rewrite lookup_app_r in Hp by lia.
    destruct (p - length l)%nat as [|n] eqn:Hn; [|done].
    injection Hp as <-.
    destruct (proj1 (list_elem_of_lookup _ _) (Ha b Hb Hknown)) as [q Hq].
    exists q. apply lookup_lt_Some in Hq as Hlt.
    split; [lia|]. by rewrite lookup_app_l by lia.
Qed.

(** A call of [visit] below the ids on the stack leaves the id in [result],
    after everything it depends on. *)
Lemma visit_ordered fuel : forall id st,
  id ∈ idSet tasks -> DfsInv tasks st ->
  (size (idSet tasks) < size (temp st) + fuel)%nat ->
  (forall t, t ∈ temp st -> (rank id < rank t)%nat) ->
  depsFirst tasks (result st) ->
  exists st',
    visit tasks fuel id st = Some st' /\ DfsInv tasks st' /\
    temp st' = temp st /\ visited st ⊆ visited st' /\
    id ∈ visited st' /\ depsFirst tasks (result st').
Proof.
  induction fuel as [|fuel IH]; intros id st Hid Hinv Hfuel Hstack Hord.
  - exfalso. pose proof (subseteq_size _ _ (inv_temp _ _ Hinv)). lia.
  - destruct (visit_total tasks (S fuel) id st Hid Hinv Hfuel)
      as (st' & E & Hinv' & Ht' & Hsub' & Hin').
    exists st'. split; [exact E|]. split; [exact Hinv'|]. split; [exact Ht'|].
    split; [exact Hsub'|].
    assert (id ∉ temp st) as Htemp.
    { intros Hin. specialize (Hstack id Hin). lia. }
    split; [by destruct Hin'|].
    revert E. cbn [visit].
    rewrite decide_False by exact Htemp.
    destruct (decide (id ∈ visited st)) as [Hvis|Hvis]; [by intros [= <-]|].
    cbv zeta.
    set (st1 := mkDfs (visited st) ({[id]} ∪ temp st) (result st)).
    assert (DfsInv tasks st1) as Hinv1.
    { destruct Hinv as [J1 J2 J3 J4 J5]. constructor; simpl; auto.
      - clear - J1 Hid. set_solver.
      - clear - J3 Hvis. set_solver. }
    assert (size (idSet tasks) < size (temp st1) + fuel)%nat as Hfuel1.
    { simpl. rewrite size_union by (clear - Htemp; set_solver).
      rewrite size_singleton. lia. }
    assert (forall deps s,
              (forall d, d ∈ deps -> d ∈ depsOf tasks id) ->
              DfsInv tasks s -> temp s = temp st1 -> depsFirst tasks (result s) ->
              exists s',
                foldl (fun acc depId =>
                         match acc with
                         | None => None
                         | Some s0 =>
                             if decide (is_Some (indexMap tasks !! depId))
                             then visit tasks fuel depId s0
                             else Some s0
                         end) (Some s) deps = Some s' /\
                DfsInv tasks s' /\ visited s ⊆ visited s' /\
                depsFirst tasks (result s') /\
                (forall d, d ∈ deps -> is_Some (indexMap tasks !! d) ->
                           d ∈ visited s'))
      as Hloop.
    { induction deps as [|d deps IHd]; intros s Hdeps Hs Ht Hos; cbn [foldl].
      - exists s. split; [reflexivity|]. split; [done|]. split; [done|].
        split; [done|]. intros d Hd. by apply elem_of_nil in Hd.
      - assert (forall d', d' ∈ deps -> d' ∈ depsOf tasks id) as Hdeps'
          by (intros d' Hd'; apply Hdeps; by right).
        destruct (decide (is_Some (indexMap tasks !! d))) as [Hd|Hd];
          cbv beta iota.
        + pose proof (proj1 (indexMap_idSet tasks d) Hd) as Hdin.
          destruct (IH d s Hdin Hs) as (s1 & -> & Hs1 & Ht1 & Hsub1 & Hd1 & Hos1);
            [by rewrite Ht| |exact Hos|].
          { intros t Hin. rewrite Ht in Hin. cbn [st1 temp] in Hin.
            assert (rank d < rank id)%nat as Hlt
              by (apply Hrank; [exact Hid|apply Hdeps; by left|exact Hdin]).
            apply elem_of_union in Hin as [Hin|Hin].
            - apply elem_of_singleton in Hin. by subst.
            - specialize (Hstack t Hin). lia. }
          destruct (IHd s1 Hdeps' Hs1) as (s2 & -> & Hs2 & Hsub2 & Hos2 & Hall2);
            [congruence|exact Hos1|].
          exists s2. split; [reflexivity|]. split; [done|].
          split; [by etrans|]. split; [done|].
          intros d' Hd' Hknown. apply elem_of_cons in Hd' as [->|Hd'].
          * by apply Hsub2.
          * by apply Hall2.
        + destruct (IHd s Hdeps' Hs Ht Hos) as (s2 & -> & Hs2 & Hsub2 & Hos2 & Hall2).
          exists s2. split; [reflexivity|]. split; [done|]. split; [done|].
          split; [done|].
          intros d' Hd' Hknown. apply elem_of_cons in Hd' as [->|Hd']; [done|].
          by apply Hall2. }
    destruct (Hloop (depsOf tasks id) st1 ltac:(done) Hinv1 eq_refl Hord)
      as (st2 & Eloop & Hinv2 & _ & Hos2 & Hall2).
    unfold depsOf in Eloop. rewrite Eloop. intros [= <-]. cbn [result].
    apply depsFirst_snoc; [exact Hos2|].
    intros b Hb Hknown. apply (inv_result _ _ Hinv2). by apply Hall2.
Qed.

(** The loop over all tasks leaves every id after what it depends on. *)
Lemma visitAll_ordered :
  exists st,
    visitAll tasks (S (length tasks)) = Some st /\
    DfsInv tasks st /\ visited st = idSet tasks /\ depsFirst tasks (result st).
Proof.
  destruct (visitAll_total tasks) as (st & E & Hinv & _ & Hvis).
  exists st. split; [exact E|]. split; [exact Hinv|]. split; [exact Hvis|].
  revert E. unfold visitAll.
  assert (forall l s s',
            (forall t, t ∈ l -> t ∈ tasks) ->
            DfsInv tasks s -> temp s = ∅ -> depsFirst tasks (result s) ->
            foldl (fun acc task =>
                     match acc with
                     | None => None
                     | Some s0 =>
                         if decide (t_id task ∈ visited s0) then Some s0
                         else visit tasks (S (length tasks)) (t_id task) s0
                     end) (Some s) l = Some s' ->
            depsFirst tasks (result s')) as Hloop.
  { induction l as [|t l IHl]; intros s s' Hl Hs Ht Hos; cbn [foldl].
    - by intros [= <-].
    - assert (forall t', t' ∈ l -> t' ∈ tasks) as Hl'
        by (intros t' Hin; apply Hl; by right).
      destruct (decide (t_id t ∈ visited s)) as [Hv|Hv]; cbv beta iota.
      + by apply IHl.
      + destruct (visit_ordered (S (length tasks)) (t_id t) s)
          as (s1 & -> & Hs1 & Ht1 & _ & _ & Hos1); auto.
        { apply idSet_elem, Hl. by left. }
        { rewrite Ht, size_empty. pose proof (idSet_size tasks). lia. }
        { intros x Hx. rewrite Ht in Hx. by apply not_elem_of_empty in Hx. }
        apply IHl; [exact Hl'|exact Hs1|congruence|exact Hos1]. }
  apply Hloop; auto.
  - constructor; simpl.
    + apply empty_subseteq.
    + apply empty_subseteq.
    + apply disjoint_empty_l.
    + constructor.
    + intros x. rewrite elem_of_nil. split; [done|apply not_elem_of_empty].
  - intros p a b Hp. simpl in Hp. by rewrite lookup_nil in Hp.
Qed.

End Order.

Section Reversed.
Import Resolver.

Variable tasks : list Task.
Hypothesis Hdistinct : NoDup (map t_id tasks).

Lemma same_id_same_task a b :
  a ∈ tasks -> b ∈ tasks -> t_id a = t_id b -> a = b.
Proof.
  intros Ha Hb Hid.
  apply list_elem_of_lookup in Ha as [i Hi]. apply list_elem_of_lookup in Hb as [j Hj].
  assert (i = j) as ->; [|congruence].
  apply (NoDup_lookup (map t_id tasks) i j (t_id a)); [exact Hdistinct|..].
  - change (map t_id tasks) with (t_id <$> tasks). by rewrite list_lookup_fmap, Hi.
  - change (map t_id tasks) with (t_id <$> tasks).
    by rewrite list_lookup_fmap, Hj, Hid.
Qed.

(** With distinct ids the graph holds each task's own dependencies. *)
Lemma graph_lookup t :
  t ∈ tasks -> graph tasks !! t_id t = Some (t_dependencies t).
Proof.
  intros Ht. unfold graph.
  destruct (js_map_of (map (fun t => (t_id t, t_dependencies t)) tasks) !! t_id t)
    as [deps|] eqn:E.
  - apply js_map_of_lookup in E.
    apply list_elem_of_In, in_map_iff in E as (t' & [= Hid <-] & Hin).
    apply list_elem_of_In in Hin.
    by rewrite (same_id_same_task t' t Hin Ht Hid).
  - exfalso. apply eq_None_not_Some in E. apply E, js_map_of_is_Some.
    apply list_elem_of_fmap. exists (t_id t, t_dependencies t).
    split; [reflexivity|].
    apply list_elem_of_In, in_map_iff. exists t.
    split; [reflexivity|]. by apply list_elem_of_In.
Qed.

(** The output is the reversed [result], read as tasks. *)
Lemma sort_reversed :
  exists st out,
    visitAll tasks (S (length tasks)) = Some st /\
    sortTasksByDependencies tasks = Some out /\
    map t_id out = reverse (result st) /\
    (forall t, t ∈ out -> t ∈ tasks).
Proof.
  unfold sortTasksByDependencies.
  destruct (visitAll_total tasks) as (st & E & Hinv & _ & Hvis).
  rewrite E. exists st.
  assert (forall l : list string,
            (forall id, id ∈ l -> id ∈ idSet tasks) ->
            exists out,
              mapM (fun id => match indexMap tasks !! id with
                              | Some i => tasks !! i
                              | None => None
                              end) l = Some out /\
              map t_id out = l /\ (forall t, t ∈ out -> t ∈ tasks)) as Hmap.
  { induction l as [|id l IHl]; intros Hl.
    - exists []. split; [reflexivity|]. split; [reflexivity|].
      intros t Hin. by apply elem_of_nil in Hin.
    - destruct (proj2 (indexMap_idSet tasks id)) as [i Hi];
        [apply Hl; by left|].
      destruct (ResolverFacts.indexMap_lookup tasks id i Hi) as (t & Hti & Hid).
      destruct IHl as (out & Hout & Hids & Hin);
        [intros id' Hin'; apply Hl; by right|].
      exists (t :: out). simpl. rewrite Hi, Hti. simpl. rewrite Hout. simpl.
      split; [reflexivity|]. split; [by rewrite Hid, Hids|].
      intros t' Hin'. apply elem_of_cons in Hin' as [->|Hin']; auto.
      by apply list_elem_of_lookup_2 in Hti. }
  destruct (Hmap (reverse (result st))) as (out & -> & Hids & Hin).
  { intros id Hid. rewrite elem_of_reverse in Hid.
    apply (inv_visited _ _ Hinv), (inv_result _ _ Hinv), Hid. }
  by exists out.
Qed.

End Reversed.

(** X27. On tasks with distinct ids and no dependency cycle,
    [sortTasksByDependencies] returns the tasks with every task before the
    tasks it depends on: the traversal collects the ids dependencies first,
    and the final [reverse] turns that order around. *)
Theorem sort_puts_dependents_first (tasks : list Task) (rank : string -> nat) :
  NoDup (map t_id tasks) ->
  (forall a b, a ∈ tasks -> b ∈ tasks -> t_id b ∈ t_dependencies a ->
               (rank (t_id b) < rank (t_id a))%nat) ->
  exists out,
    Resolver.sortTasksByDependencies tasks = Some out /\
    forall i j a b,
      out !! i = Some a -> out !! j = Some b ->
      t_id b ∈ t_dependencies a -> (i < j)%nat.
Proof.
  intros Hdistinct Hacyclic.
  assert (forall a b, a ∈ idSet tasks -> b ∈ depsOf tasks a -> b ∈ idSet tasks ->
                      (rank b < rank a)%nat) as Hrank.
  { intros ida idb Ha Hdep Hb.
    unfold idSet in Ha, Hb. rewrite elem_of_list_to_set in Ha, Hb.
    apply list_elem_of_In, in_map_iff in Ha as (a & <- & Ha).
    apply list_elem_of_In, in_map_iff in Hb as (b & <- & Hb).
    apply list_elem_of_In in Ha, Hb.
    apply Hacyclic; [exact Ha|exact Hb|].
    unfold depsOf in Hdep. by rewrite (graph_lookup tasks Hdistinct a Ha) in Hdep. }
  destruct (sort_reversed tasks) as (st & out & E & Hout & Hids & Hin).
  destruct (visitAll_ordered tasks rank Hrank) as (st' & E' & Hinv & Hvis & Hord).
  assert (st' = st) as -> by congruence.
  exists out. split; [exact Hout|].
  intros i j a b Hi Hj Hdep.
  assert (a ∈ tasks) as Ha by (apply Hin; by eapply list_elem_of_lookup_2).
  assert (b ∈ tasks) as Hb by (apply Hin; by eapply list_elem_of_lookup_2).
  assert (reverse (Resolver.result st) !! i = Some (t_id a)) as Hri.
  { rewrite <- Hids. change (map t_id out) with (t_id <$> out).
    by rewrite list_lookup_fmap, Hi. }
  assert (reverse (Resolver.result st) !! j = Some (t_id b)) as Hrj.
  { rewrite <- Hids. change (map t_id out) with (t_id <$> out).
    by rewrite list_lookup_fmap, Hj. }
  apply lookup_lt_Some in Hri as Hli. apply lookup_lt_Some in Hrj as Hlj.
  rewrite length_reverse in Hli, Hlj.
  rewrite reverse_lookup in Hri by exact Hli.
  rewrite reverse_lookup in Hrj by exact Hlj.
  destruct (Hord _ (t_id a) (t_id b) Hri) as (q & Hq & Hlq).
  { unfold depsOf. by rewrite (graph_lookup tasks Hdistinct a Ha). }
  { apply indexMap_idSet, idSet_elem, Hb. }
  assert (q = length (Resolver.result st) - S j)%nat as ->.
  { apply (NoDup_lookup (Resolver.result st) _ _ (t_id b));
      [apply (inv_nodup _ _ Hinv)|exact Hlq|exact Hrj]. }
  lia.
Qed.

Lemma sort_puts_dependents_first_witness :
  exists out,
    Resolver.sortTasksByDependencies Resolver.getDefaultTasks = Some out /\
    forall i j a b,
      out !! i = Some a -> out !! j = Some b ->
      t_id b ∈ t_dependencies a -> (i < j)%nat.
Proof.
  apply (sort_puts_dependents_first Resolver.getDefaultTasks
           (fun id => default O (Resolver.indexMap Resolver.getDefaultTasks !! id))).
  - apply (bool_decide_unpack _). vm_compute. exact I.
  - intros a b Ha Hb Hdep.
    unfold Resolver.getDefaultTasks in Ha, Hb.
    rewrite !elem_of_cons, elem_of_nil in Ha, Hb.
    destruct Ha as [->|[->|[->|[->|[->|[]]]]]];
      destruct Hb as [->|[->|[->|[->|[->|[]]]]]];
      cbn [t_id t_dependencies] in Hdep |- *;
      rewrite ?elem_of_cons, ?elem_of_nil in Hdep;
      first [by vm_compute | exfalso; clear - Hdep; naive_solver].
Defined.

(* ===================================================================== *)
(** * Planning                                                            *)
(* ===================================================================== *)

(** [decomposeQuery] always comes to an end: with a task list, or, when the
    language model rejected without a reason, with the error its own
    [catch] throws. *)
Lemma decomposeQuery_total d :
  exists r,
    Resolver.decomposeQuery d = Some r /\
    match d with
    | Resolver.Rejected reason => r = Throw (cannotRead reason "message")
    | _ => exists decomposedTasks, r = Ok decomposedTasks
    end.
Proof.
  destruct d as [|ts|reason]; simpl; [by eexists _; split; [|eexists]| |by eexists].
  destruct (Resolver.enforceLogicalDependencies ts) as [withDeps|];
    [|by eexists _; split; [|eexists]].
  destruct (sort_total withDeps) as (out & -> & _).
  eexists. split; [reflexivity|]. by eexists.
Qed.

(** What [startPlan] reads off [planQueryExecution]. *)
Lemma planQueryExecution_startPlan clock q d plan w :
  startPlan clock q d = (Ok plan, w) ->
  planQueryExecution clock q d newManager = (Ok (Some plan), w).
Proof.
  unfold startPlan.
  destruct (planQueryExecution clock q d newManager) as [[[p|]|e] w0];
    intros [= ? ?]; subst; reflexivity.
Qed.

(** When every task is in one state, [getTaskStatus] counts them all
    there. *)
Lemma uniform_counts (m : gmap string Entry) (s s' : TaskState) :
  (forall taskId e, m !! taskId = Some e -> stateOf e = Some (SVal s)) ->
  countState s' m = if decide (s' = s) then size m else 0%nat.
Proof.
  intros Hst. unfold countState. case_decide as Heq.
  - subst s'. by rewrite map_filter_id by exact Hst.
  - replace (filter _ m) with (∅ : gmap string Entry);
      [by rewrite map_size_empty|].
    symmetry. apply map_empty_filter. intros taskId e He Hs.
    simpl in Hs. rewrite (Hst taskId e He) in Hs. congruence.
Qed.

(** What [initializePlan] registers in a new manager: a pending task object
    under the id of every step, and nothing else. *)
Lemma registered_pending (l : list (nat * Step)) : forall m : gmap string Entry,
  let m' := foldl (fun m '(index, step) =>
                     let taskId := stepTaskId step index in
                     <[taskId := EObj (mkTaskRec (Some step) (Some taskId) PENDING
                                                 None None None)]> m) m l in
  (forall taskId e, m !! taskId = Some e -> stateOf e = Some (SVal PENDING)) ->
  (forall taskId e, m' !! taskId = Some e -> stateOf e = Some (SVal PENDING)) /\
  (forall taskId, is_Some (m !! taskId) -> is_Some (m' !! taskId)) /\
  (forall i step, (i, step) ∈ l -> is_Some (m' !! stepTaskId step i)) /\
  (size m' <= size m + length l)%nat.
Proof.
  induction l as [|[i s] l IH]; intros m; cbn [foldl].
  - intros Hm. split; [exact Hm|]. split; [done|].
    split; [|simpl; lia]. intros i step Hin. by apply elem_of_nil in Hin.
  - cbv zeta in IH |- *. intros Hm.
    set (m1 := <[stepTaskId s i := _]> m).
    destruct (IH m1) as (Hst & Hkeep & Hreg & Hsize).
    { intros taskId e. unfold m1.
      destruct (decide (taskId = stepTaskId s i)) as [->|Hne].
      - rewrite lookup_insert_eq. by intros [= <-].
      - rewrite lookup_insert_ne by done. apply Hm. }
    split; [exact Hst|]. split; [|split].
    + intros taskId Hin. apply Hkeep. unfold m1.
      apply lookup_insert_is_Some'. by right.
    + intros i' step Hin. apply elem_of_cons in Hin as [[= -> ->]|Hin].
      * apply Hkeep. unfold m1. rewrite lookup_insert_eq. by eexists.
      * by apply Hreg.
    + assert (size m1 <= S (size m))%nat.
      { unfold m1. destruct (m !! stepTaskId s i) eqn:E.
        - rewrite map_size_insert_Some by by eexists. lia.
        - by rewrite map_size_insert_None. }
      cbn [length]. lia.
Qed.

(** The manager of a new plan: every step has a registered task, every
    registered task is pending. *)
Lemma registered_status planSteps w :
  intact w ->
  tasks w = registered planSteps ->
  (forall i step, planSteps !! i = Some step ->
     is_Some (tasks w !! stepTaskId step i)) /\
  (size (tasks w) <= length planSteps)%nat /\
  (getTaskStatus w).1 = Ok (mkStatus (size (tasks w)) 0 0 0 0 (size (tasks w))).
Proof.
  intros Hw Htasks.
  destruct (registered_pending (imap pair planSteps) ∅)
    as (Hst & _ & Hreg & Hsize).
  { intros taskId e. by rewrite lookup_empty. }
  cbv zeta in Hst, Hreg, Hsize. fold (registered planSteps) in Hst, Hreg, Hsize.
  rewrite <- Htasks in Hst, Hreg, Hsize.
  split; [|split].
  - intros i step Hi. apply Hreg.
    apply list_elem_of_lookup. exists i. by rewrite list_lookup_imap, Hi.
  - rewrite map_size_empty, length_imap in Hsize. exact Hsize.
  - unfold getTaskStatus. munfold.
    rewrite bool_decide_true by by apply intact_states.
    cbn [fst]. rewrite !(uniform_counts _ PENDING) by exact Hst.
    reflexivity.
Qed.

(** X28. Planning always returns.  Whatever the call to the language model
    came to, [planQueryExecution] yields a plan at cursor 0 without results
    or completion, started at the first reading of the clock, and a State
    Manager in which every step of the plan has a registered task, every
    registered task is pending ([getTaskStatus] counts them all as pending),
    and the one checkpoint is [plan_initialized].  The plan has no [error],
    except when the language model rejected without a reason: then
    [decomposeQuery] itself throws, the plan is the five default steps and
    its [error] is the message of that throw. *)
Theorem planning_always_returns (clock : nat -> Z) (userQuery : string)
    (d : Resolver.Decomposition) :
  exists plan w,
    planQueryExecution clock userQuery d newManager = (Ok (Some plan), w) /\
    query plan = userQuery /\ currentStepIndex plan = O /\
    planResults plan = [] /\ completed plan = false /\
    startTime plan = clock O /\
    match d with
    | Resolver.Rejected reason =>
        steps plan = getDefaultSteps /\
        planError plan = Some (message (cannotRead reason "message"))
    | _ =>
        planError plan = None /\
        exists decomposedTasks,
          Resolver.decomposeQuery d = Some (Ok decomposedTasks) /\
          steps plan = planSteps decomposedTasks
    end /\
    intact w /\
    (forall i step, steps plan !! i = Some step ->
       is_Some (tasks w !! stepTaskId step i)) /\
    (size (tasks w) <= length (steps plan))%nat /\
    (getTaskStatus w).1
    = Ok (mkStatus (size (tasks w)) 0 0 0 0 (size (tasks w))) /\
    map cp_name (checkpoints w) = ["plan_initialized"].
Proof.
  destruct (decomposeQuery_total d) as (r & Hd & Hr).
  assert (forall plan w,
            startPlan clock userQuery d = (Ok plan, w) ->
            intact w -> tasks w = registered (steps plan) ->
            map cp_name (checkpoints w) = ["plan_initialized"] ->
            planQueryExecution clock userQuery d newManager = (Ok (Some plan), w) /\
            intact w /\
            (forall i step, steps plan !! i = Some step ->
               is_Some (tasks w !! stepTaskId step i)) /\
            (size (tasks w) <= length (steps plan))%nat /\
            (getTaskStatus w).1
            = Ok (mkStatus (size (tasks w)) 0 0 0 0 (size (tasks w))) /\
            map cp_name (checkpoints w) = ["plan_initialized"]) as Hrest.
  { intros plan w E Hw Htk Hcps.
    destruct (registered_status (steps plan) w Hw Htk) as (Hreg & Hsize & Hst).
    split; [by apply planQueryExecution_startPlan|]. done. }
  destruct d as [|ts|reason].
  - destruct Hr as [ts ->].
    destruct (planFromTasks_intact clock userQuery ts) as (w & E & Hw & Htk & Hcps).
    rewrite <- (startPlan_decomposed clock userQuery _ ts Hd) in E.
    destruct (Hrest _ w E Hw Htk Hcps) as (E' & Hrest').
    eexists _, w. split; [exact E'|]. do 5 (split; [reflexivity|]).
    split; [|exact Hrest']. split; [reflexivity|].
    exists ts. split; [exact Hd|reflexivity].
  - destruct Hr as [ts' ->].
    destruct (planFromTasks_intact clock userQuery ts') as (w & E & Hw & Htk & Hcps).
    rewrite <- (startPlan_decomposed clock userQuery _ ts' Hd) in E.
    destruct (Hrest _ w E Hw Htk Hcps) as (E' & Hrest').
    eexists _, w. split; [exact E'|]. do 5 (split; [reflexivity|]).
    split; [|exact Hrest']. split; [reflexivity|].
    exists ts'. split; [exact Hd|reflexivity].
  - subst r.
    destruct (planFromDefaultSteps_intact clock userQuery
                (cannotRead reason "message")) as (w & E & Hw & Htk & Hcps).
    rewrite <- (startPlan_rejected clock userQuery _ _ Hd) in E.
    destruct (Hrest _ w E Hw Htk Hcps) as (E' & Hrest').
    eexists _, w. split; [exact E'|]. do 5 (split; [reflexivity|]).
    split; [|exact Hrest']. split; reflexivity.
Qed.

(** X13. Every plan starts with a MEMORY_CHECK step.  A plan built from
    decomposed tasks holds a VERIFICATION step: when the tasks have no
    MEMORY_CHECK, the plan gets exactly one, the bookend, at position 0; when
    they have no VERIFICATION, it gets exactly one, the bookend, at the end;
    no other step is added.  The plan built when [decomposeQuery] itself
    throws is the five default steps, without ids: it starts with a
    MEMORY_CHECK step too, but holds no VERIFICATION step. *)
Theorem plan_bookends (clock : nat -> Z) (userQuery : string)
    (d : Resolver.Decomposition) :
  exists plan w,
    planQueryExecution clock userQuery d newManager = (Ok (Some plan), w) /\
    let planned := steps plan in
    let count ty := length (filter (fun s => s_type s = ty) planned) in
    (exists first, head planned = Some first /\ s_type first = "MEMORY_CHECK") /\
    match d with
    | Resolver.Rejected _ =>
        planned = getDefaultSteps /\
        length planned = 5%nat /\
        ("VERIFICATION" ∉ map s_type planned) /\
        Forall (fun s => s_id s = None) planned
    | _ =>
        exists decomposedTasks,
          Resolver.decomposeQuery d = Some (Ok decomposedTasks) /\
          "VERIFICATION" ∈ map s_type planned /\
          ("MEMORY_CHECK" ∉ map t_type decomposedTasks ->
           head planned = Some memoryBookend /\ count "MEMORY_CHECK" = 1%nat) /\
          ("VERIFICATION" ∉ map t_type decomposedTasks ->
           last planned = Some verificationBookend /\
           count "VERIFICATION" = 1%nat) /\
          length planned
          = (length decomposedTasks
             + (if bool_decide ("MEMORY_CHECK" ∈ map t_type decomposedTasks)
                then 0 else 1)
             + (if bool_decide ("VERIFICATION" ∈ map t_type decomposedTasks)
                then 0 else 1))%nat
    end.
Proof.
  destruct (decomposeQuery_total d) as (r & Hd & Hr).
  assert (forall ts,
            Resolver.decomposeQuery d = Some (Ok ts) ->
            exists plan w,
              planQueryExecution clock userQuery d newManager = (Ok (Some plan), w) /\
              steps plan = planSteps ts) as Htry.
  { intros ts Hts.
    destruct (planFromTasks_intact clock userQuery ts) as (w & E & _).
    rewrite <- (startPlan_decomposed clock userQuery _ ts Hts) in E.
    eexists _, w. split; [by apply planQueryExecution_startPlan|reflexivity]. }
  destruct d as [|ts|reason].
  - destruct Hr as [ts ->]. destruct (Htry ts Hd) as (plan & w & E & Hsteps).
    exists plan, w. split; [exact E|]. cbv zeta. rewrite Hsteps.
    destruct (planSteps_bookends ts) as (Hfirst & Hrest).
    split; [exact Hfirst|]. exists ts. by split.
  - destruct Hr as [ts' ->]. destruct (Htry ts' Hd) as (plan & w & E & Hsteps).
    exists plan, w. split; [exact E|]. cbv zeta. rewrite Hsteps.
    destruct (planSteps_bookends ts') as (Hfirst & Hrest).
    split; [exact Hfirst|]. exists ts'. by split.
  - subst r.
    destruct (planFromDefaultSteps_intact clock userQuery
                (cannotRead reason "message")) as (w & E & _).
    rewrite <- (startPlan_rejected clock userQuery _ _ Hd) in E.
    eexists _, w. split; [by apply planQueryExecution_startPlan|].
    cbv zeta. cbn [steps].
    split; [exists (mkStep None "MEMORY_CHECK" None None false); by split|].
    split; [reflexivity|]. split; [reflexivity|].
    split; [apply (bool_decide_unpack _); vm_compute; exact I|].
    repeat constructor.
Qed.

(** X21. With every collaborator down no plan of [planQueryExecution] ever
    completes.  A plan built from decomposed tasks, whatever they are,
    always has a VERIFICATION step, its own or the one appended; the plan
    built when [decomposeQuery] itself throws has an INFORMATION_GATHERING
    step.  Either way, after any number [n] of [executeNextStep] calls the
    cursor is at [n], on a step, and [completed] is false. *)
Theorem no_plan_completes_when_down (clock : nat -> Z)
    (collab : nat -> Call -> Res Result) (userQuery : string)
    (decomposedTasks : list Task) (d : Resolver.Decomposition)
    (context : Context) (n : nat) :
  allDown collab ->
  (exists plan w plan' w',
     planFromTasks clock userQuery decomposedTasks newManager = (Ok plan, w) /\
     runSteps clock collab n plan context w = (Ok (Some plan'), w') /\
     completed plan' = false /\
     currentStepIndex plan' = n /\
     (n < length (steps plan'))%nat) /\
  (exists plan w plan' w',
     planQueryExecution clock userQuery d newManager = (Ok (Some plan), w) /\
     runSteps clock collab n plan context w = (Ok (Some plan'), w') /\
     completed plan' = false /\
     currentStepIndex plan' = n /\
     (n < length (steps plan'))%nat).
Proof.
  intros Hdown.
  assert (forall ts, exists plan w plan' w',
            planFromTasks clock userQuery ts newManager = (Ok plan, w) /\
            runSteps clock collab n plan context w = (Ok (Some plan'), w') /\
            completed plan' = false /\
            currentStepIndex plan' = n /\
            (n < length (steps plan'))%nat) as Htry.
  { intros ts.
    destruct (planFromTasks_intact clock userQuery ts) as (w & E & Hw & _).
    destruct (planSteps_verification ts) as (j & step & Hj & Hty).
    set (plan := mkPlan userQuery (planSteps ts) O [] false None
                        false false None (clock O)) in *.
    destruct (stuck_run clock collab Hdown n plan context w Hw eq_refl)
      as (p & w' & E' & Hc' & Hidx & (j' & g & Hj' & Hg & _) & _).
    { exists j, step. cbn [plan steps currentStepIndex]. split; [lia|].
      split; [exact Hj|]. by rewrite Hty. }
    { constructor. }
    exists plan, w, p, w'. cbn [plan currentStepIndex] in Hidx.
    split; [exact E|]. split; [exact E'|]. split; [exact Hc'|].
    split; [exact Hidx|]. apply lookup_lt_Some in Hg. lia. }
  split; [apply Htry|].
  destruct (decomposeQuery_total d) as ([ts|error] & Hd & _).
  - destruct (Htry ts) as (plan & w & p & w' & E & Hrest).
    rewrite <- (startPlan_decomposed clock userQuery _ ts Hd) in E.
    exists plan, w, p, w'. split; [by apply planQueryExecution_startPlan|exact Hrest].
  - destruct (planFromDefaultSteps_intact clock userQuery error)
      as (w & E & Hw & _).
    rewrite <- (startPlan_rejected clock userQuery _ _ Hd) in E.
    set (plan := mkPlan userQuery getDefaultSteps O [] false None
                        false false (Some (message error)) (clock O)) in *.
    destruct (stuck_run clock collab Hdown n plan context w Hw eq_refl)
      as (p & w' & E' & Hc' & Hidx & (j' & g & Hj' & Hg & _) & _).
    { exists 3%nat, (mkStep None "INFORMATION_GATHERING" None None false).
      cbn [plan steps currentStepIndex]. split; [lia|]. split; reflexivity. }
    { constructor. }
    exists plan, w, p, w'. cbn [plan currentStepIndex] in Hidx.
    split; [by apply planQueryExecution_startPlan|]. split; [exact E'|].
    split; [exact Hc'|]. split; [exact Hidx|]. apply lookup_lt_Some in Hg. lia.
Qed.

Lemma no_plan_completes_when_down_witness :
  (exists plan w plan' w',
     planFromTasks exampleClock "q" Resolver.getDefaultTasks newManager
     = (Ok plan, w) /\
     runSteps exampleClock alwaysDown 50 plan exampleContext w
     = (Ok (Some plan'), w') /\
     completed plan' = false /\
     currentStepIndex plan' = 50%nat /\
     (50 < length (steps plan'))%nat) /\
  (exists plan w plan' w',
     planQueryExecution exampleClock "q" (Resolver.Rejected JsUndefined) newManager
     = (Ok (Some plan), w) /\
     runSteps exampleClock alwaysDown 50 plan exampleContext w
     = (Ok (Some plan'), w') /\
     completed plan' = false /\
     currentStepIndex plan' = 50%nat /\
     (50 < length (steps plan'))%nat).
Proof.
  apply (no_plan_completes_when_down exampleClock alwaysDown "q"
           Resolver.getDefaultTasks (Resolver.Rejected JsUndefined)
           exampleContext 50).
  intros n c. eexists. split; reflexivity.
Defined.

(* ===================================================================== *)
(** * Runs of a plan                                                      *)
(* ===================================================================== *)

(** A run of [a + b] calls is a run of [a] calls followed by one of [b]. *)
Lemma runSteps_add clock collab context a : forall b plan w,
  runSteps clock collab (a + b) plan context w
  = match runSteps clock collab a plan context w with
    | (Ok (Some p), w') => runSteps clock collab b p context w'
    | other => other
    end.
Proof.
  induction a as [|a IH]; intros b plan w; [reflexivity|].
  change (S a + b)%nat with (S (a + b)). rewrite !runSteps_S.
  destruct (executeNextStep clock collab 4 plan context w) as [[[p|]|e] w1];
    [apply IH|reflexivity|reflexivity].
Qed.

(** Calls on a completed plan whose cursor is past the last step change
    nothing. *)
Lemma runSteps_at_end clock collab context k : forall p w,
  steps p !! currentStepIndex p = None -> completed p = true ->
  runSteps clock collab k p context w = (Ok (Some p), w).
Proof.
  induction k as [|k IH]; intros p w Hp Hc; [reflexivity|].
  rewrite runSteps_S, executeNextStep_unfold, Hp.
  change (mkPlan (query p) (steps p) (currentStepIndex p) (planResults p) true
                 (lastStepSuccessful p) (skippedStep p) (usedAlternative p)
                 (planError p) (startTime p)) with (markCompleted p).
  replace (markCompleted p) with p by (destruct p; simpl in Hc; by subst).
  munfold. by apply IH.
Qed.

(** A run too short to bring the cursor past the last step leaves the plan
    uncompleted. *)
Lemma runSteps_early clock collab context n : forall plan w plan' w',
  runSteps clock collab n plan context w = (Ok (Some plan'), w') ->
  (currentStepIndex plan + n < length (steps plan))%nat ->
  completed plan = false ->
  completed plan' = false.
Proof.
  induction n as [|n IH]; intros plan w plan' w' E Hlt Hc.
  - cbn in E. munfold. injection E as <- <-. exact Hc.
  - rewrite runSteps_S in E.
    destruct (executeNextStep clock collab 4 plan context w) as [[[p|]|e] w1] eqn:E1;
      try discriminate.
    destruct (lookup_lt_is_Some_2 (steps plan) (currentStepIndex plan))
      as [step Hstep]; [lia|].
    destruct (executeNextStep_shape clock collab 4 _ _ _ _ _ _ Hstep E1)
      as (fixes & ex & _ & _ & Hsteps & _ & Hidx & _ & _ & Hcomp).
    assert (length (steps plan) <= length (steps p))%nat as Hlen.
    { rewrite Hsteps, !length_app, length_take, length_drop. lia. }
    apply (IH p w1 plan' w' E); [lia|].
    rewrite Hcomp. apply Nat.leb_gt. lia.
Qed.

(** Whenever a run of the plan built when decomposition fails ends with the
    plan completed, with collaborators that always answer, the plan has six
    results and the manager six completed tasks: the run was at least six
    calls long, and calls after the sixth change nothing. *)
Lemma default_plan_completed clock collab context msg n plan w :
  allSucceed collab ->
  userMsg context = Some msg ->
  runPlan clock collab "q" Resolver.NoTasks context n = (Ok (Some plan), w) ->
  completed plan = true ->
  map (fun e => s_type (e_step e)) (planResults plan) = Resolver.typeOrder /\
  length (planResults plan) = 6%nat /\
  (getTaskStatus w).1 = Ok (mkStatus 0 0 6 0 0 6).
Proof.
  intros Hall Hmsg E Hc.
  destruct (default_plan_six clock collab "q" context msg Hall Hmsg)
    as (p6 & w6 & E6 & Hc6 & Hty & Hlen & _ & Hst & Hend).
  unfold runPlan in E, E6.
  rewrite (startPlan_decomposed clock "q" Resolver.NoTasks
             Resolver.getDefaultTasks eq_refl) in E, E6.
  destruct (planFromTasks_intact clock "q" Resolver.getDefaultTasks)
    as (w0 & E0 & _).
  rewrite E0 in E, E6.
  destruct (decide (n < 6)%nat) as [Hlt|Hge].
  - exfalso.
    assert (length (planSteps Resolver.getDefaultTasks) = 6%nat) as Hsteps
      by (vm_compute; reflexivity).
    assert (completed plan = false) as Hnot.
    { apply (runSteps_early clock collab context n _ _ _ _ E); [|reflexivity].
      cbn [currentStepIndex steps]. rewrite Hsteps. lia. }
    congruence.
  - replace n with (6 + (n - 6))%nat in E by lia.
    rewrite runSteps_add, E6 in E.
    rewrite (runSteps_at_end clock collab context (n - 6) p6 w6 Hend Hc6) in E.
    injection E as <- <-. split; [exact Hty|]. split; [exact Hlen|exact Hst].
Qed.

(** C9, as the specification states it, fails: with collaborators that
    always answer, no run of the plan built when decomposition fails ends
    completed with five results and five completed tasks. *)
Lemma default_plan_five_results_counterexample :
  ~ defaultPlanOutcome exampleClock alwaysAnswers exampleContext 5.
Proof.
  intros (n & plan & w & status & E & Hc & _ & Hlen & _).
  destruct (default_plan_completed exampleClock alwaysAnswers exampleContext
              "compare the two libraries" n plan w) as (_ & Hsix & _);
    [|reflexivity|exact E|exact Hc|lia].
  intros k c. eexists. split; [reflexivity|]. split; reflexivity.
Qed.

(** C9, amended.  When every collaborator call succeeds, the run of the plan
    built when decomposition fails ends with the plan completed, six result
    entries in the canonical type order (the five default tasks and the
    VERIFICATION step [planQueryExecution] appends) and a status of six
    completed, none failed, none pending; and six is the only number of
    entries a completed run of that plan can show. *)
Theorem default_plan_outcome_is_six (clock : nat -> Z)
    (collab : nat -> Call -> Res Result) (context : Context) (msg : string) :
  allSucceed collab ->
  userMsg context = Some msg ->
  defaultPlanOutcome clock collab context 6 /\
  forall k, defaultPlanOutcome clock collab context k -> k = 6%nat.
Proof.
  intros Hall Hmsg. split.
  - destruct (default_plan_six clock collab "q" context msg Hall Hmsg)
      as (p6 & w6 & E6 & Hc6 & Hty & Hlen & _ & Hst & _).
    exists 6%nat, p6, w6, (mkStatus 0 0 6 0 0 6).
    split; [exact E6|]. split; [exact Hc6|]. split; [exact Hty|].
    split; [exact Hlen|]. split; [exact Hst|]. split; [reflexivity|].
    split; reflexivity.
  - intros k (n & plan & w & status & E & Hc & _ & Hlen & _).
    destruct (default_plan_completed clock collab context msg n plan w
                Hall Hmsg E Hc) as (_ & Hsix & _).
    congruence.
Qed.

Lemma default_plan_outcome_is_six_witness :
  defaultPlanOutcome exampleClock alwaysAnswers exampleContext 6 /\
  forall k, defaultPlanOutcome exampleClock alwaysAnswers exampleContext k -> k = 6%nat.
Proof.
  apply (default_plan_outcome_is_six exampleClock alwaysAnswers exampleContext
           "compare the two libraries").
  - intros k c. eexists. split; [reflexivity|]. split; reflexivity.
  - reflexivity.
Defined.

(** C6.  The number of [executeNextStep] calls a plan needs is not bounded
    when collaborator calls fail.  With every collaborator down, the plan
    built when decomposition fails is never completed: whatever the number
    [n] of calls, each returns, the cursor stands at [n], on a step, the
    plan holds no successful result and [completed] is false.  (Each call
    that finds the INFORMATION_GATHERING step at the cursor inserts a
    TOOL_SELECTION fixing step in front of it and runs that one, which
    fails.) *)
Theorem completion_unbounded_when_down (clock : nat -> Z)
    (collab : nat -> Call -> Res Result) (userQuery : string)
    (context : Context) (n : nat) :
  allDown collab ->
  exists plan w,
    runPlan clock collab userQuery Resolver.NoTasks context n = (Ok (Some plan), w) /\
    completed plan = false /\
    currentStepIndex plan = n /\
    (n < length (steps plan))%nat /\
    allFailed (planResults plan).
Proof.
  intros Hdown. unfold runPlan.
  rewrite (startPlan_decomposed clock userQuery Resolver.NoTasks
             Resolver.getDefaultTasks eq_refl).
  destruct (planFromTasks_intact clock userQuery Resolver.getDefaultTasks)
    as (w0 & E0 & Hw0 & _).
  rewrite E0.
  set (plan := mkPlan userQuery (planSteps Resolver.getDefaultTasks) O [] false None
                      false false None (clock O)).
  destruct (stuck_run clock collab Hdown n plan context w0 Hw0 eq_refl)
    as (p & w' & E' & Hc' & Hidx & (j' & g & Hj' & Hg & _) & Hall').
  { exists 3%nat, (mkStep (Some "task-4") "INFORMATION_GATHERING"
                     (Some ["task-3"]) (Some 3) false).
    split; [simpl; lia|]. split; reflexivity. }
  { constructor. }
  exists p, w'. cbn [plan currentStepIndex] in Hidx.
  split; [exact E'|]. split; [exact Hc'|]. split; [exact Hidx|].
  split; [|exact Hall']. apply lookup_lt_Some in Hg. lia.
Qed.

Lemma completion_unbounded_when_down_witness :
  exists plan w,
    runPlan exampleClock alwaysDown "q" Resolver.NoTasks exampleContext 100
    = (Ok (Some plan), w) /\
    completed plan = false /\
    currentStepIndex plan = 100%nat /\
    (100 < length (steps plan))%nat /\
    allFailed (planResults plan).
Proof.
  apply (completion_unbounded_when_down exampleClock alwaysDown "q"
           exampleContext 100).
  intros n c. eexists. split; reflexivity.
Defined.






